(** * Period-bucket arithmetic: [distance.c], [chunk.c] and [ranges.c]

  A shallow embedding of the C sources of the time-bucketing engine and
  the properties its specification states about them.

  - C [int] and [int64_t] values are integers of [Z]; every arithmetic
    operator of the source is followed by the wrap-around of its width.
  - C [double] values are the binary64 numbers of [SpecFloat], with
    round-to-nearest-even arithmetic ([SFmul], [SFadd], [SFsub]).
  - R vectors are lists; an R error ([r_error]) is the [Error] branch of
    [result].
  - Functions of the package that live outside the embedded files
    (class detection, calendar decomposition, time-zone conversion, the
    change detector) are the fields of the class [Collaborators]. *)

From Stdlib Require Import ZArith List Bool String Lia Sorted.
From Stdlib Require Import SpecFloat.
Import ListNotations.

Local Open Scope Z_scope.

(* ================================================================== *)
(** ** Machine integers *)

Module CInt.

(** Two's complement reduction of [z] to a signed integer of [bits] bits. *)
Definition wrap (bits z : Z) : Z :=
  (z + 2 ^ (bits - 1)) mod 2 ^ bits - 2 ^ (bits - 1).

Definition INT_MIN : Z := - 2 ^ 31.
Definition INT_MAX : Z := 2 ^ 31 - 1.
Definition INT64_MIN : Z := - 2 ^ 63.
Definition INT64_MAX : Z := 2 ^ 63 - 1.

(** R reserves the least [int] for the missing integer. *)
Definition NA_INTEGER : Z := INT_MIN.

Definition in_int (z : Z) : Prop := INT_MIN <= z <= INT_MAX.
Definition in_int64 (z : Z) : Prop := INT64_MIN <= z <= INT64_MAX.

(** Conversion to [int] and to [int64_t]. *)
Definition int (z : Z) : Z := wrap 32 z.
Definition int64 (z : Z) : Z := wrap 64 z.

(** The operators of C on [int]: [+], [-], [*] and the truncating [/]. *)
Definition iadd (a b : Z) : Z := int (a + b).
Definition isub (a b : Z) : Z := int (a - b).
Definition imul (a b : Z) : Z := int (a * b).
Definition idiv (a b : Z) : Z := int (Z.quot a b).

(** The same operators on [int64_t]. *)
Definition lsub (a b : Z) : Z := int64 (a - b).
Definition lmul (a b : Z) : Z := int64 (a * b).
Definition ldiv (a b : Z) : Z := int64 (Z.quot a b).

(** C's [%] keeps the sign of the dividend. *)
Definition irem (a b : Z) : Z := int (Z.rem a b).

End CInt.
Import CInt.

(* ================================================================== *)
(** ** Doubles *)

Module Dbl.

Definition double : Type := spec_float.

Definition prec : Z := 53.
Definition emax : Z := 1024.

(** [(double) z]: conversion of an integer, rounding to nearest even. *)
Definition of_Z (z : Z) : double := binary_normalize prec emax z 0 false.

Definition mul : double -> double -> double := SFmul prec emax.
Definition add : double -> double -> double := SFadd prec emax.
Definition sub : double -> double -> double := SFsub prec emax.
Definition div : double -> double -> double := SFdiv prec emax.

(** [x == y] and [x < y] of C: false as soon as one side is a NaN. *)
Definition eqb : double -> double -> bool := SFeqb.
Definition ltb : double -> double -> bool := SFltb.

(** R's missing double is a NaN. *)
Definition NA_REAL : double := S754_nan.

Definition R_FINITE (x : double) : bool :=
  match x with
  | S754_zero _ | S754_finite _ _ _ => true
  | S754_infinity _ | S754_nan => false
  end.

Definition is_nan (x : double) : bool :=
  match x with S754_nan => true | _ => false end.

(** Integer part of the magnitude [m * 2^e] of a finite double. *)
Definition magnitude_floor (m : positive) (e : Z) : Z :=
  if 0 <=? e then Z.shiftl (Z.pos m) e else Z.shiftr (Z.pos m) (- e).

(** Does the magnitude [m * 2^e] have a fractional part? *)
Definition has_fraction (m : positive) (e : Z) : bool :=
  if 0 <=? e then false
  else negb (Z.shiftl (Z.shiftr (Z.pos m) (- e)) (- e) =? Z.pos m).

(** A signed integer as a double, keeping the sign of a zero result. *)
Definition of_sign_Z (s : bool) (z : Z) : double :=
  binary_normalize prec emax (if s then - z else z) 0 s.

(** [trunc] of <math.h>: rounds toward zero. *)
Definition trunc (x : double) : double :=
  match x with
  | S754_finite s m e =>
      if 0 <=? e then x else of_sign_Z s (magnitude_floor m e)
  | _ => x
  end.

(** [floor] of <math.h>: rounds toward minus infinity. *)
Definition floor (x : double) : double :=
  match x with
  | S754_finite s m e =>
      if 0 <=? e then x
      else if s && has_fraction m e
           then of_sign_Z true (magnitude_floor m e + 1)
           else of_sign_Z s (magnitude_floor m e)
  | _ => x
  end.

(** The integer a finite double truncates to. *)
Definition trunc_Z (x : double) : option Z :=
  match x with
  | S754_zero _ => Some 0
  | S754_finite s m e =>
      Some (if s then - magnitude_floor m e else magnitude_floor m e)
  | S754_infinity _ | S754_nan => None
  end.

(** [(int) x] and [(int64_t) x].  C leaves the conversion undefined for a
    NaN, an infinity or a value out of range; the model takes what the
    conversion instructions of x86-64 return there, the least integer of
    the width. *)
Definition to_int (x : double) : Z :=
  match trunc_Z x with
  | Some z => if (INT_MIN <=? z) && (z <=? INT_MAX) then z else INT_MIN
  | None => INT_MIN
  end.

Definition to_int64 (x : double) : Z :=
  match trunc_Z x with
  | Some z => if (INT64_MIN <=? z) && (z <=? INT64_MAX) then z else INT64_MIN
  | None => INT64_MIN
  end.

(** A double holds an integer: it is finite with no fractional part. *)
Definition integer_valued (x : double) : bool :=
  match x with
  | S754_zero _ => true
  | S754_finite _ m e => negb (has_fraction m e)
  | S754_infinity _ | S754_nan => false
  end.

(** The literals of the sources.  A decimal literal is the double nearest
    to it, which the correctly rounded quotient of two exact integers
    gives. *)
Definition lit_1e6 : double := of_Z 1000000.
Definition lit_1e3 : double := of_Z 1000.
Definition lit_1em6 : double := div (of_Z 1) (of_Z 1000000).
Definition lit_1em7 : double := div (of_Z 1) (of_Z 10000000).

End Dbl.
Import Dbl.

(* ================================================================== *)
(** ** R errors *)

Inductive result (A : Type) : Type :=
  | Ok (a : A)
  | Error (fn msg : string).

Arguments Ok {A} a.
Arguments Error {A} fn msg.

Definition bind {A B : Type} (r : result A) (k : A -> result B) : result B :=
  match r with
  | Ok a => k a
  | Error fn msg => Error fn msg
  end.

Notation "x <- r ;; k" := (bind r (fun x => k))
  (at level 61, r at next level, right associativity).
Notation "r ;;; k" := (bind r (fun _ => k))
  (at level 61, right associativity).

(** [r_error(fn, msg)] of utils.h. *)
Definition r_error {A : Type} (fn msg : string) : result A := Error fn msg.

Definition raises {A : Type} (r : result A) : Prop :=
  exists fn msg, r = Error fn msg.

(* ================================================================== *)
(** ** Floored division *)

(** The floored division of the specification: "if [a >= 0], [a / b];
    else [(a - (b - 1)) / b]", where [/] truncates toward zero. *)
Definition floor_div (a b : Z) : Z :=
  if 0 <=? a then Z.quot a b else Z.quot (a - (b - 1)) b.

(** Modelled from the spec: [int_div] of divmod.h, which is not among the
    embedded files.  It is the floored division above, on [int]. *)
Definition int_div (x y : Z) : Z :=
  if 0 <=? x then idiv x y else idiv (isub x (isub y 1)) y.

(* ================================================================== *)
(** ** R values *)

(** The R objects the engine receives: [NULL], integer and double vectors
    and lists (a POSIXlt is a list of its fields), each with its class
    attribute; [OTHERSXP] stands for every other type of object. *)
#[local] Unset Elimination Schemes.
Inductive SEXP : Type :=
  | R_NilValue
  | INTSXP (class : list string) (v : list Z)
  | REALSXP (class : list string) (v : list double)
  | VECSXP (class : list string) (v : list SEXP)
  | OTHERSXP (class : list string) (len : nat).
#[local] Set Elimination Schemes.

Definition is_nil (x : SEXP) : bool :=
  match x with R_NilValue => true | _ => false end.

(** [Rf_length]: the number of elements, 0 for [NULL]. *)
Definition Rf_length (x : SEXP) : Z :=
  match x with
  | R_NilValue => 0
  | INTSXP _ v => Z.of_nat (List.length v)
  | REALSXP _ v => Z.of_nat (List.length v)
  | VECSXP _ v => Z.of_nat (List.length v)
  | OTHERSXP _ n => Z.of_nat n
  end.

(** [REAL(x)]: the doubles of a double vector, an R error on anything
    else. *)
Definition REAL (x : SEXP) : result (list double) :=
  match x with
  | REALSXP _ v => Ok v
  | _ => Error "REAL" "REAL() can only be applied to a 'numeric'"
  end.

(** [VECTOR_ELT(x, i)]: a field of a list, an R error on anything else. *)
Definition VECTOR_ELT (x : SEXP) (i : nat) : result SEXP :=
  match x with
  | VECSXP _ v =>
      match nth_error v i with
      | Some e => Ok e
      | None => Error "VECTOR_ELT" "subscript out of bounds"
      end
  | _ => Error "VECTOR_ELT" "VECTOR_ELT() can only be applied to a 'list'"
  end.

(** [p[0]] of an integer or double vector.  Reading an empty vector is
    undefined in C; the origin it is applied to has one element. *)
Definition first_int (v : list Z) : Z := hd NA_INTEGER v.
Definition first_real (v : list double) : double := hd NA_REAL v.

Inductive warp_class_type : Type :=
  | warp_class_date
  | warp_class_posixct
  | warp_class_posixlt
  | warp_class_unknown.

Inductive warp_period_type : Type :=
  | warp_period_year
  | warp_period_quarter
  | warp_period_month
  | warp_period_week
  | warp_period_yweek
  | warp_period_day
  | warp_period_yday
  | warp_period_hour
  | warp_period_minute
  | warp_period_second
  | warp_period_millisecond.

(** [struct warp_components] and [struct warp_yday_components] of warp.h,
    with the fields the embedded files read. *)
Record warp_components : Type := {
  year_offset : Z;
  month : Z;
  day : Z;
  yday : Z
  }.

Record warp_yday_components : Type := {
  origin_year_offset : Z;
  origin_yday : Z
  }.

(** The functions of the package that the embedded files call and that are
    defined elsewhere (utils.c, date.c, changes.c). *)
Class Collaborators : Type := {
  time_class_type : SEXP -> warp_class_type;
  get_origin_epoch_in_time_zone : SEXP -> SEXP;
  convert_time_zone : SEXP -> SEXP -> SEXP;
  get_year_offset : SEXP -> list Z;
  get_month_offset : SEXP -> list Z;
  get_day_offset : SEXP -> list Z;
  as_posixlt_from_posixct : SEXP -> SEXP;
  get_origin_yday_components : SEXP -> warp_yday_components;
  convert_days_to_components : Z -> warp_components;
  as_date : SEXP -> SEXP;
  as_datetime : SEXP -> SEXP;
  warp_changes : SEXP -> list double
  }.

(* ================================================================== *)
(** ** distance.c *)

Module Distance.

Section WithCollaborators.
Context {host : Collaborators}.

(** *** Validation and origin helpers (bottom of distance.c) *)

Definition validate_every (every : Z) : result unit :=
  if every =? NA_INTEGER then
    r_error "validate_every" "`every` must not be `NA`"
  else if every <=? 0 then
    r_error "validate_every" "`every` must be an integer greater than 0"
  else Ok tt.

Definition validate_origin (origin : SEXP) : result unit :=
  if is_nil origin then Ok tt
  else
    let n_origin := Rf_length origin in
    if negb (n_origin =? 1) then
      r_error "validate_origin" "`origin` must have size 1"
    else
      match time_class_type origin with
      | warp_class_unknown =>
          r_error "validate_origin"
            "`origin` must inherit from 'Date', 'POSIXct', or 'POSIXlt'."
      | _ => Ok tt
      end.

Definition guarded_floor (x : double) : Z :=
  (* Scale and trim past microseconds *)
  let x := mul x lit_1e6 in
  let x := trunc x in
  let x := mul x lit_1em6 in
  (* Add guard and floor *)
  let x := add x lit_1em7 in
  let x := floor x in
  to_int64 x.

Definition guarded_floor_to_millisecond (x : double) : Z :=
  (* Scale and trim past microseconds *)
  let x := mul x lit_1e6 in
  let x := trunc x in
  let x := mul x lit_1em6 in
  (* Add guard, scale to milliseconds, and floor *)
  let x := add x lit_1em7 in
  let x := mul x lit_1e3 in
  let x := floor x in
  to_int64 x.

Definition origin_to_days_from_epoch (origin : SEXP) : result Z :=
  v <- REAL (as_date origin) ;;
  let out := first_real v in
  if eqb out NA_REAL then
    r_error "origin_to_days_from_epoch" "`origin` must not be `NA`."
  else Ok (to_int out).

Definition origin_to_seconds_from_epoch (origin : SEXP) : result Z :=
  v <- REAL (as_datetime origin) ;;
  let origin_value := first_real v in
  if eqb origin_value NA_REAL then
    r_error "origin_to_seconds_from_epoch" "`origin` must not be `NA`."
  else Ok (guarded_floor origin_value).

Definition origin_to_milliseconds_from_epoch (origin : SEXP) : result Z :=
  v <- REAL (as_datetime origin) ;;
  let origin_value := first_real v in
  if eqb origin_value NA_REAL then
    r_error "origin_to_milliseconds_from_epoch" "`origin` must not be `NA`."
  else Ok (guarded_floor_to_millisecond origin_value).

(** *** What a loop stores

    Each loop computes an integer for a present element and stores it in
    the [double] output ([p_out[i] = elt]), or stores [NA_REAL] for a
    missing element.  The functions named [..._bucket] are the loop bodies
    up to that store: [None] for a missing element, the integer otherwise.
    [store] is the assignment. *)
Definition store (elt : option Z) : double :=
  match elt with
  | None => NA_REAL
  | Some z => of_Z z
  end.

(** *** The tail every loop ends with

    After the offset has been subtracted, each loop of distance.c ends
    with the same statements: store [elt] when [every] is 1, else divide
    with the sign test.  [every_int] is that tail on an [int] element,
    [every_int64] on an [int64_t] element ([every - 1] is evaluated in
    [int] and then promoted). *)
Definition every_int (needs_every : bool) (every elt : Z) : Z :=
  if negb needs_every then elt
  else if elt <? 0 then idiv (isub elt (isub every 1)) every
  else idiv elt every.

Definition every_int64 (needs_every : bool) (every elt : Z) : Z :=
  if negb needs_every then elt
  else if elt <? 0 then ldiv (lsub elt (isub every 1)) every
  else ldiv elt every.

(** The offset of the origin, read only when there is an origin; without
    one the C variable stays uninitialised and unread (0 here). *)
Definition origin_int_offset (get : SEXP -> list Z) (fn : string)
    (origin : SEXP) : result Z :=
  if negb (is_nil origin) then
    let origin_offset := first_int (get origin) in
    if origin_offset =? NA_INTEGER then r_error fn "`origin` cannot be `NA`."
    else Ok origin_offset
  else Ok 0.

(** *** Year, month, quarter, day, week *)

(** Body of the loop of [warp_distance_year], [warp_distance_month] and
    [warp_distance_day]: the three loops are the same statements on the
    year, month and day offsets. *)
Definition offset_distance_bucket (needs_offset : bool) (origin_offset : Z)
    (needs_every : bool) (every : Z) (elt : Z) : option Z :=
  if elt =? NA_INTEGER then None
  else
    let elt := if needs_offset then isub elt origin_offset else elt in
    Some (every_int needs_every every elt).

Definition offset_distance_elt (needs_offset : bool) (origin_offset : Z)
    (needs_every : bool) (every : Z) (elt : Z) : double :=
  store (offset_distance_bucket needs_offset origin_offset needs_every every elt).

(** [warp_distance_year], [warp_distance_month] and [warp_distance_day] are
    one function text, on the offsets [get_year_offset], [get_month_offset]
    and [get_day_offset] return. *)
Definition offsets_distance (get : SEXP -> list Z) (fn : string)
    (x : SEXP) (every : Z) (origin : SEXP) : result (list double) :=
  let needs_offset := negb (is_nil origin) in
  origin_offset <- origin_int_offset get fn origin ;;
  let needs_every := negb (every =? 1) in
  let offsets := get x in
  Ok (map (offset_distance_elt needs_offset origin_offset needs_every every)
          offsets).

Definition warp_distance_year : SEXP -> Z -> SEXP -> result (list double) :=
  offsets_distance get_year_offset "warp_distance_year".

Definition warp_distance_month : SEXP -> Z -> SEXP -> result (list double) :=
  offsets_distance get_month_offset "warp_distance_month".

Definition warp_distance_quarter (x : SEXP) (every : Z) (origin : SEXP)
    : result (list double) :=
  warp_distance_month x (imul every 3) origin.

Definition warp_distance_day : SEXP -> Z -> SEXP -> result (list double) :=
  offsets_distance get_day_offset "warp_distance_day".

Definition warp_distance_week (x : SEXP) (every : Z) (origin : SEXP)
    : result (list double) :=
  warp_distance_day x (imul every 7) origin.

(** *** Year-day and year-week *)

Definition DAYS_IN_YEAR : Z := 365.
Definition DAYS_IN_LEAP_YEAR : Z := 366.

(** The macro [is_leap_year], on an [int]. *)
Definition is_leap_year (year : Z) : bool :=
  ((irem year 4 =? 0) && negb (irem year 100 =? 0)) || (irem year 400 =? 0).

Definition YEARS_FROM_0001_01_01_TO_EPOCH : Z := 1970.
Definition DAYS_FROM_0001_01_01_TO_EPOCH : Z := 719162.
Definition LEAP_YEARS_FROM_0001_01_01_TO_EPOCH : Z := 477.

Definition days_before_year (year_offset : Z) : Z :=
  let year := iadd year_offset YEARS_FROM_0001_01_01_TO_EPOCH in
  let year := isub year 1 in
  let days :=
    iadd (isub (iadd (imul year 365) (int_div year 4)) (int_div year 100))
         (int_div year 400) in
  isub days DAYS_FROM_0001_01_01_TO_EPOCH.

Definition leap_years_before_and_including_year (year_offset : Z) : Z :=
  let year := iadd year_offset YEARS_FROM_0001_01_01_TO_EPOCH in
  let n_leap_years :=
    iadd (isub (int_div year 4) (int_div year 100)) (int_div year 400) in
  isub n_leap_years LEAP_YEARS_FROM_0001_01_01_TO_EPOCH.

Definition yday_leap_adjustment (year_offset yday : Z) (origin_leap : bool) : Z :=
  (* No adjustment to make if before or equal to Feb 28th *)
  if yday <? 58 then 0
  else
    let year := iadd year_offset 1970 in
    let year_is_leap := is_leap_year year in
    if origin_leap then
      if year_is_leap then 0 else -1
    else
      if year_is_leap then 1 else 0.

(** The first statements of [compute_yday_distance], which set its local
    variable [last_origin_year_offset]. *)
Definition last_origin_year_offset_of
    (year_offset yday origin_yday : Z) (origin_leap : bool) : Z :=
  let origin_yday_adjusted :=
    iadd origin_yday (yday_leap_adjustment year_offset yday origin_leap) in
  if yday <? origin_yday_adjusted then isub year_offset 1 else year_offset.

Definition compute_yday_distance
    (days_since_epoch year_offset yday origin_year_offset origin_yday : Z)
    (origin_leap : bool)
    (units_in_leap_year units_in_non_leap_year every : Z) : Z :=
  let last_origin_year_offset :=
    last_origin_year_offset_of year_offset yday origin_yday origin_leap in
  let last_origin :=
    iadd (iadd (days_before_year last_origin_year_offset) origin_yday)
         (yday_leap_adjustment last_origin_year_offset origin_yday origin_leap) in
  let days_since_last_origin := isub days_since_epoch last_origin in
  let units_in_year := int_div days_since_last_origin every in
  let years_between_origins := isub last_origin_year_offset origin_year_offset in
  let leap_years_between_origins :=
    isub (leap_years_before_and_including_year last_origin_year_offset)
         (leap_years_before_and_including_year origin_year_offset) in
  let non_leap_years_between_origins :=
    isub years_between_origins leap_years_between_origins in
  let units_between_origins :=
    iadd (imul units_in_leap_year leap_years_between_origins)
         (imul units_in_non_leap_year non_leap_years_between_origins) in
  let out := iadd units_between_origins units_in_year in
  out.

(** What the three year-day loops compute before they start. *)
Record yday_setup : Type := {
  units_in_non_leap_year : Z;
  units_in_leap_year : Z;
  setup_origin_year_offset : Z;
  setup_origin_yday : Z;
  origin_leap : bool
}.

Definition yday_setup_of (every : Z)
    (origin_components : warp_yday_components) : yday_setup :=
  {| units_in_non_leap_year := iadd (idiv (isub DAYS_IN_YEAR 1) every) 1;
     units_in_leap_year := iadd (idiv (isub DAYS_IN_LEAP_YEAR 1) every) 1;
     setup_origin_year_offset := origin_year_offset origin_components;
     setup_origin_yday := origin_yday origin_components;
     origin_leap :=
       is_leap_year (iadd (origin_year_offset origin_components) 1970) |}.

Definition yday_prepare (every : Z) (origin : SEXP) : yday_setup :=
  yday_setup_of every (get_origin_yday_components origin).

Definition yday_bucket (s : yday_setup) (every : Z)
    (days_since_epoch year_offset yday : Z) : Z :=
  compute_yday_distance days_since_epoch year_offset yday
    (setup_origin_year_offset s) (setup_origin_yday s) (origin_leap s)
    (units_in_leap_year s) (units_in_non_leap_year s) every.

(** Body of the loop of [posixlt_warp_distance_yday], on the year and the
    day of the year of one element. *)
Definition posixlt_warp_distance_yday_bucket (s : yday_setup) (every : Z)
    (year yday : Z) : option Z :=
  if year =? NA_INTEGER then None
  else
    let year_offset := isub year 70 in
    let days_since_epoch := iadd (days_before_year year_offset) yday in
    Some (yday_bucket s every days_since_epoch year_offset yday).

Definition posixlt_warp_distance_yday_elt (s : yday_setup) (every : Z)
    (year yday : Z) : double :=
  store (posixlt_warp_distance_yday_bucket s every year yday).

(** The loop runs over the length of the year field and reads the
    day-of-year field at the same index (a read past its end is undefined
    in C; the model reads [NA_INTEGER] there). *)
Definition posixlt_warp_distance_yday (x : SEXP) (every : Z) (origin : SEXP)
    : result (list double) :=
  year <- VECTOR_ELT x 5 ;;
  yday <- VECTOR_ELT x 7 ;;
  match year with
  | INTSXP _ p_year =>
      match yday with
      | INTSXP _ p_yday =>
          let s := yday_prepare every origin in
          Ok (map (fun i =>
                     posixlt_warp_distance_yday_elt s every
                       (nth i p_year NA_INTEGER) (nth i p_yday NA_INTEGER))
                  (seq 0 (List.length p_year)))
      | _ =>
          r_error "posixlt_warp_distance_yday"
            "Internal error: The 8th element of the POSIXlt object should be an integer."
      end
  | _ =>
      r_error "posixlt_warp_distance_yday"
        "Internal error: The 6th element of the POSIXlt object should be an integer."
  end.

Definition int_date_warp_distance_yday_bucket (s : yday_setup) (every : Z)
    (elt : Z) : option Z :=
  if elt =? NA_INTEGER then None
  else
    let components := convert_days_to_components elt in
    Some (yday_bucket s every elt (year_offset components) (yday components)).

Definition int_date_warp_distance_yday_elt (s : yday_setup) (every : Z)
    (elt : Z) : double :=
  store (int_date_warp_distance_yday_bucket s every elt).

Definition int_date_warp_distance_yday (p_x : list Z) (every : Z)
    (origin : SEXP) : result (list double) :=
  let s := yday_prepare every origin in
  Ok (map (int_date_warp_distance_yday_elt s every) p_x).

Definition dbl_date_warp_distance_yday_bucket (s : yday_setup) (every : Z)
    (x_elt : double) : option Z :=
  if negb (R_FINITE x_elt) then None
  else
    (* Truncate fractional pieces towards 0 *)
    let elt := to_int x_elt in
    let components := convert_days_to_components elt in
    Some (yday_bucket s every elt (year_offset components) (yday components)).

Definition dbl_date_warp_distance_yday_elt (s : yday_setup) (every : Z)
    (x_elt : double) : double :=
  store (dbl_date_warp_distance_yday_bucket s every x_elt).

Definition dbl_date_warp_distance_yday (p_x : list double) (every : Z)
    (origin : SEXP) : result (list double) :=
  let s := yday_prepare every origin in
  Ok (map (dbl_date_warp_distance_yday_elt s every) p_x).

Definition date_warp_distance_yday (x : SEXP) (every : Z) (origin : SEXP)
    : result (list double) :=
  match x with
  | INTSXP _ p_x => int_date_warp_distance_yday p_x every origin
  | REALSXP _ p_x => dbl_date_warp_distance_yday p_x every origin
  | _ => r_error "date_warp_distance_yday" "Unknown `Date` type."
  end.

Definition posixct_warp_distance_yday (x : SEXP) (every : Z) (origin : SEXP)
    : result (list double) :=
  let x := as_posixlt_from_posixct x in
  posixlt_warp_distance_yday x every origin.

Definition warp_distance_yday (x : SEXP) (every : Z) (origin : SEXP)
    : result (list double) :=
  match time_class_type x with
  | warp_class_date => date_warp_distance_yday x every origin
  | warp_class_posixct => posixct_warp_distance_yday x every origin
  | warp_class_posixlt => posixlt_warp_distance_yday x every origin
  | warp_class_unknown => r_error "warp_distance_yday" "Unknown object."
  end.

Definition warp_distance_yweek (x : SEXP) (every : Z) (origin : SEXP)
    : result (list double) :=
  warp_distance_yday x (imul every 7) origin.

(** *** Hour, minute, second, millisecond *)

Definition HOURS_IN_DAY : Z := 24.
Definition MINUTES_IN_DAY : Z := 1440.
Definition SECONDS_IN_DAY : Z := 86400.
Definition MILLISECONDS_IN_DAY : Z := 86400000.
Definition SECONDS_IN_HOUR : Z := 3600.
Definition SECONDS_IN_MINUTE : Z := 60.
Definition MILLISECONDS_IN_SECOND : Z := 1000.

(** The origin of a Date loop, as days; unread without an origin. *)
Definition date_origin_offset (origin : SEXP) : result Z :=
  if negb (is_nil origin) then origin_to_days_from_epoch origin else Ok 0.

Definition posixct_origin_offset (origin : SEXP) : result Z :=
  if negb (is_nil origin) then origin_to_seconds_from_epoch origin else Ok 0.

Definition posixct_origin_offset_ms (origin : SEXP) : result Z :=
  if negb (is_nil origin) then origin_to_milliseconds_from_epoch origin else Ok 0.

(** **** Date, hour and minute: the element stays an [int] *)

(** Loop body of [int_date_warp_distance_hour] ([units_in_day] is
    [HOURS_IN_DAY]) and of [int_date_warp_distance_minute]
    ([MINUTES_IN_DAY]). *)
Definition int_date_int_bucket (units_in_day : Z)
    (needs_offset : bool) (origin_offset : Z) (needs_every : bool)
    (every : Z) (elt : Z) : option Z :=
  if elt =? NA_INTEGER then None
  else
    let elt := if needs_offset then isub elt origin_offset else elt in
    let elt := imul elt units_in_day in
    Some (every_int needs_every every elt).

Definition int_date_int_elt (units_in_day : Z)
    (needs_offset : bool) (origin_offset : Z) (needs_every : bool)
    (every : Z) (elt : Z) : double :=
  store (int_date_int_bucket units_in_day needs_offset origin_offset needs_every every elt).

(** Loop body of [dbl_date_warp_distance_hour] and
    [dbl_date_warp_distance_minute]. *)
Definition dbl_date_int_bucket (units_in_day : Z)
    (needs_offset : bool) (origin_offset : Z) (needs_every : bool)
    (every : Z) (x_elt : double) : option Z :=
  if negb (R_FINITE x_elt) then None
  else
    (* Truncate to completely ignore fractional Date parts *)
    let elt := to_int x_elt in
    let elt := if needs_offset then isub elt origin_offset else elt in
    let elt := imul elt units_in_day in
    Some (every_int needs_every every elt).

Definition dbl_date_int_elt (units_in_day : Z)
    (needs_offset : bool) (origin_offset : Z) (needs_every : bool)
    (every : Z) (x_elt : double) : double :=
  store (dbl_date_int_bucket units_in_day needs_offset origin_offset needs_every every x_elt).

Definition int_date_warp_distance_hour (p_x : list Z) (every : Z)
    (origin : SEXP) : result (list double) :=
  let needs_every := negb (every =? 1) in
  let needs_offset := negb (is_nil origin) in
  origin_offset <- date_origin_offset origin ;;
  Ok (map (int_date_int_elt HOURS_IN_DAY needs_offset origin_offset
             needs_every every) p_x).

Definition dbl_date_warp_distance_hour (p_x : list double) (every : Z)
    (origin : SEXP) : result (list double) :=
  let needs_every := negb (every =? 1) in
  let needs_offset := negb (is_nil origin) in
  origin_offset <- date_origin_offset origin ;;
  Ok (map (dbl_date_int_elt HOURS_IN_DAY needs_offset origin_offset
             needs_every every) p_x).

Definition int_date_warp_distance_minute (p_x : list Z) (every : Z)
    (origin : SEXP) : result (list double) :=
  let needs_every := negb (every =? 1) in
  let needs_offset := negb (is_nil origin) in
  origin_offset <- date_origin_offset origin ;;
  Ok (map (int_date_int_elt MINUTES_IN_DAY needs_offset origin_offset
             needs_every every) p_x).

Definition dbl_date_warp_distance_minute (p_x : list double) (every : Z)
    (origin : SEXP) : result (list double) :=
  let needs_every := negb (every =? 1) in
  let needs_offset := negb (is_nil origin) in
  origin_offset <- date_origin_offset origin ;;
  Ok (map (dbl_date_int_elt MINUTES_IN_DAY needs_offset origin_offset
             needs_every every) p_x).

(** **** Date, second and millisecond: the element is an [int64_t] *)

(** Loop body of [int_date_warp_distance_second] ([SECONDS_IN_DAY]) and
    of [int_date_warp_distance_millisecond] ([MILLISECONDS_IN_DAY]). *)
Definition int_date_int64_bucket (units_in_day : Z)
    (needs_offset : bool) (origin_offset : Z) (needs_every : bool)
    (every : Z) (x_elt : Z) : option Z :=
  if x_elt =? NA_INTEGER then None
  else
    (* Avoid overflow *)
    let elt := int64 x_elt in
    let elt := if needs_offset then lsub elt origin_offset else elt in
    let elt := lmul elt units_in_day in
    Some (every_int64 needs_every every elt).

Definition int_date_int64_elt (units_in_day : Z)
    (needs_offset : bool) (origin_offset : Z) (needs_every : bool)
    (every : Z) (x_elt : Z) : double :=
  store (int_date_int64_bucket units_in_day needs_offset origin_offset needs_every every x_elt).

(** Loop body of [dbl_date_warp_distance_second] and
    [dbl_date_warp_distance_millisecond]. *)
Definition dbl_date_int64_bucket (units_in_day : Z)
    (needs_offset : bool) (origin_offset : Z) (needs_every : bool)
    (every : Z) (x_elt : double) : option Z :=
  if negb (R_FINITE x_elt) then None
  else
    (* Truncate to completely ignore fractional Date parts;
       int64_t to avoid overflow *)
    let elt := to_int64 x_elt in
    let elt := if needs_offset then lsub elt origin_offset else elt in
    let elt := lmul elt units_in_day in
    Some (every_int64 needs_every every elt).

Definition dbl_date_int64_elt (units_in_day : Z)
    (needs_offset : bool) (origin_offset : Z) (needs_every : bool)
    (every : Z) (x_elt : double) : double :=
  store (dbl_date_int64_bucket units_in_day needs_offset origin_offset needs_every every x_elt).

Definition int_date_warp_distance_second (p_x : list Z) (every : Z)
    (origin : SEXP) : result (list double) :=
  let needs_every := negb (every =? 1) in
  let needs_offset := negb (is_nil origin) in
  origin_offset <- date_origin_offset origin ;;
  Ok (map (int_date_int64_elt SECONDS_IN_DAY needs_offset origin_offset
             needs_every every) p_x).

Definition dbl_date_warp_distance_second (p_x : list double) (every : Z)
    (origin : SEXP) : result (list double) :=
  let needs_every := negb (every =? 1) in
  let needs_offset := negb (is_nil origin) in
  origin_offset <- date_origin_offset origin ;;
  Ok (map (dbl_date_int64_elt SECONDS_IN_DAY needs_offset origin_offset
             needs_every every) p_x).

Definition int_date_warp_distance_millisecond (p_x : list Z) (every : Z)
    (origin : SEXP) : result (list double) :=
  let needs_every := negb (every =? 1) in
  let needs_offset := negb (is_nil origin) in
  origin_offset <- date_origin_offset origin ;;
  Ok (map (int_date_int64_elt MILLISECONDS_IN_DAY needs_offset origin_offset
             needs_every every) p_x).

Definition dbl_date_warp_distance_millisecond (p_x : list double) (every : Z)
    (origin : SEXP) : result (list double) :=
  let needs_every := negb (every =? 1) in
  let needs_offset := negb (is_nil origin) in
  origin_offset <- date_origin_offset origin ;;
  Ok (map (dbl_date_int64_elt MILLISECONDS_IN_DAY needs_offset origin_offset
             needs_every every) p_x).

(** **** POSIXct: seconds since the epoch, as [int64_t] *)

(** The division of the second count by the seconds of an hour or of a
    minute, with its sign test, as the hour and minute loops write it. *)
Definition seconds_to_unit (seconds_in_unit elt : Z) : Z :=
  if elt <? 0 then ldiv (lsub elt (isub seconds_in_unit 1)) seconds_in_unit
  else ldiv elt seconds_in_unit.

(** Loop body of [int_posixct_warp_distance_hour] ([SECONDS_IN_HOUR]) and
    [int_posixct_warp_distance_minute] ([SECONDS_IN_MINUTE]). *)
Definition int_posixct_unit_bucket (seconds_in_unit : Z)
    (needs_offset : bool) (origin_offset : Z) (needs_every : bool)
    (every : Z) (x_elt : Z) : option Z :=
  if x_elt =? NA_INTEGER then None
  else
    (* Avoid overflow *)
    let elt := int64 x_elt in
    let elt := if needs_offset then lsub elt origin_offset else elt in
    let elt := seconds_to_unit seconds_in_unit elt in
    Some (every_int64 needs_every every elt).

Definition int_posixct_unit_elt (seconds_in_unit : Z)
    (needs_offset : bool) (origin_offset : Z) (needs_every : bool)
    (every : Z) (x_elt : Z) : double :=
  store (int_posixct_unit_bucket seconds_in_unit needs_offset origin_offset needs_every every x_elt).

(** Loop body of [dbl_posixct_warp_distance_hour] and
    [dbl_posixct_warp_distance_minute]. *)
Definition dbl_posixct_unit_bucket (seconds_in_unit : Z)
    (needs_offset : bool) (origin_offset : Z) (needs_every : bool)
    (every : Z) (x_elt : double) : option Z :=
  if negb (R_FINITE x_elt) then None
  else
    let elt := guarded_floor x_elt in
    let elt := if needs_offset then lsub elt origin_offset else elt in
    let elt := seconds_to_unit seconds_in_unit elt in
    Some (every_int64 needs_every every elt).

Definition dbl_posixct_unit_elt (seconds_in_unit : Z)
    (needs_offset : bool) (origin_offset : Z) (needs_every : bool)
    (every : Z) (x_elt : double) : double :=
  store (dbl_posixct_unit_bucket seconds_in_unit needs_offset origin_offset needs_every every x_elt).

Definition int_posixct_warp_distance_hour (p_x : list Z) (every : Z)
    (origin : SEXP) : result (list double) :=
  let needs_every := negb (every =? 1) in
  let needs_offset := negb (is_nil origin) in
  origin_offset <- posixct_origin_offset origin ;;
  Ok (map (int_posixct_unit_elt SECONDS_IN_HOUR needs_offset origin_offset
             needs_every every) p_x).

Definition dbl_posixct_warp_distance_hour (p_x : list double) (every : Z)
    (origin : SEXP) : result (list double) :=
  let needs_every := negb (every =? 1) in
  let needs_offset := negb (is_nil origin) in
  origin_offset <- posixct_origin_offset origin ;;
  Ok (map (dbl_posixct_unit_elt SECONDS_IN_HOUR needs_offset origin_offset
             needs_every every) p_x).

Definition int_posixct_warp_distance_minute (p_x : list Z) (every : Z)
    (origin : SEXP) : result (list double) :=
  let needs_every := negb (every =? 1) in
  let needs_offset := negb (is_nil origin) in
  origin_offset <- posixct_origin_offset origin ;;
  Ok (map (int_posixct_unit_elt SECONDS_IN_MINUTE needs_offset origin_offset
             needs_every every) p_x).

Definition dbl_posixct_warp_distance_minute (p_x : list double) (every : Z)
    (origin : SEXP) : result (list double) :=
  let needs_every := negb (every =? 1) in
  let needs_offset := negb (is_nil origin) in
  origin_offset <- posixct_origin_offset origin ;;
  Ok (map (dbl_posixct_unit_elt SECONDS_IN_MINUTE needs_offset origin_offset
             needs_every every) p_x).

Definition int_posixct_warp_distance_second_bucket
    (needs_offset : bool) (origin_offset : Z) (needs_every : bool)
    (every : Z) (x_elt : Z) : option Z :=
  if x_elt =? NA_INTEGER then None
  else
    (* Avoid overflow *)
    let elt := int64 x_elt in
    let elt := if needs_offset then lsub elt origin_offset else elt in
    Some (every_int64 needs_every every elt).

Definition int_posixct_warp_distance_second_elt
    (needs_offset : bool) (origin_offset : Z) (needs_every : bool)
    (every : Z) (x_elt : Z) : double :=
  store (int_posixct_warp_distance_second_bucket needs_offset origin_offset needs_every every x_elt).

Definition int_posixct_warp_distance_second (p_x : list Z) (every : Z)
    (origin : SEXP) : result (list double) :=
  let needs_every := negb (every =? 1) in
  let needs_offset := negb (is_nil origin) in
  origin_offset <- posixct_origin_offset origin ;;
  Ok (map (int_posixct_warp_distance_second_elt needs_offset origin_offset
             needs_every every) p_x).

Definition dbl_posixct_warp_distance_second_bucket
    (needs_offset : bool) (origin_offset : Z) (needs_every : bool)
    (every : Z) (x_elt : double) : option Z :=
  if negb (R_FINITE x_elt) then None
  else
    let elt := guarded_floor x_elt in
    let elt := if needs_offset then lsub elt origin_offset else elt in
    Some (every_int64 needs_every every elt).

Definition dbl_posixct_warp_distance_second_elt
    (needs_offset : bool) (origin_offset : Z) (needs_every : bool)
    (every : Z) (x_elt : double) : double :=
  store (dbl_posixct_warp_distance_second_bucket needs_offset origin_offset needs_every every x_elt).

Definition dbl_posixct_warp_distance_second (p_x : list double) (every : Z)
    (origin : SEXP) : result (list double) :=
  let needs_every := negb (every =? 1) in
  let needs_offset := negb (is_nil origin) in
  origin_offset <- posixct_origin_offset origin ;;
  Ok (map (dbl_posixct_warp_distance_second_elt needs_offset origin_offset
             needs_every every) p_x).

(** The product [x_elt * MILLISECONDS_IN_SECOND] is taken on [int]s and
    only its result becomes an [int64_t]. *)
Definition int_posixct_warp_distance_millisecond_bucket
    (needs_offset : bool) (origin_offset : Z) (needs_every : bool)
    (every : Z) (x_elt : Z) : option Z :=
  if x_elt =? NA_INTEGER then None
  else
    let elt := int64 (imul x_elt MILLISECONDS_IN_SECOND) in
    let elt := if needs_offset then lsub elt origin_offset else elt in
    Some (every_int64 needs_every every elt).

Definition int_posixct_warp_distance_millisecond_elt
    (needs_offset : bool) (origin_offset : Z) (needs_every : bool)
    (every : Z) (x_elt : Z) : double :=
  store (int_posixct_warp_distance_millisecond_bucket needs_offset origin_offset needs_every every x_elt).

Definition int_posixct_warp_distance_millisecond (p_x : list Z) (every : Z)
    (origin : SEXP) : result (list double) :=
  let needs_every := negb (every =? 1) in
  let needs_offset := negb (is_nil origin) in
  origin_offset <- posixct_origin_offset_ms origin ;;
  Ok (map (int_posixct_warp_distance_millisecond_elt needs_offset
             origin_offset needs_every every) p_x).

Definition dbl_posixct_warp_distance_millisecond_bucket
    (needs_offset : bool) (origin_offset : Z) (needs_every : bool)
    (every : Z) (x_elt : double) : option Z :=
  if negb (R_FINITE x_elt) then None
  else
    let elt := guarded_floor_to_millisecond x_elt in
    let elt := if needs_offset then lsub elt origin_offset else elt in
    Some (every_int64 needs_every every elt).

Definition dbl_posixct_warp_distance_millisecond_elt
    (needs_offset : bool) (origin_offset : Z) (needs_every : bool)
    (every : Z) (x_elt : double) : double :=
  store (dbl_posixct_warp_distance_millisecond_bucket needs_offset origin_offset needs_every every x_elt).

Definition dbl_posixct_warp_distance_millisecond (p_x : list double)
    (every : Z) (origin : SEXP) : result (list double) :=
  let needs_every := negb (every =? 1) in
  let needs_offset := negb (is_nil origin) in
  origin_offset <- posixct_origin_offset_ms origin ;;
  Ok (map (dbl_posixct_warp_distance_millisecond_elt needs_offset
             origin_offset needs_every every) p_x).

(** **** Dispatch on the class of [x] and on its storage *)

(** [switch (TYPEOF(x))] of the [date_...] and [posixct_...] functions. *)
Definition by_storage (fn : string)
    (on_int : list Z -> Z -> SEXP -> result (list double))
    (on_dbl : list double -> Z -> SEXP -> result (list double))
    (x : SEXP) (every : Z) (origin : SEXP) : result (list double) :=
  match x with
  | INTSXP _ p_x => on_int p_x every origin
  | REALSXP _ p_x => on_dbl p_x every origin
  | _ => r_error fn "Unknown type."
  end.

(** [switch (time_class_type(x))] of the [warp_distance_...] functions;
    a POSIXlt goes through [as_datetime] to the POSIXct branch. *)
Definition by_class (fn : string)
    (on_date on_posixct : SEXP -> Z -> SEXP -> result (list double))
    (x : SEXP) (every : Z) (origin : SEXP) : result (list double) :=
  match time_class_type x with
  | warp_class_date => on_date x every origin
  | warp_class_posixct => on_posixct x every origin
  | warp_class_posixlt => on_posixct (as_datetime x) every origin
  | warp_class_unknown => r_error fn "Unknown object."
  end.

Definition date_warp_distance_hour :=
  by_storage "date_warp_distance_hour"
    int_date_warp_distance_hour dbl_date_warp_distance_hour.
Definition posixct_warp_distance_hour :=
  by_storage "posixct_warp_distance_hour"
    int_posixct_warp_distance_hour dbl_posixct_warp_distance_hour.
Definition warp_distance_hour :=
  by_class "warp_distance_hour"
    date_warp_distance_hour posixct_warp_distance_hour.

Definition date_warp_distance_minute :=
  by_storage "date_warp_distance_minute"
    int_date_warp_distance_minute dbl_date_warp_distance_minute.
Definition posixct_warp_distance_minute :=
  by_storage "posixct_warp_distance_minute"
    int_posixct_warp_distance_minute dbl_posixct_warp_distance_minute.
Definition warp_distance_minute :=
  by_class "warp_distance_minute"
    date_warp_distance_minute posixct_warp_distance_minute.

Definition date_warp_distance_second :=
  by_storage "date_warp_distance_second"
    int_date_warp_distance_second dbl_date_warp_distance_second.
Definition posixct_warp_distance_second :=
  by_storage "posixct_warp_distance_second"
    int_posixct_warp_distance_second dbl_posixct_warp_distance_second.
Definition warp_distance_second :=
  by_class "warp_distance_second"
    date_warp_distance_second posixct_warp_distance_second.

Definition date_warp_distance_millisecond :=
  by_storage "date_warp_distance_millisecond"
    int_date_warp_distance_millisecond dbl_date_warp_distance_millisecond.
Definition posixct_warp_distance_millisecond :=
  by_storage "posixct_warp_distance_millisecond"
    int_posixct_warp_distance_millisecond dbl_posixct_warp_distance_millisecond.
Definition warp_distance_millisecond :=
  by_class "warp_distance_millisecond"
    date_warp_distance_millisecond posixct_warp_distance_millisecond.

(** *** Entry point *)

Definition warp_distance (x : SEXP) (type : warp_period_type) (every : Z)
    (origin : SEXP) : result (list double) :=
  validate_origin origin ;;;
  validate_every every ;;;
  match time_class_type x with
  | warp_class_unknown =>
      r_error "warp_distance"
        "`x` must inherit from 'Date', 'POSIXct', or 'POSIXlt'."
  | _ =>
      let '(x, origin) :=
        if is_nil origin then (x, get_origin_epoch_in_time_zone x)
        else (convert_time_zone x origin, origin) in
      match type with
      | warp_period_year => warp_distance_year x every origin
      | warp_period_quarter => warp_distance_quarter x every origin
      | warp_period_month => warp_distance_month x every origin
      | warp_period_week => warp_distance_week x every origin
      | warp_period_yweek => warp_distance_yweek x every origin
      | warp_period_day => warp_distance_day x every origin
      | warp_period_yday => warp_distance_yday x every origin
      | warp_period_hour => warp_distance_hour x every origin
      | warp_period_minute => warp_distance_minute x every origin
      | warp_period_second => warp_distance_second x every origin
      | warp_period_millisecond => warp_distance_millisecond x every origin
      end
  end.

End WithCollaborators.

End Distance.

(* ================================================================== *)
(** ** chunk.c *)

Module Chunk.

Section WithCollaborators.
Context {host : Collaborators}.

Definition validate_every (every : Z) : result unit :=
  if every =? NA_INTEGER then
    r_error "validate_every" "`every` must not be `NA`"
  else if every <=? 0 then
    r_error "validate_every" "`every` must be an integer greater than 0"
  else Ok tt.

(** Here the origin helpers return the [double] they read. *)
Definition origin_to_days_from_epoch (origin : SEXP) : result double :=
  v <- REAL (as_date origin) ;;
  let out := first_real v in
  if eqb out NA_REAL then
    r_error "origin_to_days_from_epoch" "`origin` must not be `NA`."
  else Ok out.

Definition HOURS_IN_DAY : Z := 24.
Definition MINUTES_IN_DAY : Z := 1440.
Definition SECONDS_IN_DAY : Z := 86400.

(** [double origin_offset = origin_to_days_from_epoch(origin) * K]; the
    variable is unread without an origin (0 here). *)
Definition scaled_origin_offset (units_in_day : Z) (origin : SEXP)
    : result double :=
  if negb (is_nil origin) then
    d <- origin_to_days_from_epoch origin ;;
    Ok (mul d (of_Z units_in_day))
  else Ok (of_Z 0).

Definition day_origin_offset (origin : SEXP) : result double :=
  if negb (is_nil origin) then origin_to_days_from_epoch origin
  else Ok (of_Z 0).

(** The tail of the loops, as in distance.c. *)
Definition every_int (needs_every : bool) (every elt : Z) : Z :=
  if negb needs_every then elt
  else if elt <? 0 then idiv (isub elt (isub every 1)) every
  else idiv elt every.

Definition every_int64 (needs_every : bool) (every elt : Z) : Z :=
  if negb needs_every then elt
  else if elt <? 0 then ldiv (lsub elt (isub every 1)) every
  else ldiv elt every.

(** Loop body of [dbl_date_warp_chunk_day]; the result is an [int], the
    missing one for a missing element. *)
Definition dbl_date_warp_chunk_day_elt
    (needs_offset : bool) (origin_offset : double) (needs_every : bool)
    (every : Z) (x_elt : double) : Z :=
  if negb (R_FINITE x_elt) then NA_INTEGER
  else
    let x_elt := if needs_offset then sub x_elt origin_offset else x_elt in
    (* The floor is a guard against potential fractional dates since
       casting always goes towards 0 *)
    let elt :=
      if ltb x_elt (of_Z 0) then to_int (floor x_elt) else to_int x_elt in
    every_int needs_every every elt.

Definition dbl_date_warp_chunk_day (p_x : list double) (every : Z)
    (origin : SEXP) : result (list Z) :=
  let needs_every := negb (every =? 1) in
  let needs_offset := negb (is_nil origin) in
  origin_offset <- day_origin_offset origin ;;
  Ok (map (dbl_date_warp_chunk_day_elt needs_offset origin_offset
             needs_every every) p_x).

(** Loop body of [int_date_warp_chunk_hour] ([HOURS_IN_DAY]) and of
    [int_date_warp_chunk_minute] ([MINUTES_IN_DAY]): the product is an
    [int]; [elt -= origin_offset] goes through [double]. *)
Definition int_date_int_elt (units_in_day : Z)
    (needs_offset : bool) (origin_offset : double) (needs_every : bool)
    (every : Z) (elt : Z) : Z :=
  if elt =? NA_INTEGER then NA_INTEGER
  else
    let elt := imul elt units_in_day in
    let elt :=
      if needs_offset then to_int (sub (of_Z elt) origin_offset) else elt in
    every_int needs_every every elt.

Definition int_date_warp_chunk_hour (p_x : list Z) (every : Z)
    (origin : SEXP) : result (list Z) :=
  let needs_every := negb (every =? 1) in
  let needs_offset := negb (is_nil origin) in
  origin_offset <- scaled_origin_offset HOURS_IN_DAY origin ;;
  Ok (map (int_date_int_elt HOURS_IN_DAY needs_offset origin_offset
             needs_every every) p_x).

Definition int_date_warp_chunk_minute (p_x : list Z) (every : Z)
    (origin : SEXP) : result (list Z) :=
  let needs_every := negb (every =? 1) in
  let needs_offset := negb (is_nil origin) in
  origin_offset <- scaled_origin_offset MINUTES_IN_DAY origin ;;
  Ok (map (int_date_int_elt MINUTES_IN_DAY needs_offset origin_offset
             needs_every every) p_x).

(** Loop body of [int_date_warp_chunk_second]:
    [int64_t elt = x_elt * SECONDS_IN_DAY] multiplies two [int]s and
    converts the product. *)
Definition int_date_warp_chunk_second_elt
    (needs_offset : bool) (origin_offset : double) (needs_every : bool)
    (every : Z) (x_elt : Z) : double :=
  if x_elt =? NA_INTEGER then NA_REAL
  else
    let elt := int64 (imul x_elt SECONDS_IN_DAY) in
    let elt :=
      if needs_offset then to_int64 (sub (of_Z elt) origin_offset) else elt in
    of_Z (every_int64 needs_every every elt).

Definition int_date_warp_chunk_second (p_x : list Z) (every : Z)
    (origin : SEXP) : result (list double) :=
  let needs_every := negb (every =? 1) in
  let needs_offset := negb (is_nil origin) in
  origin_offset <- scaled_origin_offset SECONDS_IN_DAY origin ;;
  Ok (map (int_date_warp_chunk_second_elt needs_offset origin_offset
             needs_every every) p_x).

End WithCollaborators.

(** *** The dispatchers, the remaining loops and the entry points *)

(** [enum timeslide_class_type] and [enum timeslide_chunk_type] of
    timeslide.h, with the values chunk.c names. *)
Inductive timeslide_class_type : Type :=
  | timeslide_class_date
  | timeslide_class_posixct
  | timeslide_class_posixlt
  | timeslide_class_unknown.

Inductive timeslide_chunk_type : Type :=
  | timeslide_chunk_year
  | timeslide_chunk_month
  | timeslide_chunk_day
  | timeslide_chunk_hour
  | timeslide_chunk_minute
  | timeslide_chunk_second.

(** What chunk.c calls and does not define: the functions and constants
    of utils.c in the version chunk.c was written against, and
    [Rf_asInteger] of the R API. *)
Class Utils : Type := {
  time_class_type : SEXP -> timeslide_class_type;
  as_chunk_type : SEXP -> result timeslide_chunk_type;
  get_timezone : SEXP -> string;
  convert_timezone : SEXP -> string -> SEXP;
  strings_year : SEXP;
  strings_year_month : SEXP;
  time_get : SEXP -> SEXP -> SEXP;
  r_maybe_duplicate : SEXP -> SEXP;
  Rf_asInteger : SEXP -> Z
  }.

Section WithUtils.
Context {host : Collaborators} {utils : Utils}.

(** [INTEGER(x)]: the integers of an integer vector, an R error on
    anything else. *)
Definition INTEGER (x : SEXP) : result (list Z) :=
  match x with
  | INTSXP _ v => Ok v
  | _ => Error "INTEGER" "INTEGER() can only be applied to a 'integer'"
  end.

(** **** Helpers (bottom of chunk.c) *)

Definition pull_every (every : SEXP) : result Z :=
  if negb (Rf_length every =? 1) then
    r_error "pull_every" "`every` must have size 1"
  else
    match every with
    | INTSXP _ v => Ok (first_int v)
    | REALSXP _ _ => Ok (Rf_asInteger every)
    | _ => r_error "pull_every" "`every` must be integer-ish"
    end.

Definition validate_origin (origin : SEXP) : result unit :=
  if is_nil origin then Ok tt
  else
    let n_origin := Rf_length origin in
    if negb (n_origin =? 1) then
      r_error "validate_origin" "`origin` must have size 1"
    else
      match time_class_type origin with
      | timeslide_class_unknown =>
          r_error "validate_origin"
            "`origin` must inherit from 'Date', 'POSIXct', or 'POSIXlt'."
      | _ => Ok tt
      end.

Definition origin_to_seconds_from_epoch (origin : SEXP) : result double :=
  v <- REAL (as_datetime origin) ;;
  let out := first_real v in
  if eqb out NA_REAL then
    r_error "origin_to_seconds_from_epoch" "`origin` must not be `NA`."
  else Ok out.

(** [double origin_offset = origin_to_seconds_from_epoch(origin)], read
    only with an origin. *)
Definition seconds_origin_offset (origin : SEXP) : result double :=
  if negb (is_nil origin) then origin_to_seconds_from_epoch origin
  else Ok (of_Z 0).

(** **** Year and month *)

Definition EPOCH_YEAR : Z := 1970.
Definition EPOCH_MONTH : Z := 0.
Definition MONTHS_IN_YEAR : Z := 12.

(** The first statements of [warp_chunk_year]: the year of the origin. *)
Definition warp_chunk_year_origin (origin : SEXP) : result Z :=
  if negb (is_nil origin) then
    let origin_time_df := time_get origin strings_year in
    col <- VECTOR_ELT origin_time_df 0 ;;
    v <- INTEGER col ;;
    let origin_year := first_int v in
    if origin_year =? NA_INTEGER then
      r_error "warp_chunk_year" "`origin` cannot be `NA`."
    else Ok origin_year
  else Ok EPOCH_YEAR.

(** Body of the loop of [warp_chunk_year], which overwrites the years in
    place and leaves a missing one as it is. *)
Definition warp_chunk_year_elt (origin_year : Z) (needs_every : bool)
    (every : Z) (elt : Z) : Z :=
  if elt =? NA_INTEGER then elt
  else
    let elt := isub elt origin_year in
    every_int needs_every every elt.

(** The output is the (possibly copied) year column of [time_get], with
    the attributes it has. *)
Definition warp_chunk_year (x : SEXP) (every : Z) (origin : SEXP)
    : result SEXP :=
  origin_year <- warp_chunk_year_origin origin ;;
  let needs_every := negb (every =? 1) in
  let time_df := time_get x strings_year in
  out <- VECTOR_ELT time_df 0 ;;
  let out := r_maybe_duplicate out in
  match out with
  | INTSXP attrib p_out =>
      Ok (INTSXP attrib
            (map (warp_chunk_year_elt origin_year needs_every every) p_out))
  | _ => Error "INTEGER" "INTEGER() can only be applied to a 'integer'"
  end.

(** The first statements of [warp_chunk_month]: the year and the 0-based
    month of the origin.  The month is read, and 1 subtracted from it,
    before the year is tested. *)
Definition warp_chunk_month_origin (origin : SEXP) : result (Z * Z) :=
  if negb (is_nil origin) then
    let origin_time_df := time_get origin strings_year_month in
    col <- VECTOR_ELT origin_time_df 0 ;;
    v <- INTEGER col ;;
    let origin_year := first_int v in
    col <- VECTOR_ELT origin_time_df 1 ;;
    v <- INTEGER col ;;
    let origin_month := isub (first_int v) 1 in
    if origin_year =? NA_INTEGER then
      r_error "warp_chunk_month" "`origin` cannot be `NA`."
    else Ok (origin_year, origin_month)
  else Ok (EPOCH_YEAR, EPOCH_MONTH).

Definition warp_chunk_month_elt (origin_year origin_month : Z)
    (needs_every : bool) (every : Z) (elt_year p_month_i : Z) : Z :=
  let elt_month := isub p_month_i 1 in
  if elt_year =? NA_INTEGER then NA_INTEGER
  else
    let elt :=
      iadd (imul (isub elt_year origin_year) MONTHS_IN_YEAR)
           (isub elt_month origin_month) in
    every_int needs_every every elt.

(** The loop runs over the length of the year column and reads the month
    column at the same index (a read past its end is undefined in C; the
    model reads [NA_INTEGER] there). *)
Definition warp_chunk_month (x : SEXP) (every : Z) (origin : SEXP)
    : result SEXP :=
  o <- warp_chunk_month_origin origin ;;
  let '(origin_year, origin_month) := o in
  let needs_every := negb (every =? 1) in
  let time_df := time_get x strings_year_month in
  year <- VECTOR_ELT time_df 0 ;;
  month <- VECTOR_ELT time_df 1 ;;
  p_year <- INTEGER year ;;
  p_month <- INTEGER month ;;
  Ok (INTSXP []
        (map (fun i =>
                warp_chunk_month_elt origin_year origin_month needs_every every
                  (nth i p_year NA_INTEGER) (nth i p_month NA_INTEGER))
             (seq 0 (List.length p_year)))).

(** **** Day *)

(** Body of the loop of [int_date_warp_chunk_day], which overwrites the
    day counts in place; [elt -= origin_offset] goes through [double]. *)
Definition int_date_warp_chunk_day_elt
    (needs_offset : bool) (origin_offset : double) (needs_every : bool)
    (every : Z) (elt : Z) : Z :=
  if elt =? NA_INTEGER then elt
  else
    let elt :=
      if needs_offset then to_int (sub (of_Z elt) origin_offset) else elt in
    every_int needs_every every elt.

(** [int_date_warp_chunk_day] on the integers of its (possibly copied)
    argument, whose attributes it drops. *)
Definition int_date_warp_chunk_day_values (p_out : list Z) (every : Z)
    (origin : SEXP) : result (list Z) :=
  let needs_every := negb (every =? 1) in
  let needs_offset := negb (is_nil origin) in
  (* Early exit if no changes are required, the raw `day` is enough *)
  if negb needs_every && negb needs_offset then Ok p_out
  else
    origin_offset <- day_origin_offset origin ;;
    Ok (map (int_date_warp_chunk_day_elt needs_offset origin_offset
               needs_every every) p_out).

Definition int_date_warp_chunk_day (x : SEXP) (every : Z) (origin : SEXP)
    : result SEXP :=
  let out := r_maybe_duplicate x in
  p_out <- INTEGER out ;;
  v <- int_date_warp_chunk_day_values p_out every origin ;;
  Ok (INTSXP [] v).

Definition SECONDS_IN_HOUR : Z := 3600.
Definition SECONDS_IN_MINUTE : Z := 60.

(** Body of the loops of [int_posixct_warp_chunk_day] ([SECONDS_IN_DAY]),
    [int_posixct_warp_chunk_hour] ([SECONDS_IN_HOUR]) and
    [int_posixct_warp_chunk_minute] ([SECONDS_IN_MINUTE]). *)
Definition int_posixct_unit_elt (seconds_in_unit : Z)
    (needs_offset : bool) (origin_offset : double) (needs_every : bool)
    (every : Z) (elt : Z) : Z :=
  if elt =? NA_INTEGER then NA_INTEGER
  else
    let elt :=
      if needs_offset then to_int (sub (of_Z elt) origin_offset) else elt in
    (* Integer division, then straight into `elt` with no cast needed *)
    let elt :=
      if elt <? 0 then
        idiv (isub elt (isub seconds_in_unit 1)) seconds_in_unit
      else idiv elt seconds_in_unit in
    every_int needs_every every elt.

(** Body of the loops of [dbl_posixct_warp_chunk_day],
    [dbl_posixct_warp_chunk_hour] and [dbl_posixct_warp_chunk_minute]. *)
Definition dbl_posixct_unit_elt (seconds_in_unit : Z)
    (needs_offset : bool) (origin_offset : double) (needs_every : bool)
    (every : Z) (x_elt : double) : Z :=
  if negb (R_FINITE x_elt) then NA_INTEGER
  else
    let x_elt := if needs_offset then sub x_elt origin_offset else x_elt in
    (* Double division, then integer cast into `elt` *)
    let elt :=
      if ltb x_elt (of_Z 0) then
        to_int (div (sub (floor x_elt) (of_Z (isub seconds_in_unit 1)))
                    (of_Z seconds_in_unit))
      else to_int (div x_elt (of_Z seconds_in_unit)) in
    every_int needs_every every elt.

Definition int_posixct_unit (seconds_in_unit : Z) (p_x : list Z)
    (every : Z) (origin : SEXP) : result (list Z) :=
  let needs_every := negb (every =? 1) in
  let needs_offset := negb (is_nil origin) in
  origin_offset <- seconds_origin_offset origin ;;
  Ok (map (int_posixct_unit_elt seconds_in_unit needs_offset origin_offset
             needs_every every) p_x).

Definition dbl_posixct_unit (seconds_in_unit : Z) (p_x : list double)
    (every : Z) (origin : SEXP) : result (list Z) :=
  let needs_every := negb (every =? 1) in
  let needs_offset := negb (is_nil origin) in
  origin_offset <- seconds_origin_offset origin ;;
  Ok (map (dbl_posixct_unit_elt seconds_in_unit needs_offset origin_offset
             needs_every every) p_x).

Definition int_posixct_warp_chunk_day := int_posixct_unit SECONDS_IN_DAY.
Definition dbl_posixct_warp_chunk_day := dbl_posixct_unit SECONDS_IN_DAY.

(** **** Hour and minute *)

(** Body of the loops of [dbl_date_warp_chunk_hour] ([HOURS_IN_DAY]) and
    [dbl_date_warp_chunk_minute] ([MINUTES_IN_DAY]). *)
Definition dbl_date_int_elt (units_in_day : Z)
    (needs_offset : bool) (origin_offset : double) (needs_every : bool)
    (every : Z) (x_elt : double) : Z :=
  if negb (R_FINITE x_elt) then NA_INTEGER
  else
    let x_elt := mul x_elt (of_Z units_in_day) in
    let x_elt := if needs_offset then sub x_elt origin_offset else x_elt in
    (* Automatic integer cast into `elt` *)
    let elt :=
      if ltb x_elt (of_Z 0) then to_int (floor x_elt) else to_int x_elt in
    every_int needs_every every elt.

Definition dbl_date_warp_chunk_hour (p_x : list double) (every : Z)
    (origin : SEXP) : result (list Z) :=
  let needs_every := negb (every =? 1) in
  let needs_offset := negb (is_nil origin) in
  origin_offset <- scaled_origin_offset HOURS_IN_DAY origin ;;
  Ok (map (dbl_date_int_elt HOURS_IN_DAY needs_offset origin_offset
             needs_every every) p_x).

Definition dbl_date_warp_chunk_minute (p_x : list double) (every : Z)
    (origin : SEXP) : result (list Z) :=
  let needs_every := negb (every =? 1) in
  let needs_offset := negb (is_nil origin) in
  origin_offset <- scaled_origin_offset MINUTES_IN_DAY origin ;;
  Ok (map (dbl_date_int_elt MINUTES_IN_DAY needs_offset origin_offset
             needs_every every) p_x).

Definition int_posixct_warp_chunk_hour := int_posixct_unit SECONDS_IN_HOUR.
Definition dbl_posixct_warp_chunk_hour := dbl_posixct_unit SECONDS_IN_HOUR.
Definition int_posixct_warp_chunk_minute := int_posixct_unit SECONDS_IN_MINUTE.
Definition dbl_posixct_warp_chunk_minute := dbl_posixct_unit SECONDS_IN_MINUTE.

(** **** Second: the output is a double vector *)

Definition dbl_date_warp_chunk_second_elt
    (needs_offset : bool) (origin_offset : double) (needs_every : bool)
    (every : Z) (x_elt : double) : double :=
  if negb (R_FINITE x_elt) then NA_REAL
  else
    let x_elt := mul x_elt (of_Z SECONDS_IN_DAY) in
    let x_elt := if needs_offset then sub x_elt origin_offset else x_elt in
    (* Always floor, whether negative or positive *)
    let elt := to_int64 (floor x_elt) in
    of_Z (every_int64 needs_every every elt).

Definition dbl_date_warp_chunk_second (p_x : list double) (every : Z)
    (origin : SEXP) : result (list double) :=
  let needs_every := negb (every =? 1) in
  let needs_offset := negb (is_nil origin) in
  origin_offset <- scaled_origin_offset SECONDS_IN_DAY origin ;;
  Ok (map (dbl_date_warp_chunk_second_elt needs_offset origin_offset
             needs_every every) p_x).

Definition int_posixct_warp_chunk_second_elt
    (needs_offset : bool) (origin_offset : double) (needs_every : bool)
    (every : Z) (x_elt : Z) : double :=
  if x_elt =? NA_INTEGER then NA_REAL
  else
    (* Convert to `int64_t` in case `elt -= origin_offset` goes OOB *)
    let elt := int64 x_elt in
    let elt :=
      if needs_offset then to_int64 (sub (of_Z elt) origin_offset) else elt in
    of_Z (every_int64 needs_every every elt).

Definition int_posixct_warp_chunk_second (p_x : list Z) (every : Z)
    (origin : SEXP) : result (list double) :=
  let needs_every := negb (every =? 1) in
  let needs_offset := negb (is_nil origin) in
  origin_offset <- seconds_origin_offset origin ;;
  Ok (map (int_posixct_warp_chunk_second_elt needs_offset origin_offset
             needs_every every) p_x).

Definition dbl_posixct_warp_chunk_second_elt
    (needs_offset : bool) (origin_offset : double) (needs_every : bool)
    (every : Z) (x_elt : double) : double :=
  if negb (R_FINITE x_elt) then NA_REAL
  else
    let x_elt := if needs_offset then sub x_elt origin_offset else x_elt in
    (* Always floor() to get rid of fractional seconds *)
    let elt := to_int64 (floor x_elt) in
    of_Z (every_int64 needs_every every elt).

Definition dbl_posixct_warp_chunk_second (p_x : list double) (every : Z)
    (origin : SEXP) : result (list double) :=
  let needs_every := negb (every =? 1) in
  let needs_offset := negb (is_nil origin) in
  origin_offset <- seconds_origin_offset origin ;;
  Ok (map (dbl_posixct_warp_chunk_second_elt needs_offset origin_offset
             needs_every every) p_x).

(** **** Dispatch on the class of [x] and on its storage *)

(** [switch (TYPEOF(x))] of the [date_...] and [posixct_...] functions
    whose loops allocate an integer output, and of those whose loops
    allocate a double output. *)
Definition by_storage_int (fn : string)
    (on_int : list Z -> Z -> SEXP -> result (list Z))
    (on_dbl : list double -> Z -> SEXP -> result (list Z))
    (x : SEXP) (every : Z) (origin : SEXP) : result SEXP :=
  match x with
  | INTSXP _ p_x => v <- on_int p_x every origin ;; Ok (INTSXP [] v)
  | REALSXP _ p_x => v <- on_dbl p_x every origin ;; Ok (INTSXP [] v)
  | _ => r_error fn "Unknown type."
  end.

Definition by_storage_dbl (fn : string)
    (on_int : list Z -> Z -> SEXP -> result (list double))
    (on_dbl : list double -> Z -> SEXP -> result (list double))
    (x : SEXP) (every : Z) (origin : SEXP) : result SEXP :=
  match x with
  | INTSXP _ p_x => v <- on_int p_x every origin ;; Ok (REALSXP [] v)
  | REALSXP _ p_x => v <- on_dbl p_x every origin ;; Ok (REALSXP [] v)
  | _ => r_error fn "Unknown type."
  end.

(** [switch (time_class_type(x))] of the [warp_chunk_...] functions; a
    POSIXlt goes through [as_datetime] to the POSIXct branch. *)
Definition by_class (fn : string)
    (on_date on_posixct : SEXP -> Z -> SEXP -> result SEXP)
    (x : SEXP) (every : Z) (origin : SEXP) : result SEXP :=
  match time_class_type x with
  | timeslide_class_date => on_date x every origin
  | timeslide_class_posixct => on_posixct x every origin
  | timeslide_class_posixlt => on_posixct (as_datetime x) every origin
  | timeslide_class_unknown => r_error fn "Unknown object."
  end.

Definition date_warp_chunk_day (x : SEXP) (every : Z) (origin : SEXP)
    : result SEXP :=
  match x with
  | INTSXP _ _ => int_date_warp_chunk_day x every origin
  | REALSXP _ p_x =>
      v <- dbl_date_warp_chunk_day p_x every origin ;; Ok (INTSXP [] v)
  | _ => r_error "date_warp_chunk_day" "Unknown `Date` type."
  end.
Definition posixct_warp_chunk_day :=
  by_storage_int "posixct_warp_chunk_day"
    int_posixct_warp_chunk_day dbl_posixct_warp_chunk_day.
Definition warp_chunk_day :=
  by_class "warp_chunk_day" date_warp_chunk_day posixct_warp_chunk_day.

Definition date_warp_chunk_hour :=
  by_storage_int "date_warp_chunk_hour"
    int_date_warp_chunk_hour dbl_date_warp_chunk_hour.
Definition posixct_warp_chunk_hour :=
  by_storage_int "posixct_warp_chunk_hour"
    int_posixct_warp_chunk_hour dbl_posixct_warp_chunk_hour.
Definition warp_chunk_hour :=
  by_class "warp_chunk_hour" date_warp_chunk_hour posixct_warp_chunk_hour.

Definition date_warp_chunk_minute :=
  by_storage_int "date_warp_chunk_minute"
    int_date_warp_chunk_minute dbl_date_warp_chunk_minute.
Definition posixct_warp_chunk_minute :=
  by_storage_int "posixct_warp_chunk_minute"
    int_posixct_warp_chunk_minute dbl_posixct_warp_chunk_minute.
Definition warp_chunk_minute :=
  by_class "warp_chunk_minute"
    date_warp_chunk_minute posixct_warp_chunk_minute.

Definition date_warp_chunk_second :=
  by_storage_dbl "date_warp_chunk_second"
    int_date_warp_chunk_second dbl_date_warp_chunk_second.
Definition posixct_warp_chunk_second :=
  by_storage_dbl "posixct_warp_chunk_second"
    int_posixct_warp_chunk_second dbl_posixct_warp_chunk_second.
Definition warp_chunk_second :=
  by_class "warp_chunk_second"
    date_warp_chunk_second posixct_warp_chunk_second.

(** **** Entry points *)

Definition warp_chunk (x : SEXP) (type : timeslide_chunk_type) (every : Z)
    (origin : SEXP) : result SEXP :=
  validate_origin origin ;;;
  validate_every every ;;;
  match time_class_type x with
  | timeslide_class_unknown =>
      r_error "warp_chunk"
        "`x` must inherit from 'Date', 'POSIXct', or 'POSIXlt'."
  | _ =>
      let origin_timezone := get_timezone origin in
      let x := convert_timezone x origin_timezone in
      match type with
      | timeslide_chunk_year => warp_chunk_year x every origin
      | timeslide_chunk_month => warp_chunk_month x every origin
      | timeslide_chunk_day => warp_chunk_day x every origin
      | timeslide_chunk_hour => warp_chunk_hour x every origin
      | timeslide_chunk_minute => warp_chunk_minute x every origin
      | timeslide_chunk_second => warp_chunk_second x every origin
      end
  end.

Definition timeslide_warp_chunk (x by_ every origin : SEXP) : result SEXP :=
  type <- as_chunk_type by_ ;;
  every_ <- pull_every every ;;
  warp_chunk x type every_ origin.

End WithUtils.

End Chunk.

(* ================================================================== *)
(** ** ranges.c *)

Module Ranges.

Section WithCollaborators.
Context {host : Collaborators}.

(** The data frame [new_ranges_df] allocates: the columns named "start"
    and "stop", and the compact row names [new_row_name_info] writes. *)
Record ranges_df : Type := {
  start : list double;
  stop : list double;
  row_names : Z * Z
}.

Definition new_row_name_info (size : Z) : Z * Z :=
  (NA_INTEGER, isub 0 size).

(** [p_x[i - 1]] is read for [i < size]; with [size] the length of [x]
    the read is in range (elsewhere the model reads [NA_REAL]). *)
Definition compute_starts (p_x : list double) (size : nat) : list double :=
  match size with
  | O => []
  | S O => [of_Z 1]
  | S n =>
      of_Z 1 :: map (fun i => add (nth (i - 1) p_x NA_REAL) (of_Z 1)) (seq 1 n)
  end.

Definition warp_ranges (x : SEXP) : ranges_df :=
  let stops := warp_changes x in
  let size := List.length stops in
  {| start := compute_starts stops size;
     stop := stops;
     row_names := new_row_name_info (Z.of_nat size) |}.

End WithCollaborators.

End Ranges.

(* ================================================================== *)
(** * What the specification states *)

(** ** Quotients and scaling *)

Definition floor_quotient (a b q : Z) : Prop :=
  exists r, a = q * b + r /\ 0 <= r < b.

(** The value the engine divides: the offset, less the origin when there
    is one. *)
Definition shifted (needs_offset : bool) (origin_offset elt : Z) : Z :=
  if needs_offset then elt - origin_offset else elt.

(** [every = k] against [every = 1] on one slot: both missing, or the
    bucket for [k] is the floored quotient by [k] of the bucket for 1. *)
Definition scaled (k : Z) (bucket_1 bucket_k : option Z) : Prop :=
  match bucket_1, bucket_k with
  | None, None => True
  | Some u, Some q => q = floor_div u k
  | _, _ => False
  end.

(** The sign test of the tail is defined on the bucket [u] of [every = 1]
    when [u - (k - 1)] is not below the least value [lo] of the type. *)
Definition tail_defined (lo k : Z) (bucket_1 : option Z) : Prop :=
  match bucket_1 with
  | Some u => lo <= u - (k - 1)
  | None => True
  end.

(** The buckets of the quarter and week loops, which are the month and day
    loops run with [every * 3] and [every * 7]. *)
Definition multiple_bucket (c : Z) (needs_offset : bool) (origin_offset : Z)
    (every elt : Z) : option Z :=
  Distance.offset_distance_bucket needs_offset origin_offset
    (negb (imul every c =? 1)) (imul every c) elt.

(** A loop body [f], as a function of [needs_every] and [every], scales:
    where its tail is defined, its bucket for [every = k] is the floored
    quotient by [k] of its bucket for [every = 1]. *)
Definition every_scaling (lo k : Z) (f : bool -> Z -> option Z) : Prop :=
  tail_defined lo k (f false 1) ->
  scaled k (f false 1) (f (negb (k =? 1)) k).

(** 1971-01-01, as the year 71 and the day 0 of a POSIXlt, against the
    origin 1970-01-01. *)
Definition origin_1970_01_01 : warp_yday_components :=
  {| origin_year_offset := 0; origin_yday := 0 |}.

Definition yday_bucket_1971_01_01 (every : Z) : option Z :=
  Distance.posixlt_warp_distance_yday_bucket
    (Distance.yday_setup_of every origin_1970_01_01) every 71 0.

(** ** The guarded conversion, step by step *)

(** The conversion as the specification words it, one step after the
    other. *)
Module GuardedSpec.

Definition scale_to_microseconds (x : double) : double := mul x lit_1e6.
Definition truncate_toward_zero (x : double) : double := trunc x.
Definition scale_to_seconds (x : double) : double := mul x lit_1em6.
Definition add_guard (x : double) : double := add x lit_1em7.
Definition scale_to_milliseconds (x : double) : double := mul x lit_1e3.
Definition apply_floor (x : double) : double := floor x.
Definition cast_to_int64 (x : double) : Z := to_int64 x.

Definition guarded (x : double) : double :=
  add_guard (scale_to_seconds (truncate_toward_zero (scale_to_microseconds x))).

Definition to_second (x : double) : Z :=
  cast_to_int64 (apply_floor (guarded x)).

Definition to_millisecond (x : double) : Z :=
  cast_to_int64 (apply_floor (scale_to_milliseconds (guarded x))).

End GuardedSpec.

(** The double nearest to -0.002, and the double R reads from
    "1969-12-31 23:59:59.998" (printed -0.002000000000002444 in
    distance.c). *)
Definition nearest_minus_2ms : double := div (of_Z (-2)) (of_Z 1000).
Definition parsed_minus_2ms : double := S754_finite true 4611686018433024 (-61).

(** The Date -1.5: noon of 1969-12-30. *)
Definition minus_one_and_a_half : double := div (of_Z (-3)) (of_Z 2).

(** ** The year-day bucket *)

(** The leap compensation as the specification states it, on unbounded
    integers with the floored division [/] of [Z]. *)
Module YdaySpec.

Definition is_leap (Y : Z) : bool :=
  ((Y mod 4 =? 0) && negb (Y mod 100 =? 0)) || (Y mod 400 =? 0).

Definition days_before_year (year_offset : Z) : Z :=
  let Y := year_offset + 1970 in
  365 * (Y - 1) + (Y - 1) / 4 - (Y - 1) / 100 + (Y - 1) / 400 - 719162.

Definition leap_years_before_and_including_year (year_offset : Z) : Z :=
  let y := year_offset + 1970 in
  y / 4 - y / 100 + y / 400 - 477.

Definition Delta (year_offset yday : Z) (origin_is_leap : bool) : Z :=
  let year_is_leap := is_leap (year_offset + 1970) in
  if yday <? 58 then 0
  else if Bool.eqb origin_is_leap year_is_leap then 0
  else if origin_is_leap && negb year_is_leap then -1
  else 1.

Definition units_per_leap_year (every : Z) : Z := (366 - 1) / every + 1.
Definition units_per_non_leap_year (every : Z) : Z := (365 - 1) / every + 1.

Section Element.
Variables days_since_epoch year_offset yday : Z.
Variables origin_year_offset origin_yday every : Z.

Definition origin_is_leap : bool := is_leap (origin_year_offset + 1970).

Definition origin_yday_adjusted : Z :=
  origin_yday + Delta year_offset yday origin_is_leap.

Definition last_origin_year_offset : Z :=
  year_offset - (if yday <? origin_yday_adjusted then 1 else 0).

Definition last_origin_day : Z :=
  days_before_year last_origin_year_offset + origin_yday
  + Delta last_origin_year_offset origin_yday origin_is_leap.

Definition days_since_last_origin : Z := days_since_epoch - last_origin_day.

Definition units_in_year : Z := days_since_last_origin / every.

Definition years_between : Z := last_origin_year_offset - origin_year_offset.

Definition leap_years_between : Z :=
  leap_years_before_and_including_year last_origin_year_offset
  - leap_years_before_and_including_year origin_year_offset.

Definition units_between : Z :=
  units_per_leap_year every * leap_years_between
  + units_per_non_leap_year every * (years_between - leap_years_between).

Definition bucket : Z := units_between + units_in_year.
End Element.

End YdaySpec.

(** ** Missing slots and integer outputs *)










(** The output of a call, empty when the call raises an error. *)
Definition outputs (r : result (list double)) : list double :=
  match r with
  | Ok out => out
  | Error _ _ => []
  end.

(** A double that is the conversion of an integer of [lo .. hi] and has no
    fractional part. *)
Definition widened (lo hi : Z) (d : double) : Prop :=
  exists q, lo <= q <= hi /\ d = of_Z q /\ integer_valued d = true.

(** A double that holds exactly the integer it was converted from. *)
Definition holds_exactly (d : double) : Prop :=
  exists q, d = of_Z q /\ trunc_Z d = Some q.

(** A slot of a 32-bit loop: missing, or the conversion of an [int], which
    the double holds exactly.  A slot of a 64-bit loop: missing, or the
    conversion of an [int64_t]. *)
Definition int_slot (d : double) : Prop :=
  is_nan d = true \/ (widened INT_MIN INT_MAX d /\ holds_exactly d).

Definition int64_slot (d : double) : Prop :=
  is_nan d = true \/ widened INT64_MIN INT64_MAX d.

(** A bucket that a double holds exactly: a missing one, or an integer
    below [2^53] in magnitude. *)
Definition exact_bucket (b : option Z) : Prop :=
  match b with
  | Some q => - 2 ^ 53 < q < 2 ^ 53
  | None => True
  end.

(* ================================================================== *)
(** ** A host for the examples *)

(** Modelled from the spec: the collaborators of utils.c, date.c and
    changes.c, which are not among the embedded files, for objects in UTC.
    Classes are read from the class attribute; the calendar is the one of
    section 4.2 ([days_before_year] and its inverse); a Date is a day
    count, a POSIXct a second count, a POSIXlt the list of its nine
    fields; time-zone conversion does nothing.  The examples, witnesses
    and counterexamples below run the embedded functions on this host; the
    theorems on all hosts do not depend on it. *)
Module UtcHost.

Definition class_of (x : SEXP) : list string :=
  match x with
  | R_NilValue => []
  | INTSXP c _ | REALSXP c _ | VECSXP c _ | OTHERSXP c _ => c
  end.

Definition inherits (x : SEXP) (what : string) : bool :=
  existsb (String.eqb what) (class_of x).

Definition time_class_type (x : SEXP) : warp_class_type :=
  if inherits x "Date" then warp_class_date
  else if inherits x "POSIXct" then warp_class_posixct
  else if inherits x "POSIXlt" then warp_class_posixlt
  else warp_class_unknown.

(** The year of a day: the year offset [y] with
    [days_before_year y <= d < days_before_year (y + 1)], one of the three
    candidates around the quotient by the mean length of a year. *)
Definition year_offset_of_day (d : Z) : Z :=
  let y0 := (d * 400) / 146097 in
  if YdaySpec.days_before_year (y0 + 1) <=? d then y0 + 1
  else if YdaySpec.days_before_year y0 <=? d then y0
  else y0 - 1.

Definition month_lengths (leap : bool) : list Z :=
  [31; if leap then 29 else 28; 31; 30; 31; 30; 31; 31; 30; 31; 30; 31].

Fixpoint month_and_day (lengths : list Z) (month yday : Z) : Z * Z :=
  match lengths with
  | [] => (month, yday + 1)
  | n :: rest =>
      if yday <? n then (month, yday + 1)
      else month_and_day rest (month + 1) (yday - n)
  end.

Definition convert_days_to_components (d : Z) : warp_components :=
  let y := year_offset_of_day d in
  let yd := d - YdaySpec.days_before_year y in
  let md := month_and_day (month_lengths (YdaySpec.is_leap (y + 1970))) 0 yd in
  {| year_offset := y; month := fst md; day := snd md; yday := yd |}.

(** Seconds of the fields of a POSIXlt (sec, min, hour, ..., year, ...,
    yday); a missing year makes the element missing. *)
Definition lt_field (x : SEXP) (i : nat) : list Z :=
  match x with
  | VECSXP _ fields =>
      match nth_error fields i with
      | Some (INTSXP _ v) => v
      | Some (REALSXP _ v) =>
          map (fun d => if R_FINITE d then to_int (floor d) else NA_INTEGER) v
      | _ => []
      end
  | _ => []
  end.

Definition lt_seconds (x : SEXP) : list Z :=
  map (fun i =>
         let year := nth i (lt_field x 5) NA_INTEGER in
         if year =? NA_INTEGER then NA_INTEGER
         else (YdaySpec.days_before_year (year - 70)
               + nth i (lt_field x 7) 0) * 86400
              + nth i (lt_field x 2) 0 * 3600
              + nth i (lt_field x 1) 0 * 60
              + nth i (lt_field x 0) 0)
      (seq 0 (List.length (lt_field x 5))).

(** Whole seconds since the epoch, [NA_INTEGER] for a missing element. *)
Definition seconds_of (x : SEXP) : list Z :=
  match time_class_type x, x with
  | warp_class_date, INTSXP _ v =>
      map (fun d => if d =? NA_INTEGER then NA_INTEGER else d * 86400) v
  | warp_class_date, REALSXP _ v =>
      map (fun d => if R_FINITE d then to_int (floor d) * 86400
                    else NA_INTEGER) v
  | warp_class_posixct, INTSXP _ v => v
  | warp_class_posixct, REALSXP _ v =>
      map (fun d => if R_FINITE d then to_int64 (floor d) else NA_INTEGER) v
  | warp_class_posixlt, _ => lt_seconds x
  | _, _ => []
  end.

(** Days since the epoch, rounding toward minus infinity. *)
Definition days_of (x : SEXP) : list Z :=
  map (fun s => if s =? NA_INTEGER then NA_INTEGER else s / 86400)
      (seconds_of x).

Definition on_present (f : Z -> Z) (d : Z) : Z :=
  if d =? NA_INTEGER then NA_INTEGER else f d.

Definition get_year_offset (x : SEXP) : list Z :=
  map (on_present (fun d => year_offset (convert_days_to_components d)))
      (days_of x).

Definition get_month_offset (x : SEXP) : list Z :=
  map (on_present (fun d =>
         let c := convert_days_to_components d in
         year_offset c * 12 + month c))
      (days_of x).

Definition get_day_offset (x : SEXP) : list Z := days_of x.

Definition get_origin_yday_components (origin : SEXP) : warp_yday_components :=
  let c := convert_days_to_components (hd 0 (days_of origin)) in
  {| origin_year_offset := year_offset c; origin_yday := yday c |}.

Definition real_of (v : list Z) : list double :=
  map (fun z => if z =? NA_INTEGER then NA_REAL else of_Z z) v.

Definition as_date (x : SEXP) : SEXP :=
  match time_class_type x, x with
  | warp_class_date, REALSXP _ _ => x
  | _, _ => REALSXP ["Date"%string] (real_of (days_of x))
  end.

Definition as_datetime (x : SEXP) : SEXP :=
  match time_class_type x, x with
  | warp_class_posixct, _ => x
  | _, _ => REALSXP ["POSIXct"%string; "POSIXt"%string] (real_of (seconds_of x))
  end.

Definition as_posixlt_from_posixct (x : SEXP) : SEXP :=
  let s := seconds_of x in
  let of_day f := map (on_present (fun s => f (s / 86400))) s in
  let of_sec f := map (on_present (fun s => f (s mod 86400))) s in
  let comp f := of_day (fun d => f (convert_days_to_components d)) in
  VECSXP ["POSIXlt"%string; "POSIXt"%string]
    [ INTSXP [] (of_sec (fun r => r mod 60));
      INTSXP [] (of_sec (fun r => (r / 60) mod 60));
      INTSXP [] (of_sec (fun r => r / 3600));
      INTSXP [] (comp day);
      INTSXP [] (comp month);
      INTSXP [] (comp (fun c => year_offset c + 70));
      INTSXP [] (of_day (fun d => (d + 4) mod 7));
      INTSXP [] (comp yday);
      INTSXP [] (map (on_present (fun _ => 0)) s) ].

Definition get_origin_epoch_in_time_zone (x : SEXP) : SEXP :=
  REALSXP ["POSIXct"%string; "POSIXt"%string] [of_Z 0].

Definition convert_time_zone (x origin : SEXP) : SEXP := x.

(** The change detector of section 4.8, on a vector of bucket numbers: the
    positions, from 1, of the last element of each run of equal values. *)
Fixpoint changes_from (pos : Z) (v : list double) : list double :=
  match v with
  | [] => []
  | a :: rest =>
      match rest with
      | [] => [of_Z pos]
      | b :: _ =>
          if eqb a b then changes_from (pos + 1) rest
          else of_Z pos :: changes_from (pos + 1) rest
      end
  end.

Definition warp_changes (x : SEXP) : list double :=
  match x with
  | REALSXP _ v => changes_from 1 v
  | INTSXP _ v => changes_from 1 (real_of v)
  | _ => []
  end.

Definition host : Collaborators :=
  Build_Collaborators
    time_class_type get_origin_epoch_in_time_zone convert_time_zone
    get_year_offset get_month_offset get_day_offset
    as_posixlt_from_posixct get_origin_yday_components
    convert_days_to_components as_date as_datetime warp_changes.

End UtcHost.

(** The objects of the examples. *)
Module Examples.

Local Open Scope string_scope.

Definition Date (days : list Z) : SEXP := INTSXP ["Date"] days.
Definition DateReal (days : list double) : SEXP := REALSXP ["Date"] days.
Definition POSIXct (seconds : list double) : SEXP :=
  REALSXP ["POSIXct"; "POSIXt"] seconds.

Definition distance (x : SEXP) (type : warp_period_type) (every : Z)
    (origin : SEXP) : result (list double) :=
  Distance.warp_distance (host := UtcHost.host) x type every origin.

Definition buckets (q : list Z) : result (list double) := Ok (map of_Z q).

Definition epoch : SEXP := Date [0].

End Examples.

(* ================================================================== *)
(** ** Notions of the further properties *)

(** A day count that an integer Date can hold and that is not the missing
    one. *)
Definition present_day (d : Z) : Prop := in_int d /\ d <> NA_INTEGER.

(** The start of each range, on integers: the first range starts at
    [first], the next one right after the stop [q] of the one before. *)
Fixpoint starts_from (first : Z) (qs : list Z) : list Z :=
  match qs with
  | [] => []
  | q :: rest => first :: starts_from (q + 1) rest
  end.


(** Where a remainder [rem] below [unit] lies: the location that the
    rounding of [SpecFloat] keeps of the bits it shifts out. *)
Definition loc_of (rem unit : Z) : location :=
  if rem =? 0 then loc_Exact else loc_Inexact (2 * rem ?= unit).

(** Modelled from the spec: the functions of utils.c that chunk.c calls,
    for objects in UTC, beside [UtcHost].  [time_get] returns the calendar
    year and the month (from 1) of each element; the period name is not
    part of [SEXP], and every vector of length 1 is read as "day".  Only
    the witnesses below run on it. *)
Module UtcUtils.

Import UtcHost.

Definition time_class_type (x : SEXP) : Chunk.timeslide_class_type :=
  match UtcHost.time_class_type x with
  | warp_class_date => Chunk.timeslide_class_date
  | warp_class_posixct => Chunk.timeslide_class_posixct
  | warp_class_posixlt => Chunk.timeslide_class_posixlt
  | warp_class_unknown => Chunk.timeslide_class_unknown
  end.

Definition as_chunk_type (by_ : SEXP) : result Chunk.timeslide_chunk_type :=
  if Rf_length by_ =? 1 then Ok Chunk.timeslide_chunk_day
  else Error "as_chunk_type" "`by` must be a single string.".

Definition get_timezone (x : SEXP) : string := "UTC".

Definition convert_timezone (x : SEXP) (timezone : string) : SEXP := x.

Definition time_get (x strings : SEXP) : SEXP :=
  let component f :=
    INTSXP [] (map (on_present (fun d => f (convert_days_to_components d)))
                   (days_of x)) in
  VECSXP ["data.frame"%string]
    [ component (fun c => year_offset c + 1970);
      component (fun c => month c + 1) ].

Definition Rf_asInteger (x : SEXP) : Z :=
  match x with
  | INTSXP _ (n :: _) => n
  | REALSXP _ (d :: _) => if R_FINITE d then to_int d else NA_INTEGER
  | _ => NA_INTEGER
  end.

Definition utils : Chunk.Utils :=
  Chunk.Build_Utils
    time_class_type as_chunk_type get_timezone convert_timezone
    (OTHERSXP [] 1) (OTHERSXP [] 2) time_get (fun x => x) Rf_asInteger.

End UtcUtils.

(* ================================================================== *)
(** * Properties *)

Ltac unfold_bounds :=
  unfold in_int, in_int64, INT_MIN, INT_MAX, INT64_MIN, INT64_MAX in *;
  change (2 ^ 31) with 2147483648 in *;
  change (2 ^ 63) with 9223372036854775808 in *.

(** ** Wrap-around and floored division *)


Section Arithmetic.

Lemma int_small (z : Z) : in_int z -> int z = z.
Proof.
  unfold in_int, INT_MIN, INT_MAX, int, wrap. intros H.
  change (2 ^ (32 - 1)) with 2147483648.
  change (2 ^ 32) with 4294967296.
  change (2 ^ 31) with 2147483648 in H.
  rewrite Z.mod_small; lia.
Qed.

Lemma int64_small (z : Z) : in_int64 z -> int64 z = z.
Proof.
  unfold in_int64, INT64_MIN, INT64_MAX, int64, wrap. intros H.
  change (2 ^ (64 - 1)) with 9223372036854775808.
  change (2 ^ 64) with 18446744073709551616.
  change (2 ^ 63) with 9223372036854775808 in H.
  rewrite Z.mod_small; lia.
Qed.

Lemma int_range (z : Z) : in_int (int z).
Proof.
  unfold in_int, INT_MIN, INT_MAX, int, wrap.
  change (2 ^ (32 - 1)) with 2147483648.
  change (2 ^ 32) with 4294967296.
  change (2 ^ 31) with 2147483648.
  pose proof (Z.mod_pos_bound (z + 2147483648) 4294967296). lia.
Qed.

Lemma int64_range (z : Z) : in_int64 (int64 z).
Proof.
  unfold in_int64, INT64_MIN, INT64_MAX, int64, wrap.
  change (2 ^ (64 - 1)) with 9223372036854775808.
  change (2 ^ 64) with 18446744073709551616.
  change (2 ^ 63) with 9223372036854775808.
  pose proof (Z.mod_pos_bound (z + 9223372036854775808) 18446744073709551616).
  lia.
Qed.

Lemma in_int_in_int64 (z : Z) : in_int z -> in_int64 z.
Proof.
  unfold in_int, in_int64, INT_MIN, INT_MAX, INT64_MIN, INT64_MAX.
  change (2 ^ 31) with 2147483648.
  change (2 ^ 63) with 9223372036854775808. lia.
Qed.

(** Truncating division does not leave the interval of its dividend. *)
Lemma quot_between (lo hi n b : Z) :
  lo <= 0 <= hi -> lo <= n <= hi -> 1 <= b -> lo <= Z.quot n b <= hi.
Proof.
  intros Hz Hn Hb.
  destruct (Z.le_gt_cases 0 n) as [Hpos | Hneg].
  - rewrite Z.quot_div_nonneg by lia.
    pose proof (Z.div_pos n b Hpos ltac:(lia)).
    pose proof (Z.div_le_upper_bound n b n ltac:(lia) ltac:(nia)). lia.
  - replace n with (- (- n)) by lia. rewrite Z.quot_opp_l by lia.
    rewrite Z.quot_div_nonneg by lia.
    pose proof (Z.div_pos (- n) b ltac:(lia) ltac:(lia)).
    pose proof (Z.div_le_upper_bound (- n) b (- n) ltac:(lia) ltac:(nia)). lia.
Qed.

(** The sign test of the sources computes the floor of the quotient. *)
Lemma floor_div_div (a b : Z) : 1 <= b -> floor_div a b = a / b.
Proof.
  intros Hb. unfold floor_div.
  destruct (Z.leb_spec 0 a) as [Hpos | Hneg].
  - apply Z.quot_div_nonneg; lia.
  - replace (a - (b - 1)) with (- (b - 1 - a)) by lia.
    rewrite Z.quot_opp_l by lia.
    rewrite Z.quot_div_nonneg by lia.
    apply Z.div_unique with (r := (b - 1) - (b - 1 - a) mod b).
    + left. pose proof (Z.mod_pos_bound (b - 1 - a) b ltac:(lia)). lia.
    + pose proof (Z.div_mod (b - 1 - a) b ltac:(lia)). lia.
Qed.

Lemma floor_div_quotient (a b : Z) :
  1 <= b -> floor_quotient a b (floor_div a b).
Proof.
  intros Hb. rewrite floor_div_div by assumption.
  exists (a mod b). split.
  - pose proof (Z.div_mod a b ltac:(lia)). lia.
  - apply Z.mod_pos_bound. lia.
Qed.

Lemma floor_quotient_unique (a b q : Z) :
  1 <= b -> floor_quotient a b q -> q = floor_div a b.
Proof.
  intros Hb [r [Ha Hr]]. rewrite floor_div_div by assumption.
  apply Z.div_unique with (r := r); [left; assumption | lia].
Qed.

Lemma floor_div_one (a : Z) : floor_div a 1 = a.
Proof. rewrite floor_div_div by lia. apply Z.div_1_r. Qed.

(** Floored division twice is floored division by the product. *)
Lemma floor_div_floor_div (a b c : Z) :
  1 <= b -> 1 <= c -> floor_div (floor_div a b) c = floor_div a (b * c).
Proof.
  intros Hb Hc. rewrite !floor_div_div by nia.
  apply Z.div_div; lia.
Qed.

End Arithmetic.

(** ** The bucketing tail *)


Section Tail.

Import Distance.

Lemma needs_every_one (every : Z) :
  negb (every =? 1) = false <-> every = 1.
Proof.
  destruct (Z.eqb_spec every 1); simpl; split; intros; congruence.
Qed.

(** On [int]: where no intermediate value leaves the type, the tail is the
    floored division by [every]. *)
Lemma every_int_floor_div (every elt : Z) :
  1 <= every <= INT_MAX ->
  in_int elt ->
  INT_MIN <= elt - (every - 1) ->
  every_int (negb (every =? 1)) every elt = floor_div elt every.
Proof.
  intros Hevery Helt Hlow. unfold every_int.
  destruct (Z.eqb_spec every 1) as [-> | Hne]; simpl.
  - now rewrite floor_div_one.
  - unfold floor_div, idiv, isub.
    rewrite (int_small (every - 1)) by (unfold_bounds; lia).
    destruct (Z.ltb_spec elt 0) as [Hneg | Hpos];
      [ destruct (Z.leb_spec 0 elt); [lia |]
      | destruct (Z.leb_spec 0 elt); [| lia] ].
    + rewrite (int_small (elt - (every - 1))) by (unfold_bounds; lia).
      apply int_small.
      apply (quot_between INT_MIN INT_MAX); unfold_bounds; lia.
    + apply int_small.
      apply (quot_between INT_MIN INT_MAX); unfold_bounds; lia.
Qed.

(** On [int64_t]. *)
Lemma every_int64_floor_div (every elt : Z) :
  1 <= every <= INT_MAX ->
  in_int64 elt ->
  INT64_MIN <= elt - (every - 1) ->
  every_int64 (negb (every =? 1)) every elt = floor_div elt every.
Proof.
  intros Hevery Helt Hlow. unfold every_int64.
  destruct (Z.eqb_spec every 1) as [-> | Hne]; simpl.
  - now rewrite floor_div_one.
  - unfold floor_div, ldiv, lsub, isub.
    rewrite (int_small (every - 1)) by (unfold_bounds; lia).
    destruct (Z.ltb_spec elt 0) as [Hneg | Hpos];
      [ destruct (Z.leb_spec 0 elt); [lia |]
      | destruct (Z.leb_spec 0 elt); [| lia] ].
    + rewrite (int64_small (elt - (every - 1))) by (unfold_bounds; lia).
      apply int64_small.
      apply (quot_between INT64_MIN INT64_MAX); unfold_bounds; lia.
    + apply int64_small.
      apply (quot_between INT64_MIN INT64_MAX); unfold_bounds; lia.
Qed.


Lemma offset_distance_bucket_floor_div
    (needs_offset : bool) (origin_offset every elt : Z) :
  in_int elt -> elt <> NA_INTEGER ->
  1 <= every <= INT_MAX ->
  in_int (shifted needs_offset origin_offset elt) ->
  INT_MIN <= shifted needs_offset origin_offset elt - (every - 1) ->
  offset_distance_bucket needs_offset origin_offset (negb (every =? 1)) every elt
  = Some (floor_div (shifted needs_offset origin_offset elt) every).
Proof.
  intros Helt Hna Hevery Hshift Hlow. unfold offset_distance_bucket.
  destruct (Z.eqb_spec elt NA_INTEGER) as [| _]; [contradiction |].
  f_equal.
  assert (Hs : (if needs_offset then isub elt origin_offset else elt)
               = shifted needs_offset origin_offset elt).
  { unfold shifted in *. destruct needs_offset; [| reflexivity].
    apply int_small. assumption. }
  rewrite Hs. now apply every_int_floor_div.
Qed.

Lemma int_posixct_second_bucket_floor_div
    (needs_offset : bool) (origin_offset every x_elt : Z) :
  in_int x_elt -> x_elt <> NA_INTEGER ->
  1 <= every <= INT_MAX ->
  in_int64 (shifted needs_offset origin_offset x_elt) ->
  INT64_MIN <= shifted needs_offset origin_offset x_elt - (every - 1) ->
  int_posixct_warp_distance_second_bucket needs_offset origin_offset
    (negb (every =? 1)) every x_elt
  = Some (floor_div (shifted needs_offset origin_offset x_elt) every).
Proof.
  intros Helt Hna Hevery Hshift Hlow.
  unfold int_posixct_warp_distance_second_bucket.
  destruct (Z.eqb_spec x_elt NA_INTEGER) as [| _]; [contradiction |].
  f_equal.
  rewrite (int64_small x_elt) by now apply in_int_in_int64.
  assert (Hs : (if needs_offset then lsub x_elt origin_offset else x_elt)
               = shifted needs_offset origin_offset x_elt).
  { unfold shifted in *. destruct needs_offset; [| reflexivity].
    apply int64_small. assumption. }
  rewrite Hs. now apply every_int64_floor_div.
Qed.

End Tail.

(** ** C1: the bucket is the floored quotient *)

(** C1, amended.  For a non-missing offset, the loops of [warp_distance_year] (on
    [int]) and of [int_posixct_warp_distance_second] (on [int64_t]) store
    [shifted = offset - origin] when [every] is 1 and the floored quotient
    of [shifted] by [every] otherwise: the only integer [q] with
    [shifted = q * every + r] and [0 <= r < every], which the sign test
    [a / b], [(a - (b - 1)) / b] computes on truncating division.  The
    conditions on [s] say that the C arithmetic is defined: [shifted] and
    [shifted - (every - 1)] fit the integer type of the loop.  The two
    functions run this body over the year offsets of [x] and over the
    elements of [x], with the offset they read from the origin. *)
Theorem C1_distance_is_floored_quotient :
  forall (needs_offset : bool) (origin_offset every elt : Z),
    in_int elt -> elt <> NA_INTEGER ->
    1 <= every <= INT_MAX ->
    let s := shifted needs_offset origin_offset elt in
    let bucket := if every =? 1 then s else floor_div s every in
    (in_int s -> INT_MIN <= s - (every - 1) ->
     Distance.offset_distance_elt needs_offset origin_offset
       (negb (every =? 1)) every elt = of_Z bucket)
    /\ (in_int64 s -> INT64_MIN <= s - (every - 1) ->
        Distance.int_posixct_warp_distance_second_elt needs_offset
          origin_offset (negb (every =? 1)) every elt = of_Z bucket)
    /\ floor_quotient s every (floor_div s every)
    /\ (forall q, floor_quotient s every q -> q = floor_div s every)
    /\ (forall (host : Collaborators) (x origin : SEXP) (o : Z),
          Distance.origin_int_offset get_year_offset "warp_distance_year"
            origin = Ok o ->
          Distance.warp_distance_year x every origin
          = Ok (map (Distance.offset_distance_elt (negb (is_nil origin)) o
                       (negb (every =? 1)) every)
                    (get_year_offset x)))
    /\ (forall (host : Collaborators) (p_x : list Z) (origin : SEXP) (o : Z),
          Distance.posixct_origin_offset origin = Ok o ->
          Distance.int_posixct_warp_distance_second p_x every origin
          = Ok (map (Distance.int_posixct_warp_distance_second_elt
                       (negb (is_nil origin)) o (negb (every =? 1)) every)
                    p_x)).
Proof.
  intros needs_offset origin_offset every elt Helt Hna Hevery s bucket.
  assert (Hb : bucket = floor_div s every).
  { subst bucket. destruct (Z.eqb_spec every 1) as [-> | _];
      [now rewrite floor_div_one | reflexivity]. }
  rewrite Hb.
  split.
  { intros. unfold Distance.offset_distance_elt.
    now rewrite offset_distance_bucket_floor_div. }
  split.
  { intros. unfold Distance.int_posixct_warp_distance_second_elt.
    now rewrite int_posixct_second_bucket_floor_div. }
  split; [apply floor_div_quotient; lia |].
  split; [intros q Hq; apply floor_quotient_unique; [lia | assumption] |].
  split.
  - intros host x origin o Ho.
    unfold Distance.warp_distance_year, Distance.offsets_distance.
    now rewrite Ho.
  - intros host p_x origin o Ho.
    unfold Distance.int_posixct_warp_distance_second. now rewrite Ho.
Qed.

(** The year 1963 against the origin 1970 in buckets of two years, and the
    instant -7 s against the epoch in buckets of two seconds: bucket -4. *)
Lemma C1_distance_is_floored_quotient_witness :
  Distance.offset_distance_elt true 0 true 2 (-7) = of_Z (-4)
  /\ Distance.int_posixct_warp_distance_second_elt true 0 true 2 (-7)
     = of_Z (-4).
Proof.
  assert (Hin : in_int (-7)) by (vm_compute; split; discriminate).
  assert (Hin64 : in_int64 (-7)) by (vm_compute; split; discriminate).
  assert (Hna : -7 <> NA_INTEGER) by (vm_compute; discriminate).
  assert (Hev : 1 <= 2 <= INT_MAX) by (vm_compute; split; discriminate).
  destruct (C1_distance_is_floored_quotient true 0 2 (-7) Hin Hna Hev)
    as [H32 [H64 _]].
  split.
  - apply H32; [exact Hin | vm_compute; discriminate].
  - apply H64; [exact Hin64 | vm_compute; discriminate].
Defined.

(** C1, as stated for every [every >= 1], fails where the sign test
    leaves the [int] range.  [every = INT_MAX] passes [validate_every];
    for a day of 1967 (year offset -3) and the origin 1970 the loop of
    [warp_distance_year] computes [-3 - (INT_MAX - 1)], which wraps to
    [INT_MAX], and stores bucket 1, where the floored quotient of -3 by
    [INT_MAX] is -1. *)
Lemma C1_huge_every_counterexample :
  Distance.validate_every 2147483647 = Ok tt
  /\ get_year_offset (Collaborators := UtcHost.host) (Examples.Date [-1000])
     = [-3]
  /\ Examples.distance (Examples.Date [-1000]) warp_period_year 2147483647
       Examples.epoch = Examples.buckets [1]
  /\ Distance.offset_distance_elt true 0 true 2147483647 (-3) = of_Z 1
  /\ floor_div (shifted true 0 (-3)) 2147483647 = -1
  /\ of_Z 1 <> of_Z (-1).
Proof.
  repeat split; try (vm_compute; reflexivity); vm_compute; discriminate.
Qed.

(** ** C7: the guarded conversion *)


Example nearest_minus_2ms_bits :
  nearest_minus_2ms = S754_finite true 4611686018427388 (-61).
Proof. vm_compute. reflexivity. Qed.

(** C7.  [guarded_floor] and [guarded_floor_to_millisecond] are the steps
    of the specification in its order: scale by 1e6, truncate toward zero,
    scale by 1e-6, add the guard 1e-7, (for milliseconds: scale by 1e3,)
    floor, convert to [int64_t].  On the double nearest to -0.002 the
    millisecond conversion gives -2, not -3; the same holds on the double
    read from the timestamp of the source comment, which a plain floor of
    the scaled value sends to -3. *)
Theorem C7_guarded_floor_steps :
  (forall x, Distance.guarded_floor x = GuardedSpec.to_second x)
  /\ (forall x,
        Distance.guarded_floor_to_millisecond x = GuardedSpec.to_millisecond x)
  /\ Distance.guarded_floor_to_millisecond nearest_minus_2ms = -2
  /\ Distance.guarded_floor_to_millisecond nearest_minus_2ms <> -3
  /\ Distance.guarded_floor_to_millisecond parsed_minus_2ms = -2
  /\ to_int64 (floor (mul parsed_minus_2ms lit_1e3)) = -3.
Proof.
  split; [reflexivity |].
  split; [reflexivity |].
  split; [vm_compute; reflexivity |].
  split; [vm_compute; discriminate |].
  split; vm_compute; reflexivity.
Qed.

(** ** C2: scaling by [every] *)


Section Scaling.

Import Distance.

Lemma to_int_range (x : double) : in_int (to_int x).
Proof.
  unfold to_int.
  destruct (trunc_Z x) as [z |]; [| unfold_bounds; lia].
  destruct (Z.leb_spec INT_MIN z), (Z.leb_spec z INT_MAX); simpl;
    unfold_bounds; lia.
Qed.

Lemma to_int64_range (x : double) : in_int64 (to_int64 x).
Proof.
  unfold to_int64.
  destruct (trunc_Z x) as [z |]; [| unfold_bounds; lia].
  destruct (Z.leb_spec INT64_MIN z), (Z.leb_spec z INT64_MAX); simpl;
    unfold_bounds; lia.
Qed.

Lemma guarded_floor_range (x : double) : in_int64 (guarded_floor x).
Proof. apply to_int64_range. Qed.

Lemma guarded_floor_to_millisecond_range (x : double) :
  in_int64 (guarded_floor_to_millisecond x).
Proof. apply to_int64_range. Qed.

Lemma seconds_to_unit_range (c elt : Z) : in_int64 (seconds_to_unit c elt).
Proof. unfold seconds_to_unit, ldiv. destruct (elt <? 0); apply int64_range. Qed.

Lemma every_int_one (elt : Z) : every_int false 1 elt = elt.
Proof. reflexivity. Qed.

Lemma every_int64_one (elt : Z) : every_int64 false 1 elt = elt.
Proof. reflexivity. Qed.

(** The two shapes every loop body has after its missing test. *)
Lemma scaled_int (k u : Z) :
  1 <= k <= INT_MAX -> in_int u ->
  tail_defined INT_MIN k (Some (every_int false 1 u)) ->
  scaled k (Some (every_int false 1 u)) (Some (every_int (negb (k =? 1)) k u)).
Proof.
  intros Hk Hu Hlow. simpl in *. now apply every_int_floor_div.
Qed.

Lemma scaled_int64 (k u : Z) :
  1 <= k <= INT_MAX -> in_int64 u ->
  tail_defined INT64_MIN k (Some (every_int64 false 1 u)) ->
  scaled k (Some (every_int64 false 1 u))
           (Some (every_int64 (negb (k =? 1)) k u)).
Proof.
  intros Hk Hu Hlow. simpl in *. now apply every_int64_floor_div.
Qed.

Lemma in_int_offset (needs_offset : bool) (o elt : Z) :
  in_int elt -> in_int (if needs_offset then isub elt o else elt).
Proof. destruct needs_offset; [intros _; apply int_range | trivial]. Qed.

Lemma in_int64_offset (needs_offset : bool) (o elt : Z) :
  in_int64 elt -> in_int64 (if needs_offset then lsub elt o else elt).
Proof. destruct needs_offset; [intros _; apply int64_range | trivial]. Qed.

End Scaling.


Lemma multiple_bucket_quarter `{host : Collaborators}
    (x origin : SEXP) (every : Z) :
  Distance.warp_distance_quarter x every origin
  = (o <- Distance.origin_int_offset get_month_offset "warp_distance_month" origin ;;
     Ok (map (fun elt => Distance.store
                (multiple_bucket 3 (negb (is_nil origin)) o every elt))
             (get_month_offset x))).
Proof. reflexivity. Qed.

Lemma multiple_bucket_week `{host : Collaborators}
    (x origin : SEXP) (every : Z) :
  Distance.warp_distance_week x every origin
  = (o <- Distance.origin_int_offset get_day_offset "warp_distance_day" origin ;;
     Ok (map (fun elt => Distance.store
                (multiple_bucket 7 (negb (is_nil origin)) o every elt))
             (get_day_offset x))).
Proof. reflexivity. Qed.

Lemma multiple_bucket_scaled (c k : Z) (needs_offset : bool) (o elt : Z) :
  2 <= c -> 1 <= k -> c * k <= INT_MAX ->
  in_int elt ->
  in_int (shifted needs_offset o elt) ->
  INT_MIN <= shifted needs_offset o elt - (c * k - 1) ->
  scaled k (multiple_bucket c needs_offset o 1 elt)
           (multiple_bucket c needs_offset o k elt).
Proof.
  intros Hc Hk Hck Helt Hs Hlow. unfold multiple_bucket, imul.
  rewrite (int_small (1 * c)) by (unfold_bounds; nia).
  rewrite (int_small (k * c)) by (unfold_bounds; nia).
  replace (1 * c) with c by lia.
  destruct (Z.eqb_spec elt NA_INTEGER) as [-> | Hna].
  - unfold Distance.offset_distance_bucket.
    rewrite Z.eqb_refl. exact I.
  - rewrite !offset_distance_bucket_floor_div;
      try assumption; try (unfold_bounds; nia).
    simpl. replace (k * c) with (c * k) by lia.
    symmetry. apply floor_div_floor_div; lia.
Qed.


(** C2, as stated, fails for the year-day period: with buckets of 7 days
    1971-01-01 is in bucket 53 (each year holds [(365 - 1) / 7 + 1 = 53]
    buckets), with buckets of 1 day it is in bucket 365, and
    [floor (365 / 7) = 52]. *)
Lemma C2_yday_counterexample :
  yday_bucket_1971_01_01 1 = Some 365
  /\ yday_bucket_1971_01_01 7 = Some 53
  /\ floor_div 365 7 = 52
  /\ ~ scaled 7 (yday_bucket_1971_01_01 1) (yday_bucket_1971_01_01 7).
Proof.
  assert (H1 : yday_bucket_1971_01_01 1 = Some 365) by (vm_compute; reflexivity).
  assert (H7 : yday_bucket_1971_01_01 7 = Some 53) by (vm_compute; reflexivity).
  split; [exact H1 |]. split; [exact H7 |].
  split; [vm_compute; reflexivity |].
  rewrite H1, H7. vm_compute. discriminate.
Qed.

Section ScalingOfLoops.

Import Distance.

Ltac scaling_int :=
  intros Hlow; apply scaled_int;
  [ assumption
  | first [ apply int_range | apply in_int_offset; assumption ]
  | exact Hlow ].

Ltac scaling_int64 :=
  intros Hlow; apply scaled_int64;
  [ assumption
  | first [ apply int64_range | apply seconds_to_unit_range
          | apply in_int64_offset;
            first [ apply int64_range | apply to_int64_range ] ]
  | exact Hlow ].

Variable k : Z.
Hypothesis Hk : 1 <= k <= INT_MAX.

Lemma offset_distance_scaling (no : bool) (o elt : Z) :
  in_int elt ->
  every_scaling INT_MIN k (fun ne ev => offset_distance_bucket no o ne ev elt).
Proof.
  intros Helt. unfold every_scaling, offset_distance_bucket.
  destruct (elt =? NA_INTEGER); [intros _; exact I | scaling_int].
Qed.

Lemma int_date_int_scaling (units : Z) (no : bool) (o elt : Z) :
  every_scaling INT_MIN k (fun ne ev => int_date_int_bucket units no o ne ev elt).
Proof.
  unfold every_scaling, int_date_int_bucket.
  destruct (elt =? NA_INTEGER); [intros _; exact I | scaling_int].
Qed.

Lemma dbl_date_int_scaling (units : Z) (no : bool) (o : Z) (x_elt : double) :
  every_scaling INT_MIN k
    (fun ne ev => dbl_date_int_bucket units no o ne ev x_elt).
Proof.
  unfold every_scaling, dbl_date_int_bucket.
  destruct (negb (R_FINITE x_elt)); [intros _; exact I | scaling_int].
Qed.

Lemma int_date_int64_scaling (units : Z) (no : bool) (o x_elt : Z) :
  every_scaling INT64_MIN k
    (fun ne ev => int_date_int64_bucket units no o ne ev x_elt).
Proof.
  unfold every_scaling, int_date_int64_bucket.
  destruct (x_elt =? NA_INTEGER); [intros _; exact I | scaling_int64].
Qed.

Lemma dbl_date_int64_scaling (units : Z) (no : bool) (o : Z) (x_elt : double) :
  every_scaling INT64_MIN k
    (fun ne ev => dbl_date_int64_bucket units no o ne ev x_elt).
Proof.
  unfold every_scaling, dbl_date_int64_bucket.
  destruct (negb (R_FINITE x_elt)); [intros _; exact I | scaling_int64].
Qed.

Lemma int_posixct_unit_scaling (secs : Z) (no : bool) (o x_elt : Z) :
  every_scaling INT64_MIN k
    (fun ne ev => int_posixct_unit_bucket secs no o ne ev x_elt).
Proof.
  unfold every_scaling, int_posixct_unit_bucket.
  destruct (x_elt =? NA_INTEGER); [intros _; exact I | scaling_int64].
Qed.

Lemma dbl_posixct_unit_scaling (secs : Z) (no : bool) (o : Z) (x_elt : double) :
  every_scaling INT64_MIN k
    (fun ne ev => dbl_posixct_unit_bucket secs no o ne ev x_elt).
Proof.
  unfold every_scaling, dbl_posixct_unit_bucket.
  destruct (negb (R_FINITE x_elt)); [intros _; exact I | scaling_int64].
Qed.

Lemma int_posixct_second_scaling (no : bool) (o x_elt : Z) :
  every_scaling INT64_MIN k
    (fun ne ev => int_posixct_warp_distance_second_bucket no o ne ev x_elt).
Proof.
  unfold every_scaling, int_posixct_warp_distance_second_bucket.
  destruct (x_elt =? NA_INTEGER); [intros _; exact I | scaling_int64].
Qed.

Lemma dbl_posixct_second_scaling (no : bool) (o : Z) (x_elt : double) :
  every_scaling INT64_MIN k
    (fun ne ev => dbl_posixct_warp_distance_second_bucket no o ne ev x_elt).
Proof.
  unfold every_scaling, dbl_posixct_warp_distance_second_bucket.
  destruct (negb (R_FINITE x_elt)); [intros _; exact I | scaling_int64].
Qed.

Lemma int_posixct_millisecond_scaling (no : bool) (o x_elt : Z) :
  every_scaling INT64_MIN k
    (fun ne ev =>
       int_posixct_warp_distance_millisecond_bucket no o ne ev x_elt).
Proof.
  unfold every_scaling, int_posixct_warp_distance_millisecond_bucket.
  destruct (x_elt =? NA_INTEGER); [intros _; exact I | scaling_int64].
Qed.

Lemma dbl_posixct_millisecond_scaling (no : bool) (o : Z) (x_elt : double) :
  every_scaling INT64_MIN k
    (fun ne ev =>
       dbl_posixct_warp_distance_millisecond_bucket no o ne ev x_elt).
Proof.
  unfold every_scaling, dbl_posixct_warp_distance_millisecond_bucket.
  destruct (negb (R_FINITE x_elt)); [intros _; exact I | scaling_int64].
Qed.

End ScalingOfLoops.

(** C2, amended.  For [1 <= k <= INT_MAX], every loop whose bucket is a
    floored quotient scales: the year, month and day loops, and the hour,
    minute, second and millisecond loops on both classes and both
    storages.  On a slot that is not missing the bucket for [every = k]
    is the floored quotient by [k] of the bucket for [every = 1], when
    the sign test of the tail is defined ([tail_defined]: the bucket for
    [every = 1] less [k - 1] is not below the least value of the integer
    type of the loop).  The quarter and the week are the month and the
    day loops run with [3 * every] and [7 * every], a product taken on
    [int]: they scale when [3 * k] ([7 * k]) is an [int], the difference
    of the element and the origin is an [int], and that difference less
    [3 * k - 1] ([7 * k - 1]) is not below [INT_MIN].  The year-day and
    year-week loops are left out. *)
Theorem C2_every_scaling_of_quotient_periods :
  forall k : Z, 1 <= k <= INT_MAX ->
    (forall no o elt, in_int elt ->
       every_scaling INT_MIN k
         (fun ne ev => Distance.offset_distance_bucket no o ne ev elt))
    /\ (forall c no o elt,
          c = 3 \/ c = 7 -> c * k <= INT_MAX -> in_int elt ->
          in_int (shifted no o elt) ->
          INT_MIN <= shifted no o elt - (c * k - 1) ->
          scaled k (multiple_bucket c no o 1 elt) (multiple_bucket c no o k elt))
    /\ (forall units no o elt,
          every_scaling INT_MIN k
            (fun ne ev => Distance.int_date_int_bucket units no o ne ev elt))
    /\ (forall units no o x_elt,
          every_scaling INT_MIN k
            (fun ne ev => Distance.dbl_date_int_bucket units no o ne ev x_elt))
    /\ (forall units no o x_elt,
          every_scaling INT64_MIN k
            (fun ne ev => Distance.int_date_int64_bucket units no o ne ev x_elt))
    /\ (forall units no o x_elt,
          every_scaling INT64_MIN k
            (fun ne ev => Distance.dbl_date_int64_bucket units no o ne ev x_elt))
    /\ (forall secs no o x_elt,
          every_scaling INT64_MIN k
            (fun ne ev => Distance.int_posixct_unit_bucket secs no o ne ev x_elt))
    /\ (forall secs no o x_elt,
          every_scaling INT64_MIN k
            (fun ne ev => Distance.dbl_posixct_unit_bucket secs no o ne ev x_elt))
    /\ (forall no o x_elt,
          every_scaling INT64_MIN k
            (fun ne ev =>
               Distance.int_posixct_warp_distance_second_bucket no o ne ev x_elt))
    /\ (forall no o x_elt,
          every_scaling INT64_MIN k
            (fun ne ev =>
               Distance.dbl_posixct_warp_distance_second_bucket no o ne ev x_elt))
    /\ (forall no o x_elt,
          every_scaling INT64_MIN k
            (fun ne ev =>
               Distance.int_posixct_warp_distance_millisecond_bucket
                 no o ne ev x_elt))
    /\ (forall no o x_elt,
          every_scaling INT64_MIN k
            (fun ne ev =>
               Distance.dbl_posixct_warp_distance_millisecond_bucket
                 no o ne ev x_elt)).
Proof.
  intros k Hk.
  split; [intros; now apply offset_distance_scaling |].
  split.
  { intros c no o elt Hc Hck Helt Hs Hlow.
    apply multiple_bucket_scaled; try assumption; lia. }
  split; [intros; now apply int_date_int_scaling |].
  split; [intros; now apply dbl_date_int_scaling |].
  split; [intros; now apply int_date_int64_scaling |].
  split; [intros; now apply dbl_date_int64_scaling |].
  split; [intros; now apply int_posixct_unit_scaling |].
  split; [intros; now apply dbl_posixct_unit_scaling |].
  split; [intros; now apply int_posixct_second_scaling |].
  split; [intros; now apply dbl_posixct_second_scaling |].
  split; [intros; now apply int_posixct_millisecond_scaling |].
  intros; now apply dbl_posixct_millisecond_scaling.
Qed.

(** The day -7 against the epoch: bucket -7 for [every = 1], bucket -4 for
    [every = 2]; the month -7 in quarters: -3, and in pairs of quarters:
    -2. *)
Lemma C2_every_scaling_of_quotient_periods_witness :
  scaled 2 (Distance.offset_distance_bucket true 0 false 1 (-7))
           (Distance.offset_distance_bucket true 0 true 2 (-7))
  /\ scaled 2 (multiple_bucket 3 true 0 1 (-7)) (multiple_bucket 3 true 0 2 (-7)).
Proof.
  assert (Hk : 1 <= 2 <= INT_MAX) by (unfold_bounds; lia).
  destruct (C2_every_scaling_of_quotient_periods 2 Hk) as [Hoff [Hmult _]].
  split.
  - apply (Hoff true 0 (-7)).
    + unfold_bounds; lia.
    + vm_compute. discriminate.
  - apply (Hmult 3 true 0 (-7)).
    + left; reflexivity.
    + unfold_bounds; lia.
    + unfold_bounds; lia.
    + unfold shifted; unfold_bounds; lia.
    + unfold shifted; unfold_bounds; lia.
Defined.

(** ** C3: the year-day bucket *)


Section YdayRefinement.
Import Distance.

Lemma rem_zero_mod (a b : Z) : 0 < b -> (Z.rem a b =? 0) = (a mod b =? 0).
Proof.
  intros Hb.
  destruct (Z.eqb_spec (Z.rem a b) 0) as [Hr | Hr],
           (Z.eqb_spec (a mod b) 0) as [Hm | Hm]; try reflexivity; exfalso.
  - apply Hm. apply Z.mod_divide; [lia|]. apply Z.rem_divide; [lia| exact Hr].
  - apply Hr. apply Z.rem_divide; [lia|]. apply Z.mod_divide; [lia| exact Hm].
Qed.

Lemma int_div_floor (x y : Z) :
  in_int x -> 1 <= y <= INT_MAX -> INT_MIN <= x - (y - 1) ->
  int_div x y = x / y.
Proof.
  intros Hx Hy Hlow. rewrite <- floor_div_div by lia.
  unfold int_div, floor_div, idiv, isub.
  rewrite (int_small (y - 1)) by (unfold_bounds; lia).
  destruct (Z.leb_spec 0 x).
  - apply int_small. apply (quot_between INT_MIN INT_MAX); unfold_bounds; lia.
  - rewrite (int_small (x - (y - 1))) by (unfold_bounds; lia).
    apply int_small. apply (quot_between INT_MIN INT_MAX); unfold_bounds; lia.
Qed.

Ltac in_range := unfold_bounds; Z.to_euclidean_division_equations; lia.

Ltac no_wrap :=
  repeat match goal with
  | |- context [int ?z] => rewrite (int_small z) by in_range
  end.

Lemma irem_small (a b : Z) : 0 < b <= 400 -> irem a b = Z.rem a b.
Proof.
  intros Hb. unfold irem. apply int_small.
  pose proof (Z.rem_bound_abs a b ltac:(lia)). unfold_bounds. lia.
Qed.

Lemma is_leap_year_spec (year : Z) :
  is_leap_year year = YdaySpec.is_leap year.
Proof.
  unfold is_leap_year, YdaySpec.is_leap.
  rewrite !irem_small by lia. now rewrite !rem_zero_mod by lia.
Qed.

Lemma days_before_year_spec (yo : Z) :
  -2000000 <= yo <= 2000000 ->
  days_before_year yo = YdaySpec.days_before_year yo.
Proof.
  intros H. unfold days_before_year, YdaySpec.days_before_year,
    YEARS_FROM_0001_01_01_TO_EPOCH, DAYS_FROM_0001_01_01_TO_EPOCH, iadd, isub, imul.
  rewrite (int_small (yo + 1970)) by in_range.
  rewrite (int_small (yo + 1970 - 1)) by in_range.
  rewrite !int_div_floor by in_range.
  no_wrap. lia.
Qed.

Lemma leap_years_spec (yo : Z) :
  -2000000 <= yo <= 2000000 ->
  leap_years_before_and_including_year yo
  = YdaySpec.leap_years_before_and_including_year yo.
Proof.
  intros H. unfold leap_years_before_and_including_year,
    YdaySpec.leap_years_before_and_including_year,
    YEARS_FROM_0001_01_01_TO_EPOCH, LEAP_YEARS_FROM_0001_01_01_TO_EPOCH, iadd, isub.
  rewrite (int_small (yo + 1970)) by in_range.
  rewrite !int_div_floor by in_range.
  no_wrap. lia.
Qed.

Lemma yday_leap_adjustment_spec (yo yday : Z) (l : bool) :
  -2000000 <= yo <= 2000000 ->
  yday_leap_adjustment yo yday l = YdaySpec.Delta yo yday l.
Proof.
  intros H. unfold yday_leap_adjustment, YdaySpec.Delta, iadd.
  rewrite (int_small (yo + 1970)) by in_range.
  rewrite is_leap_year_spec.
  destruct (yday <? 58); [reflexivity |].
  destruct l, (YdaySpec.is_leap (yo + 1970)); reflexivity.
Qed.

Lemma Delta_bound (yo yday : Z) (l : bool) : -1 <= YdaySpec.Delta yo yday l <= 1.
Proof.
  unfold YdaySpec.Delta.
  destruct (yday <? 58), l, (YdaySpec.is_leap (yo + 1970)); simpl; lia.
Qed.


Lemma units_in_a_year (d every : Z) :
  1 <= d <= 366 -> 1 <= every <= INT_MAX ->
  iadd (idiv (isub d 1) every) 1 = (d - 1) / every + 1
  /\ 1 <= (d - 1) / every + 1 <= d.
Proof.
  intros Hd Hevery.
  assert (Hq : 0 <= (d - 1) / every <= d - 1).
  { split; [apply Z.div_pos; lia | apply Z.div_le_upper_bound; nia]. }
  split; [| lia].
  unfold iadd, idiv, isub.
  rewrite (int_small (d - 1)) by (unfold_bounds; lia).
  rewrite Z.quot_div_nonneg by lia.
  rewrite (int_small ((d - 1) / every)) by (unfold_bounds; lia).
  apply int_small. unfold_bounds. lia.
Qed.

Lemma last_origin_year_offset_spec (yo yday oyd D : Z) :
  -1000000 <= yo <= 1000000 -> 0 <= oyd <= 365 -> -1 <= D <= 1 ->
  (if yday <? iadd oyd D then isub yo 1 else yo)
  = yo - (if yday <? oyd + D then 1 else 0).
Proof.
  intros Hyo Hoyd HD. unfold iadd, isub.
  rewrite (int_small (oyd + D)) by (unfold_bounds; lia).
  destruct (yday <? oyd + D); [| lia].
  apply int_small. unfold_bounds. lia.
Qed.

Lemma days_before_year_bound (yo : Z) :
  -1000001 <= yo <= 1000000 ->
  -400000000 <= YdaySpec.days_before_year yo <= 400000000.
Proof. intros H. unfold YdaySpec.days_before_year. in_range. Qed.

Lemma leap_years_bound (yo : Z) :
  -1000001 <= yo <= 1000000 ->
  -300000 <= YdaySpec.leap_years_before_and_including_year yo <= 300000.
Proof.
  intros H. unfold YdaySpec.leap_years_before_and_including_year. in_range.
Qed.

(** The sums and products of [compute_yday_distance] on values in the
    ranges of the calendar do not wrap. *)
Lemma yday_assembly (days dby oyd D last oyo ly1 ly2 u1 u2 every : Z) :
  -400000000 <= days <= 400000000 ->
  -400000000 <= dby <= 400000000 ->
  0 <= oyd <= 365 -> -1 <= D <= 1 ->
  -1000001 <= last <= 1000000 -> -1000000 <= oyo <= 1000000 ->
  -300000 <= ly1 <= 300000 -> -300000 <= ly2 <= 300000 ->
  1 <= u1 <= 366 -> 1 <= u2 <= 366 ->
  1 <= every <= INT_MAX ->
  INT_MIN <= days - (dby + oyd + D) - (every - 1) ->
  iadd (iadd (imul u2 (isub ly1 ly2))
             (imul u1 (isub (isub last oyo) (isub ly1 ly2))))
       (int_div (isub days (iadd (iadd dby oyd) D)) every)
  = u2 * (ly1 - ly2) + u1 * (last - oyo - (ly1 - ly2))
    + (days - (dby + oyd + D)) / every.
Proof.
  intros Hdays Hdby Hoyd HD Hlast Hoyo Hly1 Hly2 Hu1 Hu2 Hevery Hlow.
  unfold iadd, isub, imul.
  rewrite (int_small (dby + oyd)) by (unfold_bounds; lia).
  rewrite (int_small (dby + oyd + D)) by (unfold_bounds; lia).
  rewrite (int_small (days - (dby + oyd + D))) by (unfold_bounds; lia).
  rewrite int_div_floor by (unfold_bounds; lia).
  assert (Hq : -900000000 <= (days - (dby + oyd + D)) / every <= 900000000).
  { split.
    - apply Z.div_le_lower_bound; nia.
    - apply Z.div_le_upper_bound; nia. }
  generalize dependent ((days - (dby + oyd + D)) / every). intros q Hq.
  rewrite (int_small (last - oyo)) by (unfold_bounds; lia).
  rewrite (int_small (ly1 - ly2)) by (unfold_bounds; lia).
  rewrite (int_small (last - oyo - (ly1 - ly2))) by (unfold_bounds; lia).
  rewrite (int_small (u2 * (ly1 - ly2))) by (unfold_bounds; nia).
  rewrite (int_small (u1 * (last - oyo - (ly1 - ly2)))) by (unfold_bounds; nia).
  rewrite (int_small (u2 * (ly1 - ly2) + u1 * (last - oyo - (ly1 - ly2))))
    by (unfold_bounds; nia).
  apply int_small. unfold_bounds. nia.
Qed.

Lemma compute_yday_distance_spec
    (days yo yday oyo oyd every : Z) :
  -400000000 <= days <= 400000000 ->
  -1000000 <= yo <= 1000000 ->
  0 <= yday <= 365 ->
  -1000000 <= oyo <= 1000000 ->
  0 <= oyd <= 365 ->
  1 <= every <= INT_MAX ->
  INT_MIN <= YdaySpec.days_since_last_origin days yo yday oyo oyd - (every - 1) ->
  yday_bucket (yday_setup_of every {| origin_year_offset := oyo; origin_yday := oyd |})
    every days yo yday
  = YdaySpec.bucket days yo yday oyo oyd every.
Proof.
  intros Hdays Hyo Hyday Hoyo Hoyd Hevery Hlow.
  unfold yday_bucket, yday_setup_of, compute_yday_distance,
    last_origin_year_offset_of.
  cbn [units_in_non_leap_year units_in_leap_year setup_origin_year_offset
       setup_origin_yday origin_leap origin_year_offset origin_yday].
  cbv zeta.
  unfold YdaySpec.bucket, YdaySpec.units_between, YdaySpec.units_in_year,
    YdaySpec.leap_years_between, YdaySpec.years_between,
    YdaySpec.days_since_last_origin, YdaySpec.last_origin_day,
    YdaySpec.last_origin_year_offset, YdaySpec.origin_yday_adjusted,
    YdaySpec.origin_is_leap, YdaySpec.units_per_leap_year,
    YdaySpec.units_per_non_leap_year in *.
  replace (iadd oyo 1970) with (oyo + 1970)
    by (unfold iadd; symmetry; apply int_small; unfold_bounds; lia).
  rewrite is_leap_year_spec.
  rewrite (yday_leap_adjustment_spec yo) by lia.
  rewrite last_origin_year_offset_spec by (try apply Delta_bound; lia).
  assert (Hlastb :
    -1000001 <= yo - (if yday <? oyd + YdaySpec.Delta yo yday
                         (YdaySpec.is_leap (oyo + 1970)) then 1 else 0)
    <= 1000000) by (destruct (yday <? _); lia).
  rewrite (yday_leap_adjustment_spec _ oyd) by lia.
  rewrite (days_before_year_spec _) by lia.
  rewrite (leap_years_spec _) by lia.
  rewrite (leap_years_spec oyo) by lia.
  destruct (units_in_a_year DAYS_IN_YEAR every) as [-> Hu1];
    [unfold DAYS_IN_YEAR; lia | lia |].
  destruct (units_in_a_year DAYS_IN_LEAP_YEAR every) as [-> Hu2];
    [unfold DAYS_IN_LEAP_YEAR; lia | lia |].
  unfold DAYS_IN_YEAR, DAYS_IN_LEAP_YEAR in *.
  apply yday_assembly; try assumption; try lia.
  - now apply days_before_year_bound.
  - apply Delta_bound.
  - now apply leap_years_bound.
  - apply leap_years_bound. lia.
Qed.
(** A year has 365 days, and one more when it is a leap year. *)
Lemma days_in_year (yo : Z) :
  YdaySpec.days_before_year (yo + 1) - YdaySpec.days_before_year yo
  = 365 + (if YdaySpec.is_leap (yo + 1970) then 1 else 0).
Proof.
  unfold YdaySpec.days_before_year, YdaySpec.is_leap. cbv zeta.
  replace (yo + 1 + 1970 - 1) with (yo + 1970) by lia.
  generalize (yo + 1970). intros Y.
  destruct (Z.eqb_spec (Y mod 4) 0), (Z.eqb_spec (Y mod 100) 0),
    (Z.eqb_spec (Y mod 400) 0); cbn [andb orb negb];
    Z.to_euclidean_division_equations; lia.
Qed.

(** For an element and an origin that are days of their years, the last
    anniversary of the origin is not after the element. *)
Lemma days_since_last_origin_nonneg (yo yday oyo oyd : Z) :
  0 <= yday <= 364 + (if YdaySpec.is_leap (yo + 1970) then 1 else 0) ->
  0 <= oyd <= 364 + (if YdaySpec.is_leap (oyo + 1970) then 1 else 0) ->
  0 <= YdaySpec.days_since_last_origin
         (YdaySpec.days_before_year yo + yday) yo yday oyo oyd.
Proof.
  intros Hyday Hoyd.
  unfold YdaySpec.days_since_last_origin, YdaySpec.last_origin_day,
    YdaySpec.last_origin_year_offset, YdaySpec.origin_yday_adjusted,
    YdaySpec.origin_is_leap.
  set (l := YdaySpec.is_leap (oyo + 1970)) in *.
  pose proof (days_in_year (yo - 1)) as Hprev.
  replace (yo - 1 + 1) with yo in Hprev by lia.
  destruct (Z.ltb_spec yday (oyd + YdaySpec.Delta yo yday l)) as [Hlt | Hge].
  - (* the anniversary of the year before *)
    unfold YdaySpec.Delta in *.
    destruct (Z.ltb_spec oyd 58), l, (YdaySpec.is_leap (yo - 1 + 1970));
      cbn [Bool.eqb andb negb] in *; lia.
  - (* the anniversary of the year of the element *)
    rewrite Z.sub_0_r. unfold YdaySpec.Delta in *.
    destruct (Z.ltb_spec yday 58), (Z.ltb_spec oyd 58), l,
      (YdaySpec.is_leap (yo + 1970));
      cbn [Bool.eqb andb negb] in *; lia.
Qed.

End YdayRefinement.

(** The four cases of the adjustment. *)
Lemma Delta_cases (year_offset yday : Z) (origin_is_leap : bool) :
  let year_is_leap := YdaySpec.is_leap (year_offset + 1970) in
  let D := YdaySpec.Delta year_offset yday origin_is_leap in
  (yday < 58 -> D = 0)
  /\ (origin_is_leap = year_is_leap -> D = 0)
  /\ (58 <= yday -> origin_is_leap = true -> year_is_leap = false -> D = -1)
  /\ (58 <= yday -> origin_is_leap = false -> year_is_leap = true -> D = 1).
Proof.
  unfold YdaySpec.Delta.
  destruct (Z.ltb_spec yday 58), origin_is_leap,
    (YdaySpec.is_leap (year_offset + 1970)); simpl;
    repeat split; intros; try reflexivity; try discriminate; lia.
Qed.

(** C3, as stated for every element, fails where the [int] arithmetic
    of [compute_yday_distance] wraps: from the first day of the year
    offset -3000000 to the first day of the year offset 3000000, both day
    counts of an [int] Date, there are 2191455000 buckets of one day, and
    the loop stores 2191455000 - 2^32. *)
Lemma C3_yday_bucket_wraps_counterexample :
  YdaySpec.days_before_year (-3000000) = -1095727500
  /\ YdaySpec.days_before_year 3000000 = 1095727500
  /\ in_int (-1095727500) /\ in_int 1095727500
  /\ Examples.distance (Examples.Date [1095727500]) warp_period_yday 1
       (Examples.Date [-1095727500]) = Examples.buckets [-2103512296]
  /\ Distance.yday_bucket
       (Distance.yday_setup_of 1
          {| origin_year_offset := -3000000; origin_yday := 0 |})
       1 1095727500 3000000 0 = -2103512296
  /\ YdaySpec.bucket 1095727500 3000000 0 (-3000000) 0 1 = 2191455000
  /\ of_Z (-2103512296) <> of_Z 2191455000.
Proof.
  repeat split; try (vm_compute; reflexivity); vm_compute; discriminate.
Qed.

(** C3, amended.  On an element and an origin within a million years of
    1970, [yday_leap_adjustment] is the adjustment [Delta] of the
    specification (0 before day 58, 0 for equal leap status, -1 for a
    leap origin and a common year, +1 for a common origin and a leap
    year); [last_origin_year_offset] is the year of the element less 1
    exactly when [yday < origin_yday + Delta]; the loops count
    [(366 - 1) / every + 1] and [(365 - 1) / every + 1] units for a leap
    and a common year; and [compute_yday_distance] returns
    [units_between + floor_div (days_since_last_origin, every)], when the
    sign test of [int_div] is defined on [days_since_last_origin].  It is
    for every [every] when the element and the origin are days of their
    years, as the loops pass them: [days_since_last_origin] is then not
    negative.  The three loops of the period store the double of that
    bucket: the POSIXlt loop for the fields [year = yo + 70] and
    [yday = yd], and on every host the integer and the double Date loops
    for a day count that [convert_days_to_components] splits into [yo]
    and [yd]. *)
Theorem C3_yday_bucket_is_leap_compensation :
  forall (days yo yd oyo oyd every : Z),
    -400000000 <= days <= 400000000 ->
    -1000000 <= yo <= 1000000 ->
    0 <= yd <= 365 ->
    -1000000 <= oyo <= 1000000 ->
    0 <= oyd <= 365 ->
    1 <= every <= INT_MAX ->
    let l := YdaySpec.is_leap (oyo + 1970) in
    let D := YdaySpec.Delta yo yd l in
    let s := Distance.yday_setup_of every
               {| origin_year_offset := oyo; origin_yday := oyd |} in
    let since := YdaySpec.days_since_last_origin days yo yd oyo oyd in
    let specified :=
      YdaySpec.units_between yo yd oyo oyd every + floor_div since every in
    Distance.yday_leap_adjustment yo yd l = D
    /\ Distance.origin_leap s = l
    /\ (Distance.last_origin_year_offset_of yo yd oyd l
        = if yd <? oyd + D then yo - 1 else yo)
    /\ Distance.units_in_leap_year s = (366 - 1) / every + 1
    /\ Distance.units_in_non_leap_year s = (365 - 1) / every + 1
    /\ (INT_MIN <= since - (every - 1) ->
        Distance.yday_bucket s every days yo yd = specified)
    /\ (days = YdaySpec.days_before_year yo + yd ->
        yd <= 364 + (if YdaySpec.is_leap (yo + 1970) then 1 else 0) ->
        oyd <= 364 + (if l then 1 else 0) ->
        0 <= since /\ Distance.yday_bucket s every days yo yd = specified)
    /\ (INT_MIN <= since - (every - 1) ->
        (days = YdaySpec.days_before_year yo + yd ->
         Distance.posixlt_warp_distance_yday_elt s every (yo + 70) yd
         = of_Z specified)
        /\ (forall host : Collaborators,
              year_offset (convert_days_to_components days) = yo ->
              yday (convert_days_to_components days) = yd ->
              (forall origin,
                 get_origin_yday_components origin
                 = {| origin_year_offset := oyo; origin_yday := oyd |} ->
                 Distance.yday_prepare every origin = s
                 /\ (forall p_x,
                       Distance.int_date_warp_distance_yday p_x every origin
                       = Ok (map (Distance.int_date_warp_distance_yday_elt
                                    s every) p_x))
                 /\ (forall p_x,
                       Distance.dbl_date_warp_distance_yday p_x every origin
                       = Ok (map (Distance.dbl_date_warp_distance_yday_elt
                                    s every) p_x))
                 /\ (forall x cy cd p_year p_yday,
                       VECTOR_ELT x 5 = Ok (INTSXP cy p_year) ->
                       VECTOR_ELT x 7 = Ok (INTSXP cd p_yday) ->
                       Distance.posixlt_warp_distance_yday x every origin
                       = Ok (map (fun i =>
                                    Distance.posixlt_warp_distance_yday_elt
                                      s every (nth i p_year NA_INTEGER)
                                      (nth i p_yday NA_INTEGER))
                                 (seq 0 (List.length p_year)))))
              /\ Distance.int_date_warp_distance_yday_elt s every days
                 = of_Z specified
              /\ (forall x_elt, R_FINITE x_elt = true ->
                    to_int x_elt = days ->
                    Distance.dbl_date_warp_distance_yday_elt s every x_elt
                    = of_Z specified))).
Proof.
  intros days yo yd oyo oyd every Hdays Hyo Hyday Hoyo Hoyd Hevery
    l D s since specified.
  assert (Hbucket : INT_MIN <= since - (every - 1) ->
                    Distance.yday_bucket s every days yo yd = specified).
  { intros Hlow. subst s specified since.
    rewrite compute_yday_distance_spec by assumption.
    rewrite floor_div_div by lia. reflexivity. }
  split; [apply yday_leap_adjustment_spec; lia |].
  split.
  { subst s l. unfold Distance.yday_setup_of.
    cbn [Distance.origin_leap origin_year_offset].
    replace (iadd oyo 1970) with (oyo + 1970)
      by (unfold iadd; symmetry; apply int_small; unfold_bounds; lia).
    apply is_leap_year_spec. }
  split.
  { unfold Distance.last_origin_year_offset_of.
    rewrite yday_leap_adjustment_spec by lia. fold l. fold D.
    rewrite last_origin_year_offset_spec by (try apply Delta_bound; lia).
    destruct (yd <? oyd + D); lia. }
  split.
  { apply (units_in_a_year Distance.DAYS_IN_LEAP_YEAR every);
      [unfold Distance.DAYS_IN_LEAP_YEAR; lia | lia]. }
  split.
  { apply (units_in_a_year Distance.DAYS_IN_YEAR every);
      [unfold Distance.DAYS_IN_YEAR; lia | lia]. }
  split; [exact Hbucket |].
  split.
  { intros Hconsistent Hy Ho.
    assert (Hsince : 0 <= since).
    { subst since. rewrite Hconsistent.
      apply days_since_last_origin_nonneg; [lia | fold l; lia]. }
    split; [exact Hsince |].
    apply Hbucket. unfold_bounds. lia. }
  intros Hlow.
  assert (Hna : (days =? NA_INTEGER) = false).
  { apply Z.eqb_neq. unfold NA_INTEGER. unfold_bounds. lia. }
  split.
  - intros Hconsistent.
    unfold Distance.posixlt_warp_distance_yday_elt,
      Distance.posixlt_warp_distance_yday_bucket.
    destruct (Z.eqb_spec (yo + 70) NA_INTEGER) as [E |];
      [unfold NA_INTEGER in E; unfold_bounds; lia |].
    unfold isub. replace (yo + 70 - 70) with yo by lia.
    rewrite (int_small yo) by (unfold_bounds; lia).
    rewrite days_before_year_spec by lia.
    unfold iadd. rewrite <- Hconsistent.
    rewrite (int_small days) by (unfold_bounds; lia).
    cbn [Distance.store]. now rewrite Hbucket.
  - intros host Hyo' Hyd'.
    split.
    { intros origin Ho.
      assert (Hs : Distance.yday_prepare every origin = s)
        by (unfold Distance.yday_prepare; now rewrite Ho).
      split; [exact Hs |].
      split; [intros p_x; unfold Distance.int_date_warp_distance_yday;
              now rewrite Hs |].
      split; [intros p_x; unfold Distance.dbl_date_warp_distance_yday;
              now rewrite Hs |].
      intros x cy cd p_year p_yday H5 H7.
      unfold Distance.posixlt_warp_distance_yday.
      rewrite H5, H7. cbn [bind]. now rewrite Hs. }
    split.
    + unfold Distance.int_date_warp_distance_yday_elt,
        Distance.int_date_warp_distance_yday_bucket.
      rewrite Hna, Hyo', Hyd'. cbn [Distance.store]. now rewrite Hbucket.
    + intros x_elt Hfin Hx.
      unfold Distance.dbl_date_warp_distance_yday_elt,
        Distance.dbl_date_warp_distance_yday_bucket.
      rewrite Hfin, Hx, Hyo', Hyd'. cbn [negb Distance.store].
      now rewrite Hbucket.
Qed.

(** 2020-03-01 (day 18322, day 60 of the leap year 2020) against the origin
    2019-01-01 in buckets of 7 days: 53 units for 2019 and 8 within 2020. *)
Lemma C3_yday_bucket_is_leap_compensation_witness :
  Distance.yday_bucket
    (Distance.yday_setup_of 7 {| origin_year_offset := 49; origin_yday := 0 |})
    7 18322 50 60
  = 53 + floor_div 60 7
  /\ Distance.int_date_warp_distance_yday_elt (host := UtcHost.host)
       (Distance.yday_setup_of 7
          {| origin_year_offset := 49; origin_yday := 0 |}) 7 18322
     = of_Z (53 + floor_div 60 7).
Proof.
  assert (Hevery : 1 <= 7 <= INT_MAX) by (unfold_bounds; lia).
  destruct (C3_yday_bucket_is_leap_compensation 18322 50 60 49 0 7
              ltac:(lia) ltac:(lia) ltac:(lia) ltac:(lia) ltac:(lia) Hevery)
    as [_ [_ [_ [_ [_ [Hdefined [Hdays Hloops]]]]]]].
  assert (Hlow : INT_MIN <= 60 - (7 - 1)) by (unfold_bounds; lia).
  assert (Hday : 18322 = YdaySpec.days_before_year 50 + 60)
    by (vm_compute; reflexivity).
  assert (Hy : 60 <= 364 + (if YdaySpec.is_leap (50 + 1970) then 1 else 0))
    by (vm_compute; discriminate).
  assert (Ho : 0 <= 364 + (if YdaySpec.is_leap (49 + 1970) then 1 else 0))
    by (vm_compute; discriminate).
  destruct (Hdays Hday Hy Ho) as [_ Hbucket].
  pose proof (Hdefined Hlow) as Hsame.
  destruct (Hloops Hlow) as [_ Hhost].
  destruct (Hhost UtcHost.host) as [_ [Hint _]];
    [vm_compute; reflexivity | vm_compute; reflexivity |].
  split; [exact Hbucket | exact Hint].
Defined.

(* ================================================================== *)
(** ** Integers as doubles *)

(** [(double) z] is never a NaN; it holds an integer when [z] is a 64-bit
    integer, and [z] itself when [z] has at most 53 bits. *)
Section IntegersAsDoubles.

Lemma iter_pos_invariant {A : Type} (P : A -> Prop) (f : A -> A) :
  (forall a, P a -> P (f a)) -> forall p a, P a -> P (iter_pos f p a).
Proof.
  intros Hf. induction p as [p IH | p IH |]; intros a Ha; simpl; auto.
Qed.

Lemma shr_1_nonneg (r : shr_record) : 0 <= shr_m r -> 0 <= shr_m (shr_1 r).
Proof.
  destruct r as [m rb sb]. simpl. intros Hm.
  destruct m as [| [p | p |] | p]; simpl; lia.
Qed.

Lemma shr_1_le (r : shr_record) : 0 <= shr_m r -> shr_m (shr_1 r) <= shr_m r.
Proof.
  destruct r as [m rb sb]. simpl. intros Hm.
  destruct m as [| [p | p |] | p]; simpl; lia.
Qed.

Lemma shr_bounds (r : shr_record) (e n : Z) :
  0 <= shr_m r ->
  0 <= shr_m (fst (shr r e n)) <= shr_m r /\ e <= snd (shr r e n) <= e + Z.max 0 n.
Proof.
  intros Hm. unfold shr. destruct n as [| p | p]; simpl; try lia.
  split; [| lia].
  apply (iter_pos_invariant (fun r' => 0 <= shr_m r' <= shr_m r)); [| lia].
  intros a [Ha1 Ha2]. pose proof (shr_1_nonneg a Ha1). pose proof (shr_1_le a Ha1). lia.
Qed.

Lemma shr_record_of_loc_m (m : Z) (l : location) : shr_m (shr_record_of_loc m l) = m.
Proof. destruct l as [| []]; reflexivity. Qed.

Lemma round_nearest_even_bounds (m : Z) (l : location) :
  m <= round_nearest_even m l <= m + 1.
Proof. unfold round_nearest_even. destruct l as [| []]; try destruct (Z.even m); lia. Qed.

Lemma Zdigits2_log2 (m : Z) : 0 < m -> Zdigits2 m = Z.log2 m + 1.
Proof.
  destruct m as [| p | p]; try lia. intros _. simpl.
  assert (H : forall q, Z.pos (digits2_pos q) = Z.pos (Pos.size q)).
  { induction q; simpl; try rewrite !Pos2Z.inj_succ; try rewrite IHq; reflexivity. }
  rewrite H. destruct p; simpl; try rewrite Pos2Z.inj_succ; lia.
Qed.

Lemma Zdigits2_nonneg (m : Z) : 0 <= Zdigits2 m.
Proof. destruct m; simpl; lia. Qed.

Lemma Zdigits2_le (m n : Z) : 0 <= m <= n -> Zdigits2 m <= Zdigits2 n.
Proof.
  intros [Hm Hn]. destruct (Z.eq_dec m 0) as [-> | Hne].
  - apply Zdigits2_nonneg.
  - rewrite !Zdigits2_log2 by lia. pose proof (Z.log2_le_mono m n Hn). lia.
Qed.

Lemma Zdigits2_lt_pow2 (m k : Z) : 0 <= k -> 0 <= m < 2 ^ k -> Zdigits2 m <= k.
Proof.
  intros Hk [Hm Hlt]. destruct (Z.eq_dec m 0) as [-> | Hne]; [simpl; lia |].
  rewrite Zdigits2_log2 by lia.
  pose proof (proj1 (Z.log2_lt_pow2 m k ltac:(lia)) Hlt). lia.
Qed.

(** binary_round_aux on a nonnegative mantissa *)
Lemma binary_round_aux_cases (s : bool) (m e : Z) (l : location) :
  0 <= m ->
  let r := binary_round_aux prec emax s m e l in
  is_nan r = false
  /\ (forall s' m' e', r = S754_finite s' m' e' -> e <= e').
Proof.
  intros Hm r. subst r. unfold binary_round_aux.
  destruct (shr_fexp prec emax m e l) as [mrs' e'] eqn:H1.
  destruct (shr_fexp prec emax (round_nearest_even (shr_m mrs') (loc_of_shr_record mrs')) e' loc_Exact)
    as [mrs'' e''] eqn:H2.
  unfold shr_fexp in H1, H2.
  pose proof (shr_bounds (shr_record_of_loc m l) e
     (fexp prec emax (Zdigits2 m + e) - e)) as B1.
  rewrite shr_record_of_loc_m in B1. specialize (B1 Hm). rewrite H1 in B1. simpl in B1.
  pose proof (round_nearest_even_bounds (shr_m mrs') (loc_of_shr_record mrs')) as R.
  set (m2 := round_nearest_even (shr_m mrs') (loc_of_shr_record mrs')) in *.
  pose proof (shr_bounds (shr_record_of_loc m2 loc_Exact) e'
     (fexp prec emax (Zdigits2 m2 + e') - e')) as B2.
  rewrite shr_record_of_loc_m in B2. specialize (B2 ltac:(lia)). rewrite H2 in B2. simpl in B2.
  destruct (shr_m mrs'') as [| p | p] eqn:Hm''.
  - split; [reflexivity | intros; discriminate].
  - destruct (e'' <=? emax - prec); (split; [reflexivity |]); intros s' m' e'0 Heq; inversion Heq; subst; lia.
  - lia.
Qed.

Lemma of_Z_not_nan (z : Z) : is_nan (of_Z z) = false.
Proof.
  unfold of_Z, binary_normalize. destruct z as [| p | p]; [reflexivity | |];
  unfold binary_round;
  destruct (shl_align p 0 (fexp prec emax (Z.pos (digits2_pos p) + 0))) as [mz ez];
  apply (binary_round_aux_cases _ (Z.pos mz) ez loc_Exact); lia.
Qed.

Lemma pos_iter_xO (p k : positive) :
  Z.pos (Pos.iter xO p k) = Z.shiftl (Z.pos p) (Z.pos k).
Proof.
  unfold Z.shiftl.
  apply (Pos.iter_swap_gen _ _ Z.pos xO (Z.mul 2)). reflexivity.
Qed.

Lemma digits2_pos_iter_xO (p k : positive) :
  digits2_pos (Pos.iter xO p k) = (digits2_pos p + k)%positive.
Proof.
  rewrite (Pos.iter_swap_gen _ _ digits2_pos xO Pos.succ) by reflexivity.
  induction k using Pos.peano_ind.
  - simpl. lia.
  - rewrite Pos.iter_succ, IHk. lia.
Qed.

Lemma binary_round_aux_exact (s : bool) (m : positive) (e : Z) :
  fexp prec emax (Z.pos (digits2_pos m) + e) = e ->
  e <= emax - prec ->
  binary_round_aux prec emax s (Z.pos m) e loc_Exact = S754_finite s m e.
Proof.
  intros Hf He. unfold binary_round_aux, shr_fexp.
  cbn [Zdigits2 shr_record_of_loc]. rewrite Hf, Z.sub_diag.
  cbn [shr shr_m loc_of_shr_record round_nearest_even Zdigits2 shr_record_of_loc].
  rewrite Hf, Z.sub_diag. cbn [shr shr_m].
  destruct (Z.leb_spec e (emax - prec)); [reflexivity | lia].
Qed.

Lemma fexp_digits (d : Z) : 1 <= d -> fexp prec emax d = d - prec.
Proof. intros Hd. unfold fexp, emin, prec, emax. lia. Qed.

(** A nonzero integer of at most 53 bits converts exactly. *)
Lemma binary_round_small (s : bool) (p : positive) :
  Z.pos (digits2_pos p) <= prec ->
  exists m e,
    binary_round prec emax s p 0 = S754_finite s m e
    /\ e <= 0 /\ Z.pos m = Z.shiftl (Z.pos p) (- e).
Proof.
  intros Hd. unfold binary_round.
  rewrite Z.add_0_r, fexp_digits by lia.
  unfold shl_align. rewrite Z.sub_0_r.
  destruct (Z.pos (digits2_pos p) - prec) as [| k | k] eqn:Hk; try lia.
  - exists p, 0. split; [| split; [lia | reflexivity]].
    apply binary_round_aux_exact; [| unfold emax, prec; lia].
    rewrite Z.add_0_r, fexp_digits by lia. lia.
  - exists (Pos.iter xO p k), (Z.neg k). split; [| split; [lia |]].
    + apply binary_round_aux_exact; [| unfold emax, prec; lia].
      rewrite digits2_pos_iter_xO, Pos2Z.inj_add.
      rewrite fexp_digits by lia. lia.
    + rewrite pos_iter_xO. reflexivity.
Qed.

Lemma shiftl_integer (p m : positive) (e : Z) :
  e <= 0 -> Z.pos m = Z.shiftl (Z.pos p) (- e) ->
  has_fraction m e = false /\ magnitude_floor m e = Z.pos p.
Proof.
  intros He Hm. unfold has_fraction, magnitude_floor.
  destruct (Z.leb_spec 0 e).
  - assert (e = 0) by lia. subst e. simpl in *. split; [reflexivity |].
    rewrite Hm. reflexivity.
  - rewrite Hm. rewrite Z.shiftr_shiftl_l by lia. rewrite Z.sub_diag.
    rewrite Z.shiftl_0_r. rewrite Z.eqb_refl. split; reflexivity.
Qed.

Lemma digits_small (p : positive) :
  Z.pos p < 2 ^ 53 -> Z.pos (digits2_pos p) <= prec.
Proof.
  intros H. change (Z.pos (digits2_pos p)) with (Zdigits2 (Z.pos p)).
  apply Zdigits2_lt_pow2; unfold prec; lia.
Qed.

Lemma of_Z_exact (z : Z) :
  - 2 ^ 53 < z < 2 ^ 53 -> trunc_Z (of_Z z) = Some z /\ integer_valued (of_Z z) = true.
Proof.
  intros Hz. unfold of_Z, binary_normalize.
  destruct z as [| p | p]; [split; reflexivity | |].
  - destruct (binary_round_small false p) as [m [e [-> [He Hm]]]];
      [apply digits_small; lia |].
    destruct (shiftl_integer p m e He Hm) as [Hf Hmag].
    simpl. rewrite Hf, Hmag. split; reflexivity.
  - destruct (binary_round_small true p) as [m [e [-> [He Hm]]]];
      [apply digits_small; lia |].
    destruct (shiftl_integer p m e He Hm) as [Hf Hmag].
    simpl. rewrite Hf, Hmag. split; reflexivity.
Qed.

(** Rounding a nonnegative integer below 2^64 from exponent 0 gives a
    finite double with a nonnegative exponent, or zero. *)
Lemma binary_round_aux_integer (s : bool) (m : Z) (l : location) :
  0 <= m < 2 ^ 64 ->
  integer_valued (binary_round_aux prec emax s m 0 l) = true.
Proof.
  intros Hm. unfold binary_round_aux.
  destruct (shr_fexp prec emax m 0 l) as [mrs' e'] eqn:H1.
  destruct (shr_fexp prec emax (round_nearest_even (shr_m mrs') (loc_of_shr_record mrs')) e' loc_Exact)
    as [mrs'' e''] eqn:H2.
  unfold shr_fexp in H1, H2.
  pose proof (shr_bounds (shr_record_of_loc m l) 0
     (fexp prec emax (Zdigits2 m + 0) - 0)) as B1.
  rewrite shr_record_of_loc_m in B1. specialize (B1 ltac:(lia)). rewrite H1 in B1. simpl in B1.
  pose proof (round_nearest_even_bounds (shr_m mrs') (loc_of_shr_record mrs')) as R.
  set (m2 := round_nearest_even (shr_m mrs') (loc_of_shr_record mrs')) in *.
  pose proof (shr_bounds (shr_record_of_loc m2 loc_Exact) e'
     (fexp prec emax (Zdigits2 m2 + e') - e')) as B2.
  rewrite shr_record_of_loc_m in B2. specialize (B2 ltac:(lia)). rewrite H2 in B2. simpl in B2.
  assert (D1 : 0 <= Zdigits2 m <= 64).
  { split; [apply Zdigits2_nonneg | apply Zdigits2_lt_pow2; lia]. }
  assert (D2 : 0 <= Zdigits2 m2 <= 65).
  { split; [apply Zdigits2_nonneg | apply Zdigits2_lt_pow2; lia]. }
  unfold fexp, emin, prec, emax in *.
  destruct (shr_m mrs'') as [| p | p] eqn:Hm''.
  - reflexivity.
  - destruct (Z.leb_spec e'' (1024 - 53)); [| lia].
    simpl. unfold has_fraction.
    destruct (Z.leb_spec 0 e''); [reflexivity | lia].
  - lia.
Qed.

Lemma of_Z_integer_valued (z : Z) :
  - 2 ^ 64 < z < 2 ^ 64 -> integer_valued (of_Z z) = true.
Proof.
  intros Hz.
  destruct (Z.lt_ge_cases (Z.abs z) (2 ^ 53)) as [Hsmall | Hbig].
  - apply of_Z_exact. lia.
  - unfold of_Z, binary_normalize.
    destruct z as [| p | p]; [reflexivity | |]; unfold binary_round;
    rewrite Z.add_0_r, fexp_digits by lia;
    unfold shl_align; rewrite Z.sub_0_r;
    change (Z.pos (digits2_pos p)) with (Zdigits2 (Z.pos p));
    (assert (Hd : 54 <= Zdigits2 (Z.pos p));
     [ rewrite Zdigits2_log2 by lia;
       pose proof (Z.log2_le_pow2 (Z.pos p) 53 ltac:(lia)); lia |]);
    (destruct (Zdigits2 (Z.pos p) - prec) as [| k | k] eqn:Hk;
     unfold prec in *; try lia);
    apply binary_round_aux_integer; lia.
Qed.

Lemma of_Z_injective (z1 z2 : Z) :
  - 2 ^ 53 < z1 < 2 ^ 53 -> - 2 ^ 53 < z2 < 2 ^ 53 ->
  of_Z z1 = of_Z z2 -> z1 = z2.
Proof.
  intros H1 H2 Heq.
  pose proof (proj1 (of_Z_exact z1 H1)) as E1.
  pose proof (proj1 (of_Z_exact z2 H2)) as E2.
  rewrite Heq in E1. congruence.
Qed.

(** Shifting out the zeros below a mantissa leaves no remainder. *)
Lemma shr_exact (n m : positive) :
  iter_pos shr_1 n (Build_shr_record (Z.pos (Pos.iter xO m n)) false false)
  = Build_shr_record (Z.pos m) false false.
Proof.
  revert m. induction n as [n IH | n IH |]; intros m; cbn [iter_pos Pos.iter].
  - cbn [shr_1 orb]. rewrite IH, IH. reflexivity.
  - rewrite IH, IH. reflexivity.
  - reflexivity.
Qed.

Lemma fexp_normal (e : Z) : -1074 <= e -> fexp prec emax (53 + e) = e.
Proof. intros He. unfold fexp, emin, prec, emax. lia. Qed.

(** A mantissa of 53 bits followed by [j] zeros rounds to itself. *)
Lemma binary_round_of_normal (s : bool) (q P : positive) (j E : Z) :
  Z.pos (digits2_pos q) = 53 -> 0 <= j ->
  Z.pos P = Z.shiftl (Z.pos q) j ->
  -1074 <= E + j <= 971 ->
  binary_round prec emax s P E = S754_finite s q (E + j).
Proof.
  intros Hd Hj HP HE.
  destruct j as [| n | n]; try lia.
  - rewrite Z.shiftl_0_r in HP. injection HP as ->. rewrite Z.add_0_r in *.
    unfold binary_round. rewrite Hd, fexp_normal by lia.
    unfold shl_align. rewrite Z.sub_diag.
    apply binary_round_aux_exact; [rewrite Hd; apply fexp_normal; lia |].
    unfold emax, prec. lia.
  - rewrite <- pos_iter_xO in HP. injection HP as ->.
    unfold binary_round. rewrite digits2_pos_iter_xO, Pos2Z.inj_add, Hd.
    replace (53 + Z.pos n + E) with (53 + (E + Z.pos n)) by lia.
    rewrite fexp_normal by lia.
    unfold shl_align.
    replace (E + Z.pos n - E) with (Z.pos n) by lia.
    unfold binary_round_aux, shr_fexp.
    cbn [Zdigits2 shr_record_of_loc].
    rewrite digits2_pos_iter_xO, Pos2Z.inj_add, Hd.
    replace (53 + Z.pos n + E) with (53 + (E + Z.pos n)) by lia.
    rewrite fexp_normal by lia.
    replace (E + Z.pos n - E) with (Z.pos n) by lia.
    cbn [shr]. rewrite shr_exact.
    cbn [shr_m loc_of_shr_record round_nearest_even Zdigits2 shr_record_of_loc].
    rewrite Hd, fexp_normal by lia. rewrite Z.sub_diag. cbn [shr shr_m].
    destruct (Z.leb_spec (E + Z.pos n) (emax - prec)); [reflexivity |].
    unfold emax, prec in *. lia.
Qed.

(** The double of a positive integer of at most 53 bits: its bits, moved
    up to fill the 53 bits of the mantissa. *)
Lemma of_Z_normal (p : positive) :
  Z.pos p < 2 ^ 53 ->
  exists m e,
    of_Z (Z.pos p) = S754_finite false m e
    /\ Z.pos (digits2_pos m) = 53
    /\ -52 <= e <= 0
    /\ Z.pos m = Z.shiftl (Z.pos p) (- e).
Proof.
  intros Hp. pose proof (digits_small p Hp) as Hd.
  unfold of_Z, binary_normalize, binary_round.
  rewrite Z.add_0_r, fexp_digits by lia.
  unfold shl_align. rewrite Z.sub_0_r.
  assert (Hone : 1 <= Z.pos (digits2_pos p)) by lia.
  destruct (Z.pos (digits2_pos p) - prec) as [| k | k] eqn:Hk;
    unfold prec in Hk, Hd; try lia.
  - exists p, 0. split; [| split; [lia | split; [lia | reflexivity]]].
    apply binary_round_aux_exact; [| unfold emax, prec; lia].
    rewrite Z.add_0_r, fexp_digits by lia. unfold prec. lia.
  - exists (Pos.iter xO p k), (Z.neg k).
    split; [| split; [| split; [lia |]]].
    + apply binary_round_aux_exact; [| unfold emax, prec; lia].
      rewrite digits2_pos_iter_xO, Pos2Z.inj_add.
      rewrite fexp_digits by lia. unfold prec. lia.
    + rewrite digits2_pos_iter_xO, Pos2Z.inj_add. lia.
    + rewrite pos_iter_xO. reflexivity.
Qed.

Lemma shl_align_value (m : positive) (e e' : Z) :
  e' <= e ->
  Z.pos (fst (shl_align m e e')) = Z.shiftl (Z.pos m) (e - e').
Proof.
  intros He. unfold shl_align.
  destruct (e' - e) as [| k | k] eqn:Hk; try lia.
  - replace (e - e') with 0 by lia. reflexivity.
  - cbn [fst]. rewrite pos_iter_xO. f_equal. lia.
Qed.

(** Adding 1 to the double of an integer below [2^53 - 1] is exact. *)
Lemma add_one_exact (q : Z) :
  0 <= q < 2 ^ 53 - 1 -> add (of_Z q) (of_Z 1) = of_Z (q + 1).
Proof.
  intros Hq. destruct q as [| p |]; [reflexivity | | lia].
  destruct (of_Z_normal p) as [m [e [Hof [Hdm [He Hm]]]]]; [lia |].
  replace (Z.pos p + 1) with (Z.pos (p + 1)) by lia.
  destruct (of_Z_normal (p + 1)) as [m' [e' [Hof' [Hdm' [He' Hm']]]]]; [lia |].
  rewrite Hof, Hof'.
  change (of_Z 1) with (S754_finite false 4503599627370496 (-52)).
  unfold add, SFadd. cbn [cond_Zopp].
  replace (Z.min e (-52)) with (-52) by lia.
  rewrite shl_align_value by lia.
  rewrite shl_align_value by lia.
  rewrite Hm. rewrite Z.shiftl_shiftl by lia.
  replace (- e + (e - -52)) with 52 by lia.
  replace (-52 - -52) with 0 by lia. rewrite Z.shiftl_0_r.
  change (Z.pos 4503599627370496) with (Z.shiftl 1 52).
  assert (Hsum : Z.shiftl (Z.pos p) 52 + Z.shiftl 1 52
                 = Z.shiftl (Z.pos m') (52 + e')).
  { rewrite Hm'. rewrite Z.shiftl_shiftl by lia.
    replace (- e' + (52 + e')) with 52 by lia.
    rewrite !Z.shiftl_mul_pow2 by lia. lia. }
  rewrite Hsum.
  destruct (Z.shiftl (Z.pos m') (52 + e')) as [| S | S] eqn:HS.
  - rewrite Z.shiftl_mul_pow2 in HS by lia.
    pose proof (Z.pow_pos_nonneg 2 (52 + e') ltac:(lia) ltac:(lia)). nia.
  - unfold binary_normalize.
    rewrite (binary_round_of_normal false m' S (52 + e') (-52));
      try assumption; try lia.
    f_equal. lia.
  - rewrite Z.shiftl_mul_pow2 in HS by lia.
    pose proof (Z.pow_pos_nonneg 2 (52 + e') ltac:(lia) ltac:(lia)). nia.
Qed.

End IntegersAsDoubles.

(* ================================================================== *)
(** ** C6: missing in, missing out *)


Section MissingSlots.

Import Distance.
















Context {host : Collaborators}.



End MissingSlots.

(** *** The calls: loops, dispatchers and the entry point *)

Section Calls.

Import Distance.

Context {host : Collaborators}.












Section SubDayLoops.

Variables (every : Z) (origin : SEXP).



















End SubDayLoops.





End Calls.


(* ================================================================== *)
(** ** C10: the outputs hold integers *)


Section IntegerOutputs.

Import Distance.

Lemma every_int_range (ne : bool) (every elt : Z) :
  in_int elt -> in_int (every_int ne every elt).
Proof.
  intros Helt. unfold every_int, idiv.
  destruct ne; simpl; [| assumption].
  destruct (elt <? 0); apply int_range.
Qed.

Lemma every_int64_range (ne : bool) (every elt : Z) :
  in_int64 elt -> in_int64 (every_int64 ne every elt).
Proof.
  intros Helt. unfold every_int64, ldiv.
  destruct ne; simpl; [| assumption].
  destruct (elt <? 0); apply int64_range.
Qed.

Lemma widened_int (q : Z) :
  in_int q -> widened INT_MIN INT_MAX (of_Z q) /\ holds_exactly (of_Z q).
Proof.
  intros Hq.
  assert (H53 : - 2 ^ 53 < q < 2 ^ 53) by (unfold_bounds; lia).
  destruct (of_Z_exact q H53) as [Ht Hi].
  split.
  - exists q. repeat split; try assumption; apply Hq.
  - exists q. split; [reflexivity | assumption].
Qed.

Lemma widened_int64 (q : Z) :
  in_int64 q -> widened INT64_MIN INT64_MAX (of_Z q).
Proof.
  intros Hq. exists q. repeat split; try apply Hq.
  apply of_Z_integer_valued. unfold_bounds. lia.
Qed.

Lemma offset_distance_elt_integer (no : bool) (o : Z) (ne : bool) (every elt : Z) :
  in_int elt ->
  let d := offset_distance_elt no o ne every elt in
  is_nan d = true \/ (widened INT_MIN INT_MAX d /\ holds_exactly d).
Proof.
  intros Helt d. subst d. unfold offset_distance_elt, offset_distance_bucket.
  destruct (elt =? NA_INTEGER); [left; reflexivity | right].
  apply widened_int, every_int_range, in_int_offset, Helt.
Qed.

Lemma dbl_posixct_second_elt_integer (no : bool) (o : Z) (ne : bool)
    (every : Z) (x_elt : double) :
  let d := dbl_posixct_warp_distance_second_elt no o ne every x_elt in
  is_nan d = true \/ widened INT64_MIN INT64_MAX d.
Proof.
  intros d. subst d.
  unfold dbl_posixct_warp_distance_second_elt,
    dbl_posixct_warp_distance_second_bucket.
  destruct (negb (R_FINITE x_elt)); [left; reflexivity | right].
  apply widened_int64, every_int64_range, in_int64_offset, guarded_floor_range.
Qed.

End IntegerOutputs.

(** *** The slots of every loop, dispatcher and call *)

Section Slots.

Import Distance.

Lemma int_slot_int64_slot (d : double) : int_slot d -> int64_slot d.
Proof.
  intros [H | [[q [Hq [Hd Hi]]] _]]; [now left | right].
  exists q. repeat split; try assumption; unfold_bounds; lia.
Qed.

Lemma store_int_slot (b : option Z) :
  match b with Some q => in_int q | None => True end -> int_slot (store b).
Proof.
  destruct b as [q |]; [| left; reflexivity].
  intros Hq. right. now apply widened_int.
Qed.

Lemma store_int64_slot (b : option Z) :
  match b with Some q => in_int64 q | None => True end ->
  int64_slot (store b).
Proof.
  destruct b as [q |]; [| left; reflexivity].
  intros Hq. right. now apply widened_int64.
Qed.

(** Equal doubles come from equal buckets, for buckets below [2^53]. *)
Lemma store_exact (b1 b2 : option Z) :
  exact_bucket b1 -> exact_bucket b2 ->
  (store b1 = store b2 <-> b1 = b2).
Proof.
  intros H1 H2. split; [| congruence].
  destruct b1 as [q1 |], b2 as [q2 |]; cbn [store exact_bucket] in *.
  - intros E. f_equal. now apply of_Z_injective.
  - intros E. pose proof (of_Z_not_nan q1) as Hn. rewrite E in Hn.
    discriminate.
  - intros E. pose proof (of_Z_not_nan q2) as Hn. rewrite <- E in Hn.
    discriminate.
  - reflexivity.
Qed.

Lemma exact_of_int (b : option Z) :
  match b with Some q => in_int q | None => True end -> exact_bucket b.
Proof. destruct b as [q |]; [| trivial]. unfold_bounds. cbn. lia. Qed.

(** *** The range of the bucket of each loop body *)

Lemma offset_distance_bucket_int (no : bool) (o : Z) (ne : bool)
    (every elt : Z) :
  in_int elt ->
  match offset_distance_bucket no o ne every elt with
  | Some q => in_int q
  | None => True
  end.
Proof.
  intros Helt. unfold offset_distance_bucket.
  destruct (elt =? NA_INTEGER); [trivial |].
  apply every_int_range, in_int_offset, Helt.
Qed.

Lemma yday_bucket_int (s : yday_setup) (every days yo yd : Z) :
  in_int (yday_bucket s every days yo yd).
Proof. unfold yday_bucket, compute_yday_distance, iadd. apply int_range. Qed.

Lemma posixlt_yday_bucket_int (s : yday_setup) (every year yd : Z) :
  match posixlt_warp_distance_yday_bucket s every year yd with
  | Some q => in_int q
  | None => True
  end.
Proof.
  unfold posixlt_warp_distance_yday_bucket.
  destruct (year =? NA_INTEGER); [trivial | apply yday_bucket_int].
Qed.

Lemma int_date_int_bucket_int (u : Z) (no : bool) (o : Z) (ne : bool)
    (every elt : Z) :
  match int_date_int_bucket u no o ne every elt with
  | Some q => in_int q
  | None => True
  end.
Proof.
  unfold int_date_int_bucket.
  destruct (elt =? NA_INTEGER); [trivial |].
  apply every_int_range. unfold imul. apply int_range.
Qed.

Lemma dbl_date_int_bucket_int (u : Z) (no : bool) (o : Z) (ne : bool)
    (every : Z) (x_elt : double) :
  match dbl_date_int_bucket u no o ne every x_elt with
  | Some q => in_int q
  | None => True
  end.
Proof.
  unfold dbl_date_int_bucket.
  destruct (negb (R_FINITE x_elt)); [trivial |].
  apply every_int_range. unfold imul. apply int_range.
Qed.

Lemma int_date_int64_bucket_int64 (u : Z) (no : bool) (o : Z) (ne : bool)
    (every x_elt : Z) :
  match int_date_int64_bucket u no o ne every x_elt with
  | Some q => in_int64 q
  | None => True
  end.
Proof.
  unfold int_date_int64_bucket.
  destruct (x_elt =? NA_INTEGER); [trivial |].
  apply every_int64_range. unfold lmul. apply int64_range.
Qed.

Lemma dbl_date_int64_bucket_int64 (u : Z) (no : bool) (o : Z) (ne : bool)
    (every : Z) (x_elt : double) :
  match dbl_date_int64_bucket u no o ne every x_elt with
  | Some q => in_int64 q
  | None => True
  end.
Proof.
  unfold dbl_date_int64_bucket.
  destruct (negb (R_FINITE x_elt)); [trivial |].
  apply every_int64_range. unfold lmul. apply int64_range.
Qed.

Lemma int_posixct_unit_bucket_int64 (u : Z) (no : bool) (o : Z) (ne : bool)
    (every x_elt : Z) :
  match int_posixct_unit_bucket u no o ne every x_elt with
  | Some q => in_int64 q
  | None => True
  end.
Proof.
  unfold int_posixct_unit_bucket.
  destruct (x_elt =? NA_INTEGER); [trivial |].
  apply every_int64_range, seconds_to_unit_range.
Qed.

Lemma dbl_posixct_unit_bucket_int64 (u : Z) (no : bool) (o : Z) (ne : bool)
    (every : Z) (x_elt : double) :
  match dbl_posixct_unit_bucket u no o ne every x_elt with
  | Some q => in_int64 q
  | None => True
  end.
Proof.
  unfold dbl_posixct_unit_bucket.
  destruct (negb (R_FINITE x_elt)); [trivial |].
  apply every_int64_range, seconds_to_unit_range.
Qed.

Lemma int_posixct_second_bucket_int64 (no : bool) (o : Z) (ne : bool)
    (every x_elt : Z) :
  match int_posixct_warp_distance_second_bucket no o ne every x_elt with
  | Some q => in_int64 q
  | None => True
  end.
Proof.
  unfold int_posixct_warp_distance_second_bucket.
  destruct (x_elt =? NA_INTEGER); [trivial |].
  apply every_int64_range, in_int64_offset, int64_range.
Qed.

Lemma dbl_posixct_second_bucket_int64 (no : bool) (o : Z) (ne : bool)
    (every : Z) (x_elt : double) :
  match dbl_posixct_warp_distance_second_bucket no o ne every x_elt with
  | Some q => in_int64 q
  | None => True
  end.
Proof.
  unfold dbl_posixct_warp_distance_second_bucket.
  destruct (negb (R_FINITE x_elt)); [trivial |].
  apply every_int64_range, in_int64_offset, guarded_floor_range.
Qed.

Lemma int_posixct_millisecond_bucket_int64 (no : bool) (o : Z) (ne : bool)
    (every x_elt : Z) :
  match int_posixct_warp_distance_millisecond_bucket no o ne every x_elt with
  | Some q => in_int64 q
  | None => True
  end.
Proof.
  unfold int_posixct_warp_distance_millisecond_bucket.
  destruct (x_elt =? NA_INTEGER); [trivial |].
  apply every_int64_range, in_int64_offset, int64_range.
Qed.

Lemma dbl_posixct_millisecond_bucket_int64 (no : bool) (o : Z) (ne : bool)
    (every : Z) (x_elt : double) :
  match dbl_posixct_warp_distance_millisecond_bucket no o ne every x_elt with
  | Some q => in_int64 q
  | None => True
  end.
Proof.
  unfold dbl_posixct_warp_distance_millisecond_bucket.
  destruct (negb (R_FINITE x_elt)); [trivial |].
  apply every_int64_range, in_int64_offset,
    guarded_floor_to_millisecond_range.
Qed.

(** *** The outputs of the loops *)

Lemma outputs_map_bind {A : Type} (P : double -> Prop) (xs : list A)
    (o : result Z) (g : Z -> A -> double) :
  (forall o' x, In x xs -> P (g o' x)) ->
  Forall P (outputs (o' <- o ;; Ok (map (g o') xs))).
Proof.
  intros Hg. destruct o as [o' | fn msg]; cbn [bind outputs];
    [| constructor].
  apply Forall_map, Forall_forall. intros x Hx. now apply Hg.
Qed.

Context {host : Collaborators}.

Lemma int_date_yday_bucket_int (s : yday_setup) (every elt : Z) :
  match int_date_warp_distance_yday_bucket s every elt with
  | Some q => in_int q
  | None => True
  end.
Proof.
  unfold int_date_warp_distance_yday_bucket.
  destruct (elt =? NA_INTEGER); [trivial | apply yday_bucket_int].
Qed.

Lemma dbl_date_yday_bucket_int (s : yday_setup) (every : Z)
    (x_elt : double) :
  match dbl_date_warp_distance_yday_bucket s every x_elt with
  | Some q => in_int q
  | None => True
  end.
Proof.
  unfold dbl_date_warp_distance_yday_bucket.
  destruct (negb (R_FINITE x_elt)); [trivial | apply yday_bucket_int].
Qed.

Lemma offsets_distance_slots (get : SEXP -> list Z) (fn : string)
    (x : SEXP) (every : Z) (origin : SEXP) :
  Forall in_int (get x) ->
  Forall int_slot (outputs (offsets_distance get fn x every origin)).
Proof.
  intros Hx. unfold offsets_distance. apply outputs_map_bind.
  intros o' elt Hin. rewrite Forall_forall in Hx.
  apply store_int_slot, offset_distance_bucket_int. now apply Hx.
Qed.

Lemma posixlt_yday_slots (x : SEXP) (every : Z) (origin : SEXP) :
  Forall int_slot (outputs (posixlt_warp_distance_yday x every origin)).
Proof.
  unfold posixlt_warp_distance_yday.
  destruct (VECTOR_ELT x 5) as [year |]; cbn [bind outputs]; [| constructor].
  destruct (VECTOR_ELT x 7) as [yd |]; cbn [bind outputs]; [| constructor].
  destruct year; try constructor. destruct yd; try constructor.
  cbn [outputs]. apply Forall_map, Forall_forall. intros i _.
  apply store_int_slot, posixlt_yday_bucket_int.
Qed.

Section Loops.

Variables (every : Z) (origin : SEXP).

Ltac slots_of_loop lem :=
  intros; apply outputs_map_bind; intros;
  first [ apply store_int_slot | apply store_int64_slot ]; apply lem.

Lemma int_date_yday_slots (p_x : list Z) :
  Forall int_slot (outputs (int_date_warp_distance_yday p_x every origin)).
Proof.
  cbn [int_date_warp_distance_yday outputs].
  apply Forall_map, Forall_forall. intros elt _.
  apply store_int_slot, int_date_yday_bucket_int.
Qed.

Lemma dbl_date_yday_slots (p_x : list double) :
  Forall int_slot (outputs (dbl_date_warp_distance_yday p_x every origin)).
Proof.
  cbn [dbl_date_warp_distance_yday outputs].
  apply Forall_map, Forall_forall. intros elt _.
  apply store_int_slot, dbl_date_yday_bucket_int.
Qed.

Lemma int_date_hour_slots (p_x : list Z) :
  Forall int_slot (outputs (int_date_warp_distance_hour p_x every origin)).
Proof. slots_of_loop int_date_int_bucket_int. Qed.

Lemma int_date_minute_slots (p_x : list Z) :
  Forall int_slot (outputs (int_date_warp_distance_minute p_x every origin)).
Proof. slots_of_loop int_date_int_bucket_int. Qed.

Lemma dbl_date_hour_slots (p_x : list double) :
  Forall int_slot (outputs (dbl_date_warp_distance_hour p_x every origin)).
Proof. slots_of_loop dbl_date_int_bucket_int. Qed.

Lemma dbl_date_minute_slots (p_x : list double) :
  Forall int_slot (outputs (dbl_date_warp_distance_minute p_x every origin)).
Proof. slots_of_loop dbl_date_int_bucket_int. Qed.

Lemma int_date_second_slots (p_x : list Z) :
  Forall int64_slot
    (outputs (int_date_warp_distance_second p_x every origin)).
Proof. slots_of_loop int_date_int64_bucket_int64. Qed.

Lemma int_date_millisecond_slots (p_x : list Z) :
  Forall int64_slot
    (outputs (int_date_warp_distance_millisecond p_x every origin)).
Proof. slots_of_loop int_date_int64_bucket_int64. Qed.

Lemma dbl_date_second_slots (p_x : list double) :
  Forall int64_slot
    (outputs (dbl_date_warp_distance_second p_x every origin)).
Proof. slots_of_loop dbl_date_int64_bucket_int64. Qed.

Lemma dbl_date_millisecond_slots (p_x : list double) :
  Forall int64_slot
    (outputs (dbl_date_warp_distance_millisecond p_x every origin)).
Proof. slots_of_loop dbl_date_int64_bucket_int64. Qed.

Lemma int_posixct_hour_slots (p_x : list Z) :
  Forall int64_slot
    (outputs (int_posixct_warp_distance_hour p_x every origin)).
Proof. slots_of_loop int_posixct_unit_bucket_int64. Qed.

Lemma int_posixct_minute_slots (p_x : list Z) :
  Forall int64_slot
    (outputs (int_posixct_warp_distance_minute p_x every origin)).
Proof. slots_of_loop int_posixct_unit_bucket_int64. Qed.

Lemma dbl_posixct_hour_slots (p_x : list double) :
  Forall int64_slot
    (outputs (dbl_posixct_warp_distance_hour p_x every origin)).
Proof. slots_of_loop dbl_posixct_unit_bucket_int64. Qed.

Lemma dbl_posixct_minute_slots (p_x : list double) :
  Forall int64_slot
    (outputs (dbl_posixct_warp_distance_minute p_x every origin)).
Proof. slots_of_loop dbl_posixct_unit_bucket_int64. Qed.

Lemma int_posixct_second_slots (p_x : list Z) :
  Forall int64_slot
    (outputs (int_posixct_warp_distance_second p_x every origin)).
Proof. slots_of_loop int_posixct_second_bucket_int64. Qed.

Lemma dbl_posixct_second_slots (p_x : list double) :
  Forall int64_slot
    (outputs (dbl_posixct_warp_distance_second p_x every origin)).
Proof. slots_of_loop dbl_posixct_second_bucket_int64. Qed.

Lemma int_posixct_millisecond_slots (p_x : list Z) :
  Forall int64_slot
    (outputs (int_posixct_warp_distance_millisecond p_x every origin)).
Proof. slots_of_loop int_posixct_millisecond_bucket_int64. Qed.

Lemma dbl_posixct_millisecond_slots (p_x : list double) :
  Forall int64_slot
    (outputs (dbl_posixct_warp_distance_millisecond p_x every origin)).
Proof. slots_of_loop dbl_posixct_millisecond_bucket_int64. Qed.

End Loops.

Lemma Forall_int64_slot (l : list double) :
  Forall int_slot l -> Forall int64_slot l.
Proof. apply Forall_impl, int_slot_int64_slot. Qed.

Lemma by_storage_slots (P : double -> Prop) (fn : string)
    (on_int : list Z -> Z -> SEXP -> result (list double))
    (on_dbl : list double -> Z -> SEXP -> result (list double))
    (x : SEXP) (every : Z) (origin : SEXP) :
  (forall p_x, Forall P (outputs (on_int p_x every origin))) ->
  (forall p_x, Forall P (outputs (on_dbl p_x every origin))) ->
  Forall P (outputs (by_storage fn on_int on_dbl x every origin)).
Proof.
  intros Hint Hdbl. unfold by_storage.
  destruct x; try constructor; [apply Hint | apply Hdbl].
Qed.

Lemma by_class_slots (P : double -> Prop) (fn : string)
    (on_date on_posixct : SEXP -> Z -> SEXP -> result (list double))
    (x : SEXP) (every : Z) (origin : SEXP) :
  (forall y, Forall P (outputs (on_date y every origin))) ->
  (forall y, Forall P (outputs (on_posixct y every origin))) ->
  Forall P (outputs (by_class fn on_date on_posixct x every origin)).
Proof.
  intros Hdate Hct. unfold by_class.
  destruct (time_class_type x); try constructor;
    [apply Hdate | apply Hct | apply Hct].
Qed.

Lemma yday_slots (x : SEXP) (every : Z) (origin : SEXP) :
  Forall int_slot (outputs (warp_distance_yday x every origin)).
Proof.
  unfold warp_distance_yday.
  destruct (time_class_type x); try constructor.
  - unfold date_warp_distance_yday.
    destruct x; try constructor;
      [apply int_date_yday_slots | apply dbl_date_yday_slots].
  - apply posixlt_yday_slots.
  - apply posixlt_yday_slots.
Qed.

(** Each period, as [warp_distance] calls it, under the hypothesis that
    the offsets of [x] are values of an [int] vector. *)
Lemma period_slots (type : warp_period_type) (x : SEXP) (every : Z)
    (origin : SEXP) :
  Forall in_int (get_year_offset x) ->
  Forall in_int (get_month_offset x) ->
  Forall in_int (get_day_offset x) ->
  Forall int64_slot
    (outputs
       match type with
       | warp_period_year => warp_distance_year x every origin
       | warp_period_quarter => warp_distance_quarter x every origin
       | warp_period_month => warp_distance_month x every origin
       | warp_period_week => warp_distance_week x every origin
       | warp_period_yweek => warp_distance_yweek x every origin
       | warp_period_day => warp_distance_day x every origin
       | warp_period_yday => warp_distance_yday x every origin
       | warp_period_hour => warp_distance_hour x every origin
       | warp_period_minute => warp_distance_minute x every origin
       | warp_period_second => warp_distance_second x every origin
       | warp_period_millisecond => warp_distance_millisecond x every origin
       end).
Proof.
  intros Hy Hm Hd.
  destruct type.
  - now apply Forall_int64_slot, offsets_distance_slots.
  - now apply Forall_int64_slot, offsets_distance_slots.
  - now apply Forall_int64_slot, offsets_distance_slots.
  - now apply Forall_int64_slot, offsets_distance_slots.
  - apply Forall_int64_slot, yday_slots.
  - now apply Forall_int64_slot, offsets_distance_slots.
  - apply Forall_int64_slot, yday_slots.
  - apply by_class_slots; intros y; apply by_storage_slots; intros p_x;
      first [ apply Forall_int64_slot, int_date_hour_slots
            | apply Forall_int64_slot, dbl_date_hour_slots
            | apply int_posixct_hour_slots
            | apply dbl_posixct_hour_slots ].
  - apply by_class_slots; intros y; apply by_storage_slots; intros p_x;
      first [ apply Forall_int64_slot, int_date_minute_slots
            | apply Forall_int64_slot, dbl_date_minute_slots
            | apply int_posixct_minute_slots
            | apply dbl_posixct_minute_slots ].
  - apply by_class_slots; intros y; apply by_storage_slots; intros p_x;
      first [ apply int_date_second_slots
            | apply dbl_date_second_slots
            | apply int_posixct_second_slots
            | apply dbl_posixct_second_slots ].
  - apply by_class_slots; intros y; apply by_storage_slots; intros p_x;
      first [ apply int_date_millisecond_slots
            | apply dbl_date_millisecond_slots
            | apply int_posixct_millisecond_slots
            | apply dbl_posixct_millisecond_slots ].
Qed.

Lemma warp_distance_slots (x : SEXP) (type : warp_period_type) (every : Z)
    (origin : SEXP) :
  let x' := if is_nil origin then x else convert_time_zone x origin in
  Forall in_int (get_year_offset x') ->
  Forall in_int (get_month_offset x') ->
  Forall in_int (get_day_offset x') ->
  Forall int64_slot (outputs (warp_distance x type every origin)).
Proof.
  intros x' Hy Hm Hd. unfold warp_distance.
  destruct (validate_origin origin) as [[] |]; cbn [bind outputs];
    [| constructor].
  destruct (validate_every every) as [[] |]; cbn [bind outputs];
    [| constructor].
  subst x'.
  destruct (time_class_type x); try constructor;
    destruct (is_nil origin); now apply period_slots.
Qed.

End Slots.

(** C10, as stated, fails for the 64-bit loops: an [int64_t] bucket of
    [2^53] or more in magnitude need not be a double, and the conversion
    rounds.  With the origin [2^60] seconds after the epoch the seconds 0
    and 1 are in the buckets [-2^60] and [-2^60 + 1], which the second
    loop stores as the same double. *)
Lemma C10_wide_buckets_counterexample :
  Distance.posixct_origin_offset (host := UtcHost.host)
    (Examples.POSIXct [of_Z 1152921504606846976])
  = Ok 1152921504606846976
  /\ Distance.dbl_posixct_warp_distance_second_bucket true
       1152921504606846976 false 1 (of_Z 0)
     = Some (-1152921504606846976)
  /\ Distance.dbl_posixct_warp_distance_second_bucket true
       1152921504606846976 false 1 (of_Z 1)
     = Some (-1152921504606846975)
  /\ Examples.distance (Examples.POSIXct [of_Z 0; of_Z 1])
       warp_period_second 1 (Examples.POSIXct [of_Z 1152921504606846976])
     = Ok [of_Z (-1152921504606846976); of_Z (-1152921504606846976)]
  /\ of_Z (-1152921504606846976) = of_Z (-1152921504606846975)
  /\ -1152921504606846976 <> -1152921504606846975.
Proof.
  repeat split; try (vm_compute; reflexivity); vm_compute; discriminate.
Qed.

(** C10, amended.  On every host, each slot of the output of a call of
    [warp_distance] that is not missing is the conversion of an integer
    of the loop and has no fractional part; the hypotheses say that the
    offsets run over are values of an [int] vector.  The same holds of
    every loop and dispatcher.  The buckets of the year, quarter, month,
    week, day, year-day and year-week periods and of the hour and the
    minute of a Date are [int]s, which the double holds exactly; the
    buckets of the second and the millisecond of a Date and of the
    sub-day periods of a POSIXct are [int64_t]s.  Two slots hold equal
    doubles exactly when their buckets are equal, for buckets below
    [2^53] in magnitude, so for every bucket of a 32-bit loop. *)
Theorem C10_outputs_are_integer_valued :
  forall (host : Collaborators) (every : Z) (origin : SEXP),
    (forall x type,
       let x' := if is_nil origin then x else convert_time_zone x origin in
       Forall in_int (get_year_offset x') ->
       Forall in_int (get_month_offset x') ->
       Forall in_int (get_day_offset x') ->
       Forall int64_slot
         (outputs (Distance.warp_distance x type every origin)))
    /\ (forall get fn x,
          Forall in_int (get x) ->
          Forall int_slot
            (outputs (Distance.offsets_distance get fn x every origin)))
    /\ (forall x,
          (Forall in_int (get_year_offset x) ->
           Forall int_slot
             (outputs (Distance.warp_distance_year x every origin)))
          /\ (Forall in_int (get_month_offset x) ->
              Forall int_slot
                (outputs (Distance.warp_distance_quarter x every origin))
              /\ Forall int_slot
                   (outputs (Distance.warp_distance_month x every origin)))
          /\ (Forall in_int (get_day_offset x) ->
              Forall int_slot
                (outputs (Distance.warp_distance_week x every origin))
              /\ Forall int_slot
                   (outputs (Distance.warp_distance_day x every origin)))
          /\ Forall int_slot
               (outputs (Distance.warp_distance_yday x every origin))
          /\ Forall int_slot
               (outputs (Distance.warp_distance_yweek x every origin))
          /\ Forall int_slot
               (outputs (Distance.posixlt_warp_distance_yday x every origin)))
    /\ (forall p_x,
          Forall int_slot
            (outputs (Distance.int_date_warp_distance_yday p_x every origin))
          /\ Forall int_slot
               (outputs (Distance.int_date_warp_distance_hour
                           p_x every origin))
          /\ Forall int_slot
               (outputs (Distance.int_date_warp_distance_minute
                           p_x every origin))
          /\ Forall int64_slot
               (outputs (Distance.int_date_warp_distance_second
                           p_x every origin))
          /\ Forall int64_slot
               (outputs (Distance.int_date_warp_distance_millisecond
                           p_x every origin))
          /\ Forall int64_slot
               (outputs (Distance.int_posixct_warp_distance_hour
                           p_x every origin))
          /\ Forall int64_slot
               (outputs (Distance.int_posixct_warp_distance_minute
                           p_x every origin))
          /\ Forall int64_slot
               (outputs (Distance.int_posixct_warp_distance_second
                           p_x every origin))
          /\ Forall int64_slot
               (outputs (Distance.int_posixct_warp_distance_millisecond
                           p_x every origin)))
    /\ (forall p_x,
          Forall int_slot
            (outputs (Distance.dbl_date_warp_distance_yday p_x every origin))
          /\ Forall int_slot
               (outputs (Distance.dbl_date_warp_distance_hour
                           p_x every origin))
          /\ Forall int_slot
               (outputs (Distance.dbl_date_warp_distance_minute
                           p_x every origin))
          /\ Forall int64_slot
               (outputs (Distance.dbl_date_warp_distance_second
                           p_x every origin))
          /\ Forall int64_slot
               (outputs (Distance.dbl_date_warp_distance_millisecond
                           p_x every origin))
          /\ Forall int64_slot
               (outputs (Distance.dbl_posixct_warp_distance_hour
                           p_x every origin))
          /\ Forall int64_slot
               (outputs (Distance.dbl_posixct_warp_distance_minute
                           p_x every origin))
          /\ Forall int64_slot
               (outputs (Distance.dbl_posixct_warp_distance_second
                           p_x every origin))
          /\ Forall int64_slot
               (outputs (Distance.dbl_posixct_warp_distance_millisecond
                           p_x every origin)))
    /\ (forall b1 b2, exact_bucket b1 -> exact_bucket b2 ->
          (Distance.store b1 = Distance.store b2 <-> b1 = b2))
    /\ (forall q1 q2, in_int q1 -> in_int q2 ->
          exact_bucket (Some q1) /\ (of_Z q1 = of_Z q2 <-> q1 = q2))
    /\ (forall no o ne elt1 elt2, in_int elt1 -> in_int elt2 ->
          (Distance.offset_distance_elt no o ne every elt1
           = Distance.offset_distance_elt no o ne every elt2
           <-> Distance.offset_distance_bucket no o ne every elt1
               = Distance.offset_distance_bucket no o ne every elt2))
    /\ (forall no o ne x1 x2,
          exact_bucket (Distance.dbl_posixct_warp_distance_second_bucket
                          no o ne every x1) ->
          exact_bucket (Distance.dbl_posixct_warp_distance_second_bucket
                          no o ne every x2) ->
          (Distance.dbl_posixct_warp_distance_second_elt no o ne every x1
           = Distance.dbl_posixct_warp_distance_second_elt no o ne every x2
           <-> Distance.dbl_posixct_warp_distance_second_bucket
                 no o ne every x1
               = Distance.dbl_posixct_warp_distance_second_bucket
                   no o ne every x2)).
Proof.
  intros host every origin.
  split; [intros x type; apply warp_distance_slots |].
  split; [intros get fn x; apply offsets_distance_slots |].
  split.
  { intros x.
    split; [apply offsets_distance_slots |].
    split.
    { intros Hm. split; now apply offsets_distance_slots. }
    split.
    { intros Hd. split; now apply offsets_distance_slots. }
    split; [apply yday_slots |].
    split; [apply yday_slots | apply posixlt_yday_slots]. }
  split.
  { intros p_x.
    split; [apply int_date_yday_slots |].
    split; [apply int_date_hour_slots |].
    split; [apply int_date_minute_slots |].
    split; [apply int_date_second_slots |].
    split; [apply int_date_millisecond_slots |].
    split; [apply int_posixct_hour_slots |].
    split; [apply int_posixct_minute_slots |].
    split; [apply int_posixct_second_slots |].
    apply int_posixct_millisecond_slots. }
  split.
  { intros p_x.
    split; [apply dbl_date_yday_slots |].
    split; [apply dbl_date_hour_slots |].
    split; [apply dbl_date_minute_slots |].
    split; [apply dbl_date_second_slots |].
    split; [apply dbl_date_millisecond_slots |].
    split; [apply dbl_posixct_hour_slots |].
    split; [apply dbl_posixct_minute_slots |].
    split; [apply dbl_posixct_second_slots |].
    apply dbl_posixct_millisecond_slots. }
  split; [exact store_exact |].
  split.
  { intros q1 q2 H1 H2. split; [now apply (exact_of_int (Some q1)) |].
    split; [| congruence].
    apply of_Z_injective; unfold_bounds; lia. }
  split.
  { intros no o ne elt1 elt2 H1 H2. unfold Distance.offset_distance_elt.
    apply store_exact; apply exact_of_int;
      now apply offset_distance_bucket_int. }
  intros no o ne x1 x2 H1 H2.
  unfold Distance.dbl_posixct_warp_distance_second_elt.
  now apply store_exact.
Qed.

(* ================================================================== *)
(** ** The scenarios of the specification, on the example host *)

Module Scenarios.

Import Examples.

(** 1970-01-01, 1970-01-02, 1970-01-03 by day. *)
Example scenario_1 :
  distance (Date [0; 1; 2]) warp_period_day 1 epoch = buckets [0; 1; 2].
Proof. vm_compute. reflexivity. Qed.

Example scenario_2 :
  distance (Date [-1; 0; 1]) warp_period_day 1 epoch = buckets [-1; 0; 1].
Proof. vm_compute. reflexivity. Qed.

Example scenario_3 :
  distance (Date [-2; -1; 0; 1]) warp_period_day 2 epoch
  = buckets [-1; -1; 0; 0].
Proof. vm_compute. reflexivity. Qed.

(** 1969-12-31 23:59:59.998 by second and by millisecond. *)
Example scenario_4 :
  distance (POSIXct [nearest_minus_2ms]) warp_period_second 1
    (POSIXct [of_Z 0]) = buckets [-1].
Proof. vm_compute. reflexivity. Qed.

Example scenario_5 :
  distance (POSIXct [nearest_minus_2ms]) warp_period_millisecond 1
    (POSIXct [of_Z 0]) = buckets [-2].
Proof. vm_compute. reflexivity. Qed.

(** 1970-01-15, 1970-02-01, 1971-01-01 by month. *)
Example scenario_6 :
  distance (Date [14; 31; 365]) warp_period_month 1 epoch
  = buckets [0; 1; 12].
Proof. vm_compute. reflexivity. Qed.

(** 2019-01-01, 2019-01-08, 2020-01-01, 2020-02-29, 2020-03-01 by
    year-day in buckets of 7 days from 2019-01-01, and by year-week. *)
Example scenario_7 :
  distance (Date [17897; 17904; 18262; 18321; 18322]) warp_period_yday 7
    (Date [17897]) = buckets [0; 1; 53; 61; 61]
  /\ distance (Date [17897; 17904; 18262; 18321; 18322]) warp_period_yweek 1
       (Date [17897]) = buckets [0; 1; 53; 61; 61].
Proof. split; vm_compute; reflexivity. Qed.

(** The buckets A A B B B C. *)
Example scenario_8 :
  let r := Ranges.warp_ranges (host := UtcHost.host)
             (REALSXP [] (map of_Z [10; 10; 20; 20; 20; 30])) in
  Ranges.stop r = map of_Z [2; 5; 6] /\ Ranges.start r = map of_Z [1; 3; 6].
Proof. split; vm_compute; reflexivity. Qed.

(** The sign test on [int] needs [elt - (every - 1)] to be an [int]: for
    1967 in buckets of [INT_MAX] years the subtraction wraps and the
    quotient is 1, where the floored quotient is -1. *)
Example tail_wraps_for_huge_every :
  Distance.every_int true 2147483647 (-3) = 1
  /\ floor_div (-3) 2147483647 = -1.
Proof. split; vm_compute; reflexivity. Qed.

End Scenarios.

(** The days -2 .. 1 in buckets of two days, by the entry point and by
    the day loop. *)
Lemma C10_outputs_are_integer_valued_witness :
  Forall int64_slot (map of_Z [-1; -1; 0; 0])
  /\ Forall int_slot (map of_Z [-1; -1; 0; 0]).
Proof.
  assert (Hints : Forall in_int [-2; -1; 0; 1])
    by (repeat constructor; unfold_bounds; lia).
  assert (Hmonths : Forall in_int [-1; -1; 0; 0])
    by (repeat constructor; unfold_bounds; lia).
  destruct (C10_outputs_are_integer_valued UtcHost.host 2 Examples.epoch)
    as [Hcall [_ [Hperiods _]]].
  split.
  - exact (Hcall (Examples.Date [-2; -1; 0; 1]) warp_period_day
             Hmonths Hmonths Hints).
  - destruct (Hperiods (Examples.Date [-2; -1; 0; 1]))
      as [_ [_ [Hday _]]].
    exact (proj2 (Hday Hints)).
Defined.

(* ================================================================== *)
(** ** C4: the day count times the units of a day *)

Section DateProducts.

Import Distance.

(** The second and millisecond loops of distance.c convert the day count
    to [int64_t] before they subtract and multiply: their product is the
    exact one for every [int] day count and origin. *)
Lemma int_date_int64_bucket_exact (units : Z) (no : bool) (o x_elt : Z) :
  in_int x_elt -> x_elt <> NA_INTEGER -> in_int o ->
  0 <= units <= MILLISECONDS_IN_DAY ->
  int_date_int64_bucket units no o false 1 x_elt
  = Some (shifted no o x_elt * units).
Proof.
  intros Hx Hna Ho Hu. unfold int_date_int64_bucket, MILLISECONDS_IN_DAY in *.
  destruct (Z.eqb_spec x_elt NA_INTEGER); [contradiction |].
  rewrite every_int64_one. f_equal.
  rewrite (int64_small x_elt) by now apply in_int_in_int64.
  assert (Hs : (if no then lsub x_elt o else x_elt) = shifted no o x_elt).
  { unfold shifted, lsub. destruct no; [| reflexivity].
    apply int64_small. unfold_bounds. lia. }
  rewrite Hs. unfold lmul. apply int64_small.
  assert (-4294967296 <= shifted no o x_elt <= 4294967296)
    by (unfold shifted; destruct no; unfold_bounds; lia).
  unfold_bounds. nia.
Qed.

End DateProducts.

(** C4 does not hold of the code.  The minute loop of distance.c keeps the
    day count in an [int] and multiplies it there: for 6053-01-24, day
    1491309, the product 2147484960 wraps to -2147482336.  The second loop
    of chunk.c multiplies two [int]s before it converts the product: for
    2038-01-20, day 24856, the product 2147558400 wraps to -2147408896. *)
Theorem C4_day_count_product_wraps :
  Examples.distance (Examples.Date [1491309]) warp_period_minute 1
    Examples.epoch = Examples.buckets [-2147482336]
  /\ 1491309 * Distance.MINUTES_IN_DAY = 2147484960
  /\ Chunk.int_date_warp_chunk_second (host := UtcHost.host) [24856] 1
       R_NilValue = Examples.buckets [-2147408896]
  /\ 24856 * Chunk.SECONDS_IN_DAY = 2147558400
  /\ of_Z (-2147482336) <> of_Z 2147484960
  /\ of_Z (-2147408896) <> of_Z 2147558400.
Proof.
  repeat split; try (vm_compute; reflexivity); vm_compute; discriminate.
Qed.

(* ================================================================== *)
(** ** C5: the fractional part of a Date *)

(** C5 does not hold of the year-day loop.  [dbl_date_warp_distance_yday]
    converts the double to [int], which drops the fraction toward zero:
    -1.5 is taken for day -1 (1969-12-31, bucket -1 from the epoch), not
    for day -2 (bucket -2).  The day loop of chunk.c floors a negative
    value first and takes -1.5 for day -2. *)
Theorem C5_yday_truncates_toward_zero :
  to_int minus_one_and_a_half = -1
  /\ to_int (floor minus_one_and_a_half) = -2
  /\ Examples.distance (Examples.DateReal [minus_one_and_a_half])
       warp_period_yday 1 Examples.epoch = Examples.buckets [-1]
  /\ Examples.distance (Examples.Date [-2]) warp_period_yday 1 Examples.epoch
     = Examples.buckets [-2]
  /\ Chunk.dbl_date_warp_chunk_day (host := UtcHost.host)
       [minus_one_and_a_half] 1 Examples.epoch = Ok [-2].
Proof. repeat split; vm_compute; reflexivity. Qed.

(** On every host the year-day loop sends -1.5 where it sends -1. *)
Lemma dbl_date_yday_fraction_dropped (host : Collaborators)
    (s : Distance.yday_setup) (every : Z) :
  Distance.dbl_date_warp_distance_yday_bucket s every minus_one_and_a_half
  = Distance.dbl_date_warp_distance_yday_bucket s every (of_Z (-1)).
Proof. reflexivity. Qed.

(* ================================================================== *)
(** ** C8: validation *)

Section Validation.

Context {host : Collaborators}.

Lemma validate_every_raises (every : Z) :
  raises (Distance.validate_every every)
  <-> every = NA_INTEGER \/ every <= 0.
Proof.
  unfold Distance.validate_every, raises, r_error.
  destruct (Z.eqb_spec every NA_INTEGER) as [Hna | Hna].
  - split; [intros _; now left | intros _; eauto].
  - destruct (Z.leb_spec every 0) as [Hle | Hgt].
    + split; [intros _; now right | intros _; eauto].
    + split; [intros [fn [msg H]]; discriminate | intros [H | H]; [contradiction | lia]].
Qed.

Lemma is_nil_spec (x : SEXP) : is_nil x = true <-> x = R_NilValue.
Proof. destruct x; simpl; split; intros; congruence. Qed.

Lemma validate_origin_raises (origin : SEXP) :
  raises (Distance.validate_origin origin)
  <-> origin <> R_NilValue
      /\ (Rf_length origin <> 1 \/ time_class_type origin = warp_class_unknown).
Proof.
  unfold Distance.validate_origin, raises, r_error.
  destruct (is_nil origin) eqn:Hnil.
  - apply is_nil_spec in Hnil.
    split; [intros [fn [msg H]]; discriminate | intros [H _]; contradiction].
  - assert (Hne : origin <> R_NilValue).
    { intros H. apply is_nil_spec in H. congruence. }
    destruct (Z.eqb_spec (Rf_length origin) 1) as [Hlen | Hlen]; simpl.
    + destruct (time_class_type origin) eqn:Hclass.
      all: split;
        [ intros [fn [msg H]];
          first [discriminate | split; [exact Hne | now right]]
        | intros [_ [H | H]];
          first [contradiction | discriminate | eauto] ].
    + split; [intros _; split; [exact Hne | now left] | intros _; eauto].
Qed.

(** The test [out == NA_REAL] of the origin helpers compares with a NaN
    and is false for every [out]: they never raise their own error. *)
Lemma origin_to_days_from_epoch_never_rejects (origin : SEXP) :
  Distance.origin_to_days_from_epoch origin
  = (v <- REAL (as_date origin) ;; Ok (to_int (first_real v))).
Proof.
  unfold Distance.origin_to_days_from_epoch.
  destruct (REAL (as_date origin)) as [v |]; simpl; [| reflexivity].
  unfold eqb, SFeqb, NA_REAL. destruct (first_real v); reflexivity.
Qed.

Lemma origin_to_seconds_from_epoch_never_rejects (origin : SEXP) :
  Distance.origin_to_seconds_from_epoch origin
  = (v <- REAL (as_datetime origin) ;;
     Ok (Distance.guarded_floor (first_real v))).
Proof.
  unfold Distance.origin_to_seconds_from_epoch.
  destruct (REAL (as_datetime origin)) as [v |]; simpl; [| reflexivity].
  unfold eqb, SFeqb, NA_REAL. destruct (first_real v); reflexivity.
Qed.

(** The conditions [warp_distance] rejects at its entry: the ones of
    [validate_origin] and [validate_every], and an [x] of no time class. *)
Lemma warp_distance_rejects_at_entry
    (x : SEXP) (type : warp_period_type) (every : Z) (origin : SEXP) :
  (every = NA_INTEGER \/ every <= 0)
  \/ (origin <> R_NilValue
      /\ (Rf_length origin <> 1 \/ time_class_type origin = warp_class_unknown))
  \/ time_class_type x = warp_class_unknown ->
  raises (Distance.warp_distance x type every origin).
Proof.
  intros H. unfold Distance.warp_distance.
  destruct (Distance.validate_origin origin) as [[] | fn msg] eqn:Ho;
    [| exists fn, msg; reflexivity].
  destruct (Distance.validate_every every) as [[] | fn msg] eqn:He;
    [| exists fn, msg; reflexivity].
  destruct H as [H | [H | H]].
  - apply validate_every_raises in H. rewrite He in H.
    destruct H as [fn [msg H]]. discriminate.
  - apply validate_origin_raises in H. rewrite Ho in H.
    destruct H as [fn [msg H]]. discriminate.
  - simpl. rewrite H. unfold r_error. eexists. eexists. reflexivity.
Qed.

End Validation.

(** C8 does not hold of the code for a missing origin and a period below
    the day.  The origin [as.Date(NA)] passes [validate_origin] (length 1,
    class Date); the hour loop reads it through
    [origin_to_days_from_epoch], whose test [out == NA_REAL] is false for a
    NaN, and an output is produced with no error.  The year, month and day
    loops test the [int] offset of the origin against [NA_INTEGER] and do
    raise the error. *)
Theorem C8_missing_origin_is_not_rejected :
  let missing_origin := Examples.DateReal [NA_REAL] in
  Distance.validate_origin (host := UtcHost.host) missing_origin = Ok tt
  /\ Examples.distance (Examples.Date [5]) warp_period_hour 1 missing_origin
     = Examples.buckets [120]
  /\ Examples.distance (Examples.Date [5]) warp_period_day 1 missing_origin
     = Error "warp_distance_day" "`origin` cannot be `NA`.".
Proof. repeat split; vm_compute; reflexivity. Qed.

(* ================================================================== *)
(** ** C9: ranges from changes *)

Section RangesFromChanges.

Import Ranges.

Lemma compute_starts_length (p_x : list double) (size : nat) :
  List.length (compute_starts p_x size) = size.
Proof.
  destruct size as [| [| n]]; simpl; try reflexivity.
  now rewrite length_map, length_seq.
Qed.

Lemma compute_starts_first (p_x : list double) (size : nat) :
  (0 < size)%nat -> nth 0 (compute_starts p_x size) NA_REAL = of_Z 1.
Proof. destruct size as [| [| n]]; simpl; [lia | reflexivity | reflexivity]. Qed.

Lemma compute_starts_next (p_x : list double) (size i : nat) :
  (1 <= i < size)%nat ->
  nth i (compute_starts p_x size) NA_REAL
  = add (nth (i - 1) p_x NA_REAL) (of_Z 1).
Proof.
  intros Hi. destruct size as [| [| n]]; [lia | lia |].
  destruct i as [| j]; [lia |].
  cbn [compute_starts nth].
  set (f := fun i0 : nat => add (nth (i0 - 1) p_x NA_REAL) (of_Z 1)).
  rewrite (nth_indep _ NA_REAL (f 0%nat))
    by (rewrite length_map, length_seq; lia).
  rewrite map_nth, seq_nth by lia.
  unfold f. reflexivity.
Qed.

End RangesFromChanges.

(** C9.  On every host and for every [x]: the [stop] column of
    [warp_ranges] is the vector [warp_changes] returns; [start] has the
    same length; [start[0]] is 1 and [start[i]] is [stop[i - 1] + 1] (the
    sum of doubles) for [1 <= i], which is the double of [q + 1] when
    [stop[i - 1]] is the double of an integer [0 <= q < 2^53 - 1]; both
    columns are empty when the changes are, and [start] is [[1]] when
    there is one change. *)
Theorem C9_ranges_round_trip :
  forall (host : Collaborators) (x : SEXP),
    let r := Ranges.warp_ranges x in
    let stops := warp_changes x in
    Ranges.stop r = stops
    /\ List.length (Ranges.start r) = List.length stops
    /\ (stops <> [] -> nth 0 (Ranges.start r) NA_REAL = of_Z 1)
    /\ (forall i, (1 <= i < List.length stops)%nat ->
          nth i (Ranges.start r) NA_REAL
          = add (nth (i - 1) (Ranges.stop r) NA_REAL) (of_Z 1))
    /\ (forall i q, (1 <= i < List.length stops)%nat ->
          nth (i - 1) (Ranges.stop r) NA_REAL = of_Z q ->
          0 <= q < 2 ^ 53 - 1 ->
          nth i (Ranges.start r) NA_REAL = of_Z (q + 1))
    /\ (stops = [] -> Ranges.start r = [] /\ Ranges.stop r = [])
    /\ (forall s, stops = [s] ->
          Ranges.start r = [of_Z 1] /\ Ranges.stop r = [s]).
Proof.
  intros host x r stops. subst r. unfold Ranges.warp_ranges.
  cbn [Ranges.start Ranges.stop]. fold stops.
  split; [reflexivity |].
  split; [apply compute_starts_length |].
  split.
  { intros Hne. apply compute_starts_first.
    destruct stops; [contradiction | simpl; lia]. }
  split; [intros i Hi; now apply compute_starts_next |].
  split.
  { intros i q Hi Hq Hb. rewrite compute_starts_next by exact Hi.
    rewrite Hq. now apply add_one_exact. }
  split.
  { intros ->. split; reflexivity. }
  intros s ->. split; reflexivity.
Qed.

(* ================================================================== *)
(** * Further properties of the embedded code *)

(** ** The order and the width of the buckets *)

Section BucketLayout.

Import Distance.

Lemma floor_div_mono (a b c : Z) :
  1 <= c -> a <= b -> floor_div a c <= floor_div b c.
Proof.
  intros Hc Hab. rewrite !floor_div_div by lia.
  apply Z.div_le_mono; lia.
Qed.

Lemma floor_div_shift (a n c : Z) :
  1 <= c -> floor_div (a + n * c) c = floor_div a c + n.
Proof.
  intros Hc. rewrite !floor_div_div by lia. apply Z.div_add. lia.
Qed.

Lemma shifted_mono (no : bool) (o e1 e2 : Z) :
  e1 <= e2 -> shifted no o e1 <= shifted no o e2.
Proof. unfold shifted. destruct no; lia. Qed.

Lemma shifted_add (no : bool) (o e d : Z) :
  shifted no o (e + d) = shifted no o e + d.
Proof. unfold shifted. destruct no; lia. Qed.

(** The second loop of an integer POSIXct is the floored division for
    every [int] element, as soon as the origin is within [2^62] seconds
    of the epoch. *)
Lemma int_posixct_second_bucket_total
    (no : bool) (o every x_elt : Z) :
  in_int x_elt -> x_elt <> NA_INTEGER ->
  - 2 ^ 62 <= o <= 2 ^ 62 ->
  1 <= every <= INT_MAX ->
  int_posixct_warp_distance_second_bucket no o (negb (every =? 1)) every x_elt
  = Some (floor_div (shifted no o x_elt) every).
Proof.
  intros Hx Hna Ho Hevery.
  assert (- 2 ^ 62 - 2 ^ 31 <= shifted no o x_elt <= 2 ^ 62 + 2 ^ 31)
    by (unfold shifted; destruct no; unfold_bounds; lia).
  apply int_posixct_second_bucket_floor_div; try assumption;
    unfold_bounds; lia.
Qed.

End BucketLayout.

(** X1.  Sorted in, sorted out.  In the loop of [warp_distance_year],
    [warp_distance_month] and [warp_distance_day], and in the second loop
    of an integer POSIXct, a later element never gets a smaller bucket
    than an earlier one: for present elements [e1 <= e2] the buckets
    satisfy [q1 <= q2] (on [int], where the shifted elements and the sign
    test of the division stay in range). *)
Theorem X1_later_elements_get_later_buckets :
  forall (needs_offset : bool) (origin_offset every e1 e2 : Z),
    1 <= every <= INT_MAX ->
    in_int e1 -> in_int e2 -> e1 <> NA_INTEGER -> e1 <= e2 ->
    (in_int (shifted needs_offset origin_offset e1) ->
     in_int (shifted needs_offset origin_offset e2) ->
     INT_MIN <= shifted needs_offset origin_offset e1 - (every - 1) ->
     exists q1 q2,
       Distance.offset_distance_bucket needs_offset origin_offset
         (negb (every =? 1)) every e1 = Some q1
       /\ Distance.offset_distance_bucket needs_offset origin_offset
            (negb (every =? 1)) every e2 = Some q2
       /\ q1 <= q2)
    /\ (- 2 ^ 62 <= origin_offset <= 2 ^ 62 ->
        exists q1 q2,
          Distance.int_posixct_warp_distance_second_bucket needs_offset
            origin_offset (negb (every =? 1)) every e1 = Some q1
          /\ Distance.int_posixct_warp_distance_second_bucket needs_offset
               origin_offset (negb (every =? 1)) every e2 = Some q2
          /\ q1 <= q2).
Proof.
  intros no o every e1 e2 Hevery H1 H2 Hna Hle.
  assert (Hna2 : e2 <> NA_INTEGER)
    by (unfold NA_INTEGER in *; unfold_bounds; lia).
  pose proof (shifted_mono no o e1 e2 Hle) as Hs.
  split.
  - intros Hs1 Hs2 Hlow.
    exists (floor_div (shifted no o e1) every),
           (floor_div (shifted no o e2) every).
    split; [| split].
    + now apply offset_distance_bucket_floor_div.
    + apply offset_distance_bucket_floor_div; try assumption. lia.
    + apply floor_div_mono; lia.
  - intros Ho.
    exists (floor_div (shifted no o e1) every),
           (floor_div (shifted no o e2) every).
    split; [| split].
    + now apply int_posixct_second_bucket_total.
    + now apply int_posixct_second_bucket_total.
    + apply floor_div_mono; lia.
Qed.

Lemma X1_later_elements_get_later_buckets_witness :
  (exists q1 q2,
     Distance.offset_distance_bucket true 3 true 2 (-4) = Some q1
     /\ Distance.offset_distance_bucket true 3 true 2 8 = Some q2
     /\ q1 <= q2)
  /\ (exists q1 q2,
        Distance.int_posixct_warp_distance_second_bucket true 3 true 2 (-4)
        = Some q1
        /\ Distance.int_posixct_warp_distance_second_bucket true 3 true 2 8
           = Some q2
        /\ q1 <= q2).
Proof.
  destruct (X1_later_elements_get_later_buckets true 3 2 (-4) 8) as [Ha Hb];
    try (unfold shifted, NA_INTEGER; unfold_bounds; lia).
  split.
  - apply Ha; unfold shifted; unfold_bounds; lia.
  - apply Hb; lia.
Defined.

(** X2.  Buckets are [every] units wide.  Moving an element by [n] times
    [every] units moves its bucket by [n], in the loop of
    [warp_distance_year], [warp_distance_month] and [warp_distance_day]
    and in the second loop of an integer POSIXct; an element equal to the
    origin offset is in bucket 0. *)
Theorem X2_buckets_are_every_units_wide :
  forall (needs_offset : bool) (origin_offset every elt n : Z),
    1 <= every <= INT_MAX ->
    in_int elt -> elt <> NA_INTEGER ->
    in_int (elt + n * every) -> elt + n * every <> NA_INTEGER ->
    (in_int (shifted needs_offset origin_offset elt) ->
     INT_MIN <= shifted needs_offset origin_offset elt - (every - 1) ->
     in_int (shifted needs_offset origin_offset elt + n * every) ->
     INT_MIN <= shifted needs_offset origin_offset elt + n * every - (every - 1) ->
     exists q,
       Distance.offset_distance_bucket needs_offset origin_offset
         (negb (every =? 1)) every elt = Some q
       /\ Distance.offset_distance_bucket needs_offset origin_offset
            (negb (every =? 1)) every (elt + n * every) = Some (q + n))
    /\ (- 2 ^ 62 <= origin_offset <= 2 ^ 62 ->
        exists q,
          Distance.int_posixct_warp_distance_second_bucket needs_offset
            origin_offset (negb (every =? 1)) every elt = Some q
          /\ Distance.int_posixct_warp_distance_second_bucket needs_offset
               origin_offset (negb (every =? 1)) every (elt + n * every)
             = Some (q + n))
    /\ (in_int origin_offset -> origin_offset <> NA_INTEGER ->
        Distance.offset_distance_bucket true origin_offset
          (negb (every =? 1)) every origin_offset = Some 0).
Proof.
  intros no o every elt n Hevery H1 Hna H2 Hna2.
  split; [| split].
  - intros Hs Hlow Hs2 Hlow2.
    exists (floor_div (shifted no o elt) every). split.
    + now apply offset_distance_bucket_floor_div.
    + rewrite offset_distance_bucket_floor_div; try assumption;
        rewrite ?shifted_add; try assumption.
      now rewrite floor_div_shift by lia.
  - intros Ho.
    exists (floor_div (shifted no o elt) every). split.
    + now apply int_posixct_second_bucket_total.
    + rewrite int_posixct_second_bucket_total by assumption.
      rewrite shifted_add. now rewrite floor_div_shift by lia.
  - intros Ho Hona.
    rewrite offset_distance_bucket_floor_div; try assumption;
      unfold shifted; rewrite ?Z.sub_diag; try (unfold_bounds; lia).
    reflexivity.
Qed.

Lemma X2_buckets_are_every_units_wide_witness :
  (exists q,
     Distance.offset_distance_bucket true 3 true 2 (-4) = Some q
     /\ Distance.offset_distance_bucket true 3 true 2 (-4 + 5 * 2)
        = Some (q + 5))
  /\ (exists q,
        Distance.int_posixct_warp_distance_second_bucket true 3 true 2 (-4)
        = Some q
        /\ Distance.int_posixct_warp_distance_second_bucket true 3 true 2
             (-4 + 5 * 2) = Some (q + 5))
  /\ Distance.offset_distance_bucket true 3 true 2 3 = Some 0.
Proof.
  destruct (X2_buckets_are_every_units_wide true 3 2 (-4) 5)
    as [Ha [Hb Hc]];
    try (unfold shifted, NA_INTEGER; unfold_bounds; lia).
  split; [| split].
  - apply Ha; unfold shifted; unfold_bounds; lia.
  - apply Hb; lia.
  - apply Hc; unfold NA_INTEGER; unfold_bounds; lia.
Defined.

(** ** Sub-day periods on 64-bit elements *)

Section WideElements.

Import Distance.

(** The division by the seconds of an hour or a minute is the floored
    one. *)
Lemma seconds_to_unit_floor_div (secs elt : Z) :
  1 <= secs <= INT_MAX -> in_int64 elt -> INT64_MIN <= elt - (secs - 1) ->
  seconds_to_unit secs elt = floor_div elt secs.
Proof.
  intros Hsecs Helt Hlow. unfold seconds_to_unit, floor_div, ldiv, lsub, isub.
  rewrite (int_small (secs - 1)) by (unfold_bounds; lia).
  destruct (Z.ltb_spec elt 0) as [Hneg | Hpos];
    [ destruct (Z.leb_spec 0 elt); [lia |]
    | destruct (Z.leb_spec 0 elt); [| lia] ].
  - rewrite (int64_small (elt - (secs - 1))) by (unfold_bounds; lia).
    apply int64_small.
    apply (quot_between INT64_MIN INT64_MAX); unfold_bounds; lia.
  - apply int64_small.
    apply (quot_between INT64_MIN INT64_MAX); unfold_bounds; lia.
Qed.

Lemma floor_div_bounds (a b lo hi : Z) :
  1 <= b -> lo <= 0 <= hi -> lo <= a <= hi -> lo <= floor_div a b <= hi.
Proof.
  intros Hb Hz Ha. rewrite floor_div_div by lia.
  split.
  - apply Z.div_le_lower_bound; nia.
  - apply Z.div_le_upper_bound; nia.
Qed.

(** The tail of a 64-bit loop after a division by [secs]. *)
Lemma unit_then_every (secs every elt : Z) :
  1 <= secs <= INT_MAX -> 1 <= every <= INT_MAX ->
  - 2 ^ 62 - 2 ^ 31 <= elt <= 2 ^ 62 + 2 ^ 31 ->
  every_int64 (negb (every =? 1)) every (seconds_to_unit secs elt)
  = floor_div elt (secs * every).
Proof.
  intros Hsecs Hevery Helt.
  rewrite seconds_to_unit_floor_div by (try assumption; unfold_bounds; lia).
  pose proof (floor_div_bounds elt secs (- 2 ^ 62 - 2 ^ 31) (2 ^ 62 + 2 ^ 31)
                ltac:(lia) ltac:(lia) Helt) as Hq.
  rewrite every_int64_floor_div by (try assumption; unfold_bounds; lia).
  apply floor_div_floor_div; lia.
Qed.

Lemma int64_bucket_floor_div (units : Z) (no : bool) (o every x_elt : Z) :
  in_int x_elt -> x_elt <> NA_INTEGER -> in_int o ->
  0 <= units <= MILLISECONDS_IN_DAY ->
  1 <= every <= INT_MAX ->
  int_date_int64_bucket units no o (negb (every =? 1)) every x_elt
  = Some (floor_div (shifted no o x_elt * units) every).
Proof.
  intros Hx Hna Ho Hu Hevery.
  unfold int_date_int64_bucket, MILLISECONDS_IN_DAY in *.
  destruct (Z.eqb_spec x_elt NA_INTEGER); [contradiction |].
  f_equal.
  rewrite (int64_small x_elt) by now apply in_int_in_int64.
  assert (Hs : (if no then lsub x_elt o else x_elt) = shifted no o x_elt).
  { unfold shifted, lsub. destruct no; [| reflexivity].
    apply int64_small. unfold_bounds. lia. }
  rewrite Hs.
  assert (Hb : -4294967296 <= shifted no o x_elt <= 4294967296)
    by (unfold shifted; destruct no; unfold_bounds; lia).
  unfold lmul. rewrite int64_small by (unfold_bounds; nia).
  apply every_int64_floor_div; try assumption; unfold_bounds; nia.
Qed.

End WideElements.

(** X3.  The second and millisecond loops of an integer Date never wrap.
    For every present [int] day count and every [int] origin day count,
    [int_date_warp_distance_second] and
    [int_date_warp_distance_millisecond] compute the floored quotient of
    the exact product [(elt - origin) * units_in_day] by [every]. *)
Theorem X3_date_seconds_never_wrap :
  forall (units : Z) (needs_offset : bool) (origin_offset every x_elt : Z),
    units = Distance.SECONDS_IN_DAY \/ units = Distance.MILLISECONDS_IN_DAY ->
    in_int x_elt -> x_elt <> NA_INTEGER -> in_int origin_offset ->
    1 <= every <= INT_MAX ->
    Distance.int_date_int64_elt units needs_offset origin_offset
      (negb (every =? 1)) every x_elt
    = of_Z (floor_div (shifted needs_offset origin_offset x_elt * units) every).
Proof.
  intros units no o every x_elt Hu Hx Hna Ho Hevery.
  unfold Distance.int_date_int64_elt.
  rewrite int64_bucket_floor_div; try assumption; [reflexivity |].
  unfold Distance.SECONDS_IN_DAY, Distance.MILLISECONDS_IN_DAY in *.
  destruct Hu; subst; lia.
Qed.

Lemma X3_date_seconds_never_wrap_witness :
  Distance.int_date_int64_elt Distance.SECONDS_IN_DAY true 2147483647
    true 7 (-2147483647)
  = of_Z (floor_div ((-2147483647 - 2147483647) * 86400) 7).
Proof.
  apply (X3_date_seconds_never_wrap Distance.SECONDS_IN_DAY true
           2147483647 7 (-2147483647));
    [left; reflexivity | unfold NA_INTEGER; unfold_bounds; lia ..].
Defined.

(** X4.  Hours and minutes of an instant are one floored division.  The
    hour and minute loops of a POSIXct divide the second count by the
    seconds of the unit and then by [every]; the result is the floored
    quotient of the second count by [seconds_in_unit * every], for every
    present [int] element, and for a double element through its
    [guarded_floor]. *)
Theorem X4_instant_units_are_one_division :
  forall (secs : Z) (needs_offset : bool) (origin_offset every : Z),
    secs = Distance.SECONDS_IN_HOUR \/ secs = Distance.SECONDS_IN_MINUTE ->
    - 2 ^ 62 <= origin_offset <= 2 ^ 62 ->
    1 <= every <= INT_MAX ->
    (forall x_elt, in_int x_elt -> x_elt <> NA_INTEGER ->
       Distance.int_posixct_unit_bucket secs needs_offset origin_offset
         (negb (every =? 1)) every x_elt
       = Some (floor_div (shifted needs_offset origin_offset x_elt)
                 (secs * every)))
    /\ (forall x_elt, R_FINITE x_elt = true ->
          - 2 ^ 31 <= Distance.guarded_floor x_elt <= 2 ^ 31 ->
          Distance.dbl_posixct_unit_bucket secs needs_offset origin_offset
            (negb (every =? 1)) every x_elt
          = Some (floor_div
                    (shifted needs_offset origin_offset
                       (Distance.guarded_floor x_elt))
                    (secs * every))).
Proof.
  intros secs no o every Hsecs Ho Hevery.
  assert (Hs : 1 <= secs <= INT_MAX)
    by (unfold Distance.SECONDS_IN_HOUR, Distance.SECONDS_IN_MINUTE in *;
        destruct Hsecs; subst; unfold_bounds; lia).
  split.
  - intros x_elt Hx Hna. unfold Distance.int_posixct_unit_bucket.
    destruct (Z.eqb_spec x_elt NA_INTEGER); [contradiction |].
    f_equal.
    rewrite (int64_small x_elt) by now apply in_int_in_int64.
    assert (Hb : - 2 ^ 62 - 2 ^ 31 <= shifted no o x_elt <= 2 ^ 62 + 2 ^ 31)
      by (unfold shifted; destruct no; unfold_bounds; lia).
    assert (He : (if no then lsub x_elt o else x_elt) = shifted no o x_elt).
    { unfold shifted, lsub in *. destruct no; [| reflexivity].
      apply int64_small. unfold_bounds. lia. }
    rewrite He. now apply unit_then_every.
  - intros x_elt Hfin Hg. unfold Distance.dbl_posixct_unit_bucket.
    rewrite Hfin. cbn [negb]. f_equal.
    set (g := Distance.guarded_floor x_elt) in *.
    assert (Hb : - 2 ^ 62 - 2 ^ 31 <= shifted no o g <= 2 ^ 62 + 2 ^ 31)
      by (unfold shifted; destruct no; lia).
    assert (He : (if no then lsub g o else g) = shifted no o g).
    { unfold shifted, lsub in *. destruct no; [| reflexivity].
      apply int64_small. unfold_bounds. lia. }
    rewrite He. now apply unit_then_every.
Qed.

Lemma X4_instant_units_are_one_division_witness :
  Distance.int_posixct_unit_bucket Distance.SECONDS_IN_HOUR true 1800
    true 2 (-1)
  = Some (floor_div (-1 - 1800) (3600 * 2)).
Proof.
  destruct (X4_instant_units_are_one_division Distance.SECONDS_IN_HOUR
              true 1800 2) as [Ha _];
    [left; reflexivity | lia | unfold_bounds; lia |].
  apply (Ha (-1)); unfold NA_INTEGER; unfold_bounds; lia.
Defined.

(** X5.  Sub-day periods of a Date agree with its day bucket where the
    day loop does not wrap.  For a present day count of an integer Date
    and an [int] origin such that the shifted day count is an [int] and
    the sign test of the day loop stays above [INT_MIN], the second
    bucket for [every = 86400 * k] (when [86400 * k] is an [int]) and the
    hour bucket for [every = 24 * k] (when [24 * k] and 24 times the
    shifted day count are [int]s and the sign test of the hour loop stays
    above [INT_MIN]) are the day bucket for [every = k]. *)
Theorem X5_date_sub_day_buckets_agree_with_days :
  forall (needs_offset : bool) (origin_offset k elt : Z),
    1 <= k ->
    in_int elt -> elt <> NA_INTEGER -> in_int origin_offset ->
    in_int (shifted needs_offset origin_offset elt) ->
    INT_MIN <= shifted needs_offset origin_offset elt - (k - 1) ->
    (86400 * k <= INT_MAX ->
     Distance.int_date_int64_bucket Distance.SECONDS_IN_DAY needs_offset
       origin_offset (negb (86400 * k =? 1)) (86400 * k) elt
     = Distance.offset_distance_bucket needs_offset origin_offset
         (negb (k =? 1)) k elt)
    /\ (24 * k <= INT_MAX ->
        in_int (shifted needs_offset origin_offset elt * 24) ->
        INT_MIN <= shifted needs_offset origin_offset elt * 24 - (24 * k - 1) ->
        Distance.int_date_int_bucket Distance.HOURS_IN_DAY needs_offset
          origin_offset (negb (24 * k =? 1)) (24 * k) elt
        = Distance.offset_distance_bucket needs_offset origin_offset
            (negb (k =? 1)) k elt).
Proof.
  intros no o k elt Hk Hx Hna Ho Hs Hlow.
  assert (Hday : forall c, 1 <= c ->
            floor_div (shifted no o elt * c) (c * k)
            = floor_div (shifted no o elt) k).
  { intros c Hc. rewrite !floor_div_div by nia.
    rewrite (Z.mul_comm _ c). apply Z.div_mul_cancel_l; lia. }
  split.
  - intros Hk2.
    rewrite int64_bucket_floor_div; try assumption;
      try (unfold Distance.SECONDS_IN_DAY, Distance.MILLISECONDS_IN_DAY; lia).
    rewrite offset_distance_bucket_floor_div; try assumption;
      try (unfold_bounds; lia).
    f_equal. unfold Distance.SECONDS_IN_DAY. now apply Hday.
  - intros Hk2 Hs24 Hlow24.
    rewrite offset_distance_bucket_floor_div; try assumption;
      try (unfold_bounds; lia).
    unfold Distance.int_date_int_bucket, Distance.HOURS_IN_DAY.
    destruct (Z.eqb_spec elt NA_INTEGER); [contradiction |].
    f_equal.
    assert (He : (if no then isub elt o else elt) = shifted no o elt).
    { unfold shifted in *. destruct no; [| reflexivity].
      now apply int_small. }
    rewrite He. unfold imul. rewrite int_small by assumption.
    rewrite every_int_floor_div; try assumption; try lia.
    now apply Hday.
Qed.

Lemma X5_date_sub_day_buckets_agree_with_days_witness :
  Distance.int_date_int64_bucket Distance.SECONDS_IN_DAY true 10
    (negb (86400 * 7 =? 1)) (86400 * 7) (-4)
  = Distance.offset_distance_bucket true 10 (negb (7 =? 1)) 7 (-4)
  /\ Distance.int_date_int_bucket Distance.HOURS_IN_DAY true 10
       (negb (24 * 7 =? 1)) (24 * 7) (-4)
     = Distance.offset_distance_bucket true 10 (negb (7 =? 1)) 7 (-4).
Proof.
  destruct (X5_date_sub_day_buckets_agree_with_days true 10 7 (-4))
    as [Ha Hb];
    try (unfold shifted, NA_INTEGER; unfold_bounds; lia).
  split.
  - apply Ha. unfold_bounds. lia.
  - apply Hb; unfold shifted; unfold_bounds; lia.
Defined.

(** ** Whole-number doubles *)

Section WholeDoubles.

Import Distance.

(** The double of an [int] is finite and converts back to it. *)
Lemma whole_double (d : Z) :
  in_int d ->
  R_FINITE (of_Z d) = true /\ to_int (of_Z d) = d /\ to_int64 (of_Z d) = d.
Proof.
  intros Hd.
  destruct (of_Z_exact d) as [Ht _]; [unfold_bounds; lia |].
  split; [| split].
  - destruct (of_Z d); simpl in Ht; try discriminate; reflexivity.
  - unfold to_int. rewrite Ht.
    destruct (Z.leb_spec INT_MIN d), (Z.leb_spec d INT_MAX);
      cbn [andb]; unfold_bounds; lia.
  - unfold to_int64. rewrite Ht.
    destruct (Z.leb_spec INT64_MIN d), (Z.leb_spec d INT64_MAX);
      cbn [andb]; unfold_bounds; lia.
Qed.

Lemma map_whole_days {B : Type} (f : double -> B) (g : Z -> B) (ds : list Z) :
  Forall present_day ds ->
  (forall d, present_day d -> f (of_Z d) = g d) ->
  map f (map of_Z ds) = map g ds.
Proof.
  intros Hds Hfg. rewrite map_map. apply map_ext_in.
  intros d Hin. apply Hfg. rewrite Forall_forall in Hds. now apply Hds.
Qed.

Lemma dbl_date_int_elt_whole (units : Z) (no : bool) (o : Z) (ne : bool)
    (every d : Z) :
  present_day d ->
  dbl_date_int_elt units no o ne every (of_Z d)
  = int_date_int_elt units no o ne every d.
Proof.
  intros [Hd Hna]. destruct (whole_double d Hd) as [Hf [Hi _]].
  unfold dbl_date_int_elt, int_date_int_elt, dbl_date_int_bucket,
    int_date_int_bucket.
  rewrite Hf, Hi. cbn [negb].
  destruct (Z.eqb_spec d NA_INTEGER); [contradiction | reflexivity].
Qed.

Lemma dbl_date_int64_elt_whole (units : Z) (no : bool) (o : Z) (ne : bool)
    (every d : Z) :
  present_day d ->
  dbl_date_int64_elt units no o ne every (of_Z d)
  = int_date_int64_elt units no o ne every d.
Proof.
  intros [Hd Hna]. destruct (whole_double d Hd) as [Hf [_ Hl]].
  unfold dbl_date_int64_elt, int_date_int64_elt, dbl_date_int64_bucket,
    int_date_int64_bucket.
  rewrite Hf, Hl. cbn [negb].
  rewrite (int64_small d) by now apply in_int_in_int64.
  destruct (Z.eqb_spec d NA_INTEGER); [contradiction | reflexivity].
Qed.

Lemma dbl_date_yday_elt_whole `{host : Collaborators}
    (s : yday_setup) (every d : Z) :
  present_day d ->
  dbl_date_warp_distance_yday_elt s every (of_Z d)
  = int_date_warp_distance_yday_elt s every d.
Proof.
  intros [Hd Hna]. destruct (whole_double d Hd) as [Hf [Hi _]].
  unfold dbl_date_warp_distance_yday_elt, int_date_warp_distance_yday_elt,
    dbl_date_warp_distance_yday_bucket, int_date_warp_distance_yday_bucket.
  rewrite Hf, Hi. cbn [negb].
  destruct (Z.eqb_spec d NA_INTEGER); [contradiction | reflexivity].
Qed.

End WholeDoubles.

(** X6.  The storage of a Date does not matter for whole days.  On every
    host, a Date stored as doubles that hold the present [int] day counts
    [ds] gets the distances of the Date stored as the integers [ds], by
    hour, minute, second, millisecond and year-day. *)
Theorem X6_whole_double_dates_are_integer_dates :
  forall (host : Collaborators) (class1 class2 : list string) (ds : list Z)
         (every : Z) (origin : SEXP),
    Forall present_day ds ->
    let as_dbl := REALSXP class1 (map of_Z ds) in
    let as_int := INTSXP class2 ds in
    Distance.date_warp_distance_hour as_dbl every origin
    = Distance.date_warp_distance_hour as_int every origin
    /\ Distance.date_warp_distance_minute as_dbl every origin
       = Distance.date_warp_distance_minute as_int every origin
    /\ Distance.date_warp_distance_second as_dbl every origin
       = Distance.date_warp_distance_second as_int every origin
    /\ Distance.date_warp_distance_millisecond as_dbl every origin
       = Distance.date_warp_distance_millisecond as_int every origin
    /\ Distance.date_warp_distance_yday as_dbl every origin
       = Distance.date_warp_distance_yday as_int every origin.
Proof.
  intros host c1 c2 ds every origin Hds as_dbl as_int. subst as_dbl as_int.
  unfold Distance.date_warp_distance_hour, Distance.date_warp_distance_minute,
    Distance.date_warp_distance_second,
    Distance.date_warp_distance_millisecond,
    Distance.date_warp_distance_yday, Distance.by_storage,
    Distance.dbl_date_warp_distance_hour, Distance.int_date_warp_distance_hour,
    Distance.dbl_date_warp_distance_minute,
    Distance.int_date_warp_distance_minute,
    Distance.dbl_date_warp_distance_second,
    Distance.int_date_warp_distance_second,
    Distance.dbl_date_warp_distance_millisecond,
    Distance.int_date_warp_distance_millisecond,
    Distance.dbl_date_warp_distance_yday, Distance.int_date_warp_distance_yday.
  repeat split.
  - destruct (Distance.date_origin_offset origin) as [o |]; [| reflexivity].
    cbn [bind]. f_equal. apply map_whole_days; [assumption |].
    intros d Hd. now apply dbl_date_int_elt_whole.
  - destruct (Distance.date_origin_offset origin) as [o |]; [| reflexivity].
    cbn [bind]. f_equal. apply map_whole_days; [assumption |].
    intros d Hd. now apply dbl_date_int_elt_whole.
  - destruct (Distance.date_origin_offset origin) as [o |]; [| reflexivity].
    cbn [bind]. f_equal. apply map_whole_days; [assumption |].
    intros d Hd. now apply dbl_date_int64_elt_whole.
  - destruct (Distance.date_origin_offset origin) as [o |]; [| reflexivity].
    cbn [bind]. f_equal. apply map_whole_days; [assumption |].
    intros d Hd. now apply dbl_date_int64_elt_whole.
  - f_equal. apply map_whole_days; [assumption |].
    intros d Hd. now apply dbl_date_yday_elt_whole.
Qed.

Lemma X6_whole_double_dates_are_integer_dates_witness :
  Distance.date_warp_distance_hour (host := UtcHost.host)
    (REALSXP [] (map of_Z [-3; 0; 17000])) 5 Examples.epoch
  = Distance.date_warp_distance_hour (host := UtcHost.host)
      (INTSXP [] [-3; 0; 17000]) 5 Examples.epoch.
Proof.
  apply (X6_whole_double_dates_are_integer_dates UtcHost.host [] []
           [-3; 0; 17000] 5 Examples.epoch).
  repeat constructor; unfold NA_INTEGER; unfold_bounds; lia.
Defined.

(** ** The calendar of the year-day loops *)

Section Calendar.

Import Distance.

Lemma leap_year_step (yo : Z) :
  YdaySpec.leap_years_before_and_including_year yo
  - YdaySpec.leap_years_before_and_including_year (yo - 1)
  = if YdaySpec.is_leap (yo + 1970) then 1 else 0.
Proof.
  unfold YdaySpec.leap_years_before_and_including_year, YdaySpec.is_leap.
  cbv zeta. replace (yo - 1 + 1970) with (yo + 1970 - 1) by lia.
  generalize (yo + 1970). intros Y.
  destruct (Z.eqb_spec (Y mod 4) 0), (Z.eqb_spec (Y mod 100) 0),
    (Z.eqb_spec (Y mod 400) 0); cbn [andb orb negb];
    Z.to_euclidean_division_equations; lia.
Qed.

End Calendar.

(** X7.  [days_before_year] counts the days of the years.  It is 0 for
    1970 and grows by 366 over a leap year and by 365 over any other
    year (leap years as [is_leap_year] tells them), by 146097 over 400
    years, and equals 365 days a year plus the leap years up to the year
    before, as [leap_years_before_and_including_year] counts them; for
    years within a million of 1970, where no [int] operation wraps. *)
Theorem X7_days_before_year_counts_year_lengths :
  forall yo : Z, -1000000 <= yo <= 1000000 ->
    Distance.days_before_year 0 = 0
    /\ Distance.days_before_year (yo + 1)
       = Distance.days_before_year yo
         + (if Distance.is_leap_year (yo + 1970) then 366 else 365)
    /\ Distance.days_before_year (yo + 400)
       = Distance.days_before_year yo + 146097
    /\ Distance.days_before_year yo
       = 365 * yo + Distance.leap_years_before_and_including_year (yo - 1).
Proof.
  intros yo Hyo.
  rewrite !days_before_year_spec by lia.
  rewrite leap_years_spec by lia.
  rewrite is_leap_year_spec.
  split; [reflexivity |].
  split; [| split].
  - pose proof (days_in_year yo).
    destruct (YdaySpec.is_leap (yo + 1970)); lia.
  - unfold YdaySpec.days_before_year. cbv zeta.
    Z.to_euclidean_division_equations; lia.
  - unfold YdaySpec.days_before_year,
      YdaySpec.leap_years_before_and_including_year. cbv zeta.
    replace (yo - 1 + 1970) with (yo + 1970 - 1) by lia. lia.
Qed.

Lemma X7_days_before_year_counts_year_lengths_witness :
  Distance.days_before_year (30 + 1)
  = Distance.days_before_year 30
    + (if Distance.is_leap_year (30 + 1970) then 366 else 365).
Proof.
  apply (X7_days_before_year_counts_year_lengths 30). lia.
Defined.

(** X8.  [leap_years_before_and_including_year] counts the leap years.
    It is 0 for 1970, grows by 1 exactly over the years [is_leap_year]
    tells leap, and by 97 over 400 years; [is_leap_year] has the period
    400; for years within a million of 1970, where no [int] operation
    wraps. *)
Theorem X8_leap_years_are_counted_one_by_one :
  forall yo : Z, -1000000 <= yo <= 1000000 ->
    Distance.leap_years_before_and_including_year 0 = 0
    /\ Distance.leap_years_before_and_including_year yo
       = Distance.leap_years_before_and_including_year (yo - 1)
         + (if Distance.is_leap_year (yo + 1970) then 1 else 0)
    /\ Distance.leap_years_before_and_including_year (yo + 400)
       = Distance.leap_years_before_and_including_year yo + 97
    /\ Distance.is_leap_year (yo + 1970 + 400)
       = Distance.is_leap_year (yo + 1970).
Proof.
  intros yo Hyo.
  rewrite !leap_years_spec by lia.
  rewrite !is_leap_year_spec.
  split; [reflexivity |].
  split; [| split].
  - pose proof (leap_year_step yo).
    destruct (YdaySpec.is_leap (yo + 1970)); lia.
  - unfold YdaySpec.leap_years_before_and_including_year. cbv zeta.
    Z.to_euclidean_division_equations; lia.
  - unfold YdaySpec.is_leap.
    replace (yo + 1970 + 400) with (yo + 1970 + 1 * 400) by lia.
    generalize (yo + 1970). intros Y.
    replace ((Y + 1 * 400) mod 4) with (Y mod 4)
      by (Z.to_euclidean_division_equations; lia).
    replace ((Y + 1 * 400) mod 100) with (Y mod 100)
      by (Z.to_euclidean_division_equations; lia).
    rewrite Z.mod_add by lia. reflexivity.
Qed.

Lemma X8_leap_years_are_counted_one_by_one_witness :
  Distance.leap_years_before_and_including_year 30
  = Distance.leap_years_before_and_including_year (30 - 1)
    + (if Distance.is_leap_year (30 + 1970) then 1 else 0).
Proof.
  apply (X8_leap_years_are_counted_one_by_one 30). lia.
Defined.

Section OriginYear.

Import Distance.

Lemma Delta_same_year (oyo yday : Z) :
  YdaySpec.Delta oyo yday (YdaySpec.is_leap (oyo + 1970)) = 0.
Proof.
  unfold YdaySpec.Delta. cbv zeta.
  destruct (yday <? 58); [reflexivity |].
  now rewrite Bool.eqb_reflx.
Qed.

Lemma bucket_same_year (oyo oyd yday every : Z) :
  oyd <= yday ->
  YdaySpec.bucket (YdaySpec.days_before_year oyo + yday) oyo yday oyo oyd every
  = (yday - oyd) / every.
Proof.
  intros Hle.
  unfold YdaySpec.bucket, YdaySpec.units_between, YdaySpec.units_in_year,
    YdaySpec.years_between, YdaySpec.leap_years_between,
    YdaySpec.days_since_last_origin, YdaySpec.last_origin_day,
    YdaySpec.last_origin_year_offset, YdaySpec.origin_yday_adjusted,
    YdaySpec.origin_is_leap.
  rewrite Delta_same_year.
  destruct (Z.ltb_spec yday (oyd + 0)); [lia |].
  rewrite Z.sub_0_r, Delta_same_year.
  rewrite !Z.sub_diag, !Z.mul_0_r. cbn [Z.add].
  f_equal. lia.
Qed.

Lemma since_same_year (oyo oyd yday : Z) :
  oyd <= yday ->
  YdaySpec.days_since_last_origin
    (YdaySpec.days_before_year oyo + yday) oyo yday oyo oyd
  = yday - oyd.
Proof.
  intros Hle.
  unfold YdaySpec.days_since_last_origin, YdaySpec.last_origin_day,
    YdaySpec.last_origin_year_offset, YdaySpec.origin_yday_adjusted,
    YdaySpec.origin_is_leap.
  rewrite Delta_same_year.
  destruct (Z.ltb_spec yday (oyd + 0)); [lia |].
  rewrite Z.sub_0_r, Delta_same_year. lia.
Qed.

Lemma days_before_year_room (yo : Z) :
  -1000000 <= yo <= 1000000 ->
  -399000000 <= YdaySpec.days_before_year yo <= 399000000.
Proof.
  intros Hyo. unfold YdaySpec.days_before_year. cbv zeta.
  Z.to_euclidean_division_equations; lia.
Qed.

Lemma yday_bucket_same_year (oyo oyd yday every : Z) :
  -1000000 <= oyo <= 1000000 ->
  0 <= oyd -> oyd <= yday -> yday <= 365 ->
  1 <= every <= INT_MAX ->
  yday_bucket
    (yday_setup_of every {| origin_year_offset := oyo; origin_yday := oyd |})
    every (days_before_year oyo + yday) oyo yday
  = (yday - oyd) / every.
Proof.
  intros Hoyo Hoyd Hle Hyday Hevery.
  rewrite days_before_year_spec by lia.
  pose proof (days_before_year_room oyo ltac:(lia)) as Hb.
  rewrite compute_yday_distance_spec; try lia.
  - now apply bucket_same_year.
  - rewrite since_same_year by assumption. unfold_bounds. lia.
Qed.

End OriginYear.

(** X9.  Year-day buckets in the year of the origin.  For an element of
    the calendar year of the origin, on or after the origin's day of the
    year, the year-day bucket is [(yday - origin_yday) / every]: the
    leap adjustment is 0 and no year is counted.  In particular the
    origin itself is in bucket 0.  This is what the POSIXlt loop computes
    from the fields [year] and [yday], and what [compute_yday_distance]
    returns for the day count [days_before_year + yday]; for an origin
    within a million years of 1970 and [1 <= every <= INT_MAX]. *)
Theorem X9_yday_bucket_in_the_year_of_the_origin :
  forall (oyo oyd yday every : Z),
    -1000000 <= oyo <= 1000000 ->
    0 <= oyd -> oyd <= yday -> yday <= 365 ->
    1 <= every <= INT_MAX ->
    let s := Distance.yday_setup_of every
               {| origin_year_offset := oyo; origin_yday := oyd |} in
    Distance.yday_bucket s every (Distance.days_before_year oyo + yday)
      oyo yday = (yday - oyd) / every
    /\ Distance.posixlt_warp_distance_yday_bucket s every (oyo + 70) yday
       = Some ((yday - oyd) / every)
    /\ Distance.posixlt_warp_distance_yday_bucket s every (oyo + 70) oyd
       = Some 0.
Proof.
  intros oyo oyd yday every Hoyo Hoyd Hle Hyday Hevery s. subst s.
  assert (Hposix : forall y, oyd <= y -> y <= 365 ->
            Distance.posixlt_warp_distance_yday_bucket
              (Distance.yday_setup_of every
                 {| origin_year_offset := oyo; origin_yday := oyd |})
              every (oyo + 70) y = Some ((y - oyd) / every)).
  { intros y Hy1 Hy2. unfold Distance.posixlt_warp_distance_yday_bucket.
    destruct (Z.eqb_spec (oyo + 70) NA_INTEGER) as [E |];
      [unfold NA_INTEGER in E; unfold_bounds; lia |].
    unfold isub. replace (oyo + 70 - 70) with oyo by lia.
    rewrite (int_small oyo) by (unfold_bounds; lia).
    pose proof (days_before_year_room oyo ltac:(lia)) as Hb.
    rewrite <- days_before_year_spec in Hb by lia.
    unfold iadd. rewrite int_small by (unfold_bounds; lia).
    f_equal. now apply yday_bucket_same_year. }
  split; [now apply yday_bucket_same_year |].
  split; [now apply Hposix |].
  rewrite Hposix by lia. now rewrite Z.sub_diag.
Qed.

Lemma X9_yday_bucket_in_the_year_of_the_origin_witness :
  Distance.posixlt_warp_distance_yday_bucket
    (Distance.yday_setup_of 7 {| origin_year_offset := 50; origin_yday := 59 |})
    7 (50 + 70) 100
  = Some ((100 - 59) / 7).
Proof.
  apply (X9_yday_bucket_in_the_year_of_the_origin 50 59 100 7);
    unfold_bounds; lia.
Defined.

(** ** The checks at the entry of [warp_distance] *)

(** X10.  The entry checks of [warp_distance] and their order.  On every
    host, an error of [validate_origin] is the error of the call, whatever
    [every] and [x] are; with a valid origin, an error of [validate_every]
    is the error of the call, whatever [x] is; with both valid, an [x] of
    no time class gives the error of [warp_distance] itself.  The origin
    is valid exactly when it is [NULL] or has length 1 and a time class;
    [every] is valid exactly when it is present and at least 1.  No
    period function runs when a check fails. *)
Theorem X10_entry_checks_of_warp_distance :
  forall (host : Collaborators) (x : SEXP) (type : warp_period_type)
         (every : Z) (origin : SEXP),
    (forall fn msg,
       Distance.validate_origin origin = Error fn msg ->
       Distance.warp_distance x type every origin = Error fn msg)
    /\ (forall fn msg,
          Distance.validate_origin origin = Ok tt ->
          Distance.validate_every every = Error fn msg ->
          Distance.warp_distance x type every origin = Error fn msg)
    /\ (Distance.validate_origin origin = Ok tt ->
        Distance.validate_every every = Ok tt ->
        time_class_type x = warp_class_unknown ->
        Distance.warp_distance x type every origin
        = Error "warp_distance"
            "`x` must inherit from 'Date', 'POSIXct', or 'POSIXlt'.")
    /\ (Distance.validate_origin origin = Ok tt
        <-> origin = R_NilValue
            \/ (Rf_length origin = 1
                /\ time_class_type origin <> warp_class_unknown))
    /\ (Distance.validate_every every = Ok tt
        <-> every <> NA_INTEGER /\ 1 <= every).
Proof.
  intros host x type every origin.
  assert (Hok : forall r : result unit, r = Ok tt <-> ~ raises r).
  { intros [[] | fn msg]; split; intros H; try reflexivity; try discriminate.
    - intros [fn [msg E]]. discriminate.
    - exfalso. apply H. exists fn, msg. reflexivity. }
  split; [| split; [| split; [| split]]].
  - intros fn msg Ho. unfold Distance.warp_distance.
    rewrite Ho. reflexivity.
  - intros fn msg Ho He. unfold Distance.warp_distance.
    rewrite Ho, He. reflexivity.
  - intros Ho He Hx. unfold Distance.warp_distance.
    rewrite Ho, He. cbn [bind]. rewrite Hx. reflexivity.
  - rewrite Hok, validate_origin_raises.
    assert (D1 : origin = R_NilValue \/ origin <> R_NilValue)
      by (destruct origin; (now left) || (right; discriminate)).
    assert (D2 : Rf_length origin = 1 \/ Rf_length origin <> 1) by lia.
    assert (D3 : time_class_type origin = warp_class_unknown
                 \/ time_class_type origin <> warp_class_unknown)
      by (destruct (time_class_type origin);
          (now left) || (right; discriminate)).
    tauto.
  - rewrite Hok, validate_every_raises. lia.
Qed.

(** ** The ranges tile the positions *)

Section Tiling.

Import Ranges.

Lemma starts_from_length (first : Z) (qs : list Z) :
  List.length (starts_from first qs) = List.length qs.
Proof.
  revert first. induction qs as [| q rest IH]; intros first; simpl;
    [reflexivity | now rewrite IH].
Qed.

Lemma starts_from_nth (first : Z) (qs : list Z) (i : nat) :
  (i < List.length qs)%nat ->
  nth i (starts_from first qs) 0
  = match i with O => first | S j => nth j qs 0 + 1 end.
Proof.
  revert first i. induction qs as [| q rest IH]; intros first i Hi;
    simpl in Hi; [lia |].
  destruct i as [| j]; [reflexivity |].
  cbn [starts_from nth]. rewrite IH by lia.
  destruct j; reflexivity.
Qed.

Lemma starts_from_le (first : Z) (qs : list Z) :
  Sorted Z.lt qs -> (forall q, In q qs -> first <= q) ->
  Forall2 Z.le (starts_from first qs) qs.
Proof.
  revert first. induction qs as [| q rest IH]; intros first Hs Hf;
    [constructor |].
  cbn [starts_from]. constructor.
  - apply Hf. now left.
  - inversion Hs as [| ? ? Hs' Hhd]; subst.
    apply IH; [assumption |].
    apply Sorted_StronglySorted in Hs; [| intros a b c; lia].
    inversion Hs as [| ? ? _ Hall]; subst.
    rewrite Forall_forall in Hall. intros q' Hin. specialize (Hall q' Hin). lia.
Qed.

Lemma compute_starts_whole (qs : list Z) :
  Forall (fun q => 0 <= q < 2 ^ 53 - 1) qs ->
  compute_starts (map of_Z qs) (List.length qs)
  = map of_Z (starts_from 1 qs).
Proof.
  intros Hq.
  apply (nth_ext _ _ NA_REAL (of_Z 0)).
  - now rewrite compute_starts_length, length_map, starts_from_length.
  - intros i Hi. rewrite compute_starts_length in Hi.
    rewrite map_nth, starts_from_nth by assumption.
    destruct i as [| j].
    + apply compute_starts_first. lia.
    + rewrite compute_starts_next by lia.
      replace (S j - 1)%nat with j by lia.
      rewrite (nth_indep _ NA_REAL (of_Z 0)) by (rewrite length_map; lia).
      rewrite map_nth. apply add_one_exact.
      rewrite Forall_forall in Hq. apply Hq. apply nth_In. lia.
Qed.

End Tiling.

(** X11.  The ranges tile the positions.  When the changes are the
    doubles of the integers [qs] (positions below [2^53 - 1]), the [start]
    column holds the doubles of [1] and of each stop plus one, in order;
    and when the stops increase from at least 1, no range is empty: each
    start is at most its stop. *)
Theorem X11_ranges_tile_the_positions :
  forall (host : Collaborators) (x : SEXP) (qs : list Z),
    warp_changes x = map of_Z qs ->
    Forall (fun q => 0 <= q < 2 ^ 53 - 1) qs ->
    let r := Ranges.warp_ranges x in
    Ranges.start r = map of_Z (starts_from 1 qs)
    /\ Ranges.stop r = map of_Z qs
    /\ List.length (starts_from 1 qs) = List.length qs
    /\ (forall i, (i < List.length qs)%nat ->
          nth i (starts_from 1 qs) 0
          = match i with O => 1 | S j => nth j qs 0 + 1 end)
    /\ (Sorted Z.lt qs -> (forall q, In q qs -> 1 <= q) ->
        Forall2 Z.le (starts_from 1 qs) qs).
Proof.
  intros host x qs Hx Hq r. subst r.
  unfold Ranges.warp_ranges. cbn [Ranges.start Ranges.stop].
  rewrite Hx, length_map.
  split; [now apply compute_starts_whole |].
  split; [reflexivity |].
  split; [apply starts_from_length |].
  split; [intros i Hi; now apply starts_from_nth |].
  apply starts_from_le.
Qed.

Lemma X11_ranges_tile_the_positions_witness :
  Ranges.start
    (Ranges.warp_ranges (host := UtcHost.host)
       (REALSXP [] (map of_Z [10; 10; 20; 20; 20; 30])))
  = map of_Z (starts_from 1 [2; 5; 6]).
Proof.
  apply (X11_ranges_tile_the_positions UtcHost.host
           (REALSXP [] (map of_Z [10; 10; 20; 20; 20; 30])) [2; 5; 6]).
  - vm_compute. reflexivity.
  - repeat constructor; lia.
Defined.

(* ================================================================== *)
(** ** chunk.c: the entry points *)

Section ChunkEntry.

Context {utils : Chunk.Utils}.

Lemma chunk_validate_every_raises (every : Z) :
  raises (Chunk.validate_every every)
  <-> every = NA_INTEGER \/ every <= 0.
Proof.
  unfold Chunk.validate_every, raises, r_error.
  destruct (Z.eqb_spec every NA_INTEGER) as [Hna | Hna].
  - split; [intros _; now left | intros _; eauto].
  - destruct (Z.leb_spec every 0) as [Hle | Hgt].
    + split; [intros _; now right | intros _; eauto].
    + split; [intros [fn [msg H]]; discriminate
             | intros [H | H]; [contradiction | lia]].
Qed.

Lemma chunk_validate_origin_ok (origin : SEXP) :
  Chunk.validate_origin origin = Ok tt
  <-> origin = R_NilValue
      \/ (Rf_length origin = 1
          /\ Chunk.time_class_type origin <> Chunk.timeslide_class_unknown).
Proof.
  unfold Chunk.validate_origin, r_error.
  destruct origin; cbn [is_nil];
    try (split; [intros _; now left | reflexivity]).
  all: match goal with
       | |- context [Rf_length ?o =? 1] =>
           destruct (Z.eqb_spec (Rf_length o) 1) as [Hl | Hl]; cbn [negb];
           [ destruct (Chunk.time_class_type o) eqn:Hc;
             split; intros H;
             first [ reflexivity | discriminate
                   | right; split; [exact Hl | discriminate]
                   | destruct H as [H | [_ H]]; [discriminate | congruence] ]
           | split; intros H;
             [ discriminate
             | destruct H as [H | [H _]]; [discriminate | contradiction] ] ]
       end.
Qed.

Lemma result_unit_ok (r : result unit) : r = Ok tt <-> ~ raises r.
Proof.
  destruct r as [[] | fn msg]; split; intros H;
    try reflexivity; try discriminate.
  - intros [fn [msg E]]. discriminate.
  - exfalso. apply H. exists fn, msg. reflexivity.
Qed.

End ChunkEntry.

(** X12.  [pull_every] takes one number.  It raises exactly when [every]
    does not have length 1 or is neither an integer nor a double vector;
    from an integer vector of length 1 it returns the element as it is (a
    missing one included), from a double vector what [Rf_asInteger]
    returns.  [timeslide_warp_chunk] passes its error on, and rejects a
    missing or non-positive [every] once it is pulled. *)
Theorem X12_pull_every_takes_one_number :
  forall (host : Collaborators) (utils : Chunk.Utils) (every : SEXP),
    (raises (Chunk.pull_every every)
     <-> Rf_length every <> 1
         \/ match every with
            | INTSXP _ _ | REALSXP _ _ => False
            | _ => True
            end)
    /\ (forall attrib n,
          every = INTSXP attrib [n] -> Chunk.pull_every every = Ok n)
    /\ (forall attrib d,
          every = REALSXP attrib [d] ->
          Chunk.pull_every every = Ok (Chunk.Rf_asInteger every))
    /\ (forall x by_ origin type fn msg,
          Chunk.as_chunk_type by_ = Ok type ->
          Chunk.pull_every every = Error fn msg ->
          Chunk.timeslide_warp_chunk x by_ every origin = Error fn msg)
    /\ (forall x by_ origin type n,
          Chunk.as_chunk_type by_ = Ok type ->
          Chunk.pull_every every = Ok n ->
          n = NA_INTEGER \/ n <= 0 ->
          raises (Chunk.timeslide_warp_chunk x by_ every origin)).
Proof.
  intros host utils every.
  split; [| split; [| split; [| split]]].
  - unfold Chunk.pull_every, raises, r_error.
    destruct (Z.eqb_spec (Rf_length every) 1) as [Hl | Hl]; cbn [negb].
    + destruct every; split; intros H;
        try (destruct H as [fn [msg H]]; discriminate);
        try (destruct H as [H | H]; [contradiction | now destruct H]);
        try (now right); eauto.
    + split; [intros _; now left | intros _; eauto].
  - intros attrib n ->. reflexivity.
  - intros attrib d ->. reflexivity.
  - intros x by_ origin type fn msg Ht He.
    unfold Chunk.timeslide_warp_chunk. rewrite Ht, He. reflexivity.
  - intros x by_ origin type n Ht He Hn.
    unfold Chunk.timeslide_warp_chunk, Chunk.warp_chunk.
    rewrite Ht, He. cbn [bind].
    destruct (Chunk.validate_origin origin) as [[] | fn msg];
      [| exists fn, msg; reflexivity].
    apply chunk_validate_every_raises in Hn.
    destruct Hn as [fn [msg Hn]]. rewrite Hn. exists fn, msg. reflexivity.
Qed.

(** X13.  The entry checks of [warp_chunk] and their order.  On every
    host, an error of [validate_origin] is the error of the call; with a
    valid origin, an error of [validate_every] is; with both valid, an
    [x] of no time class gives the error of [warp_chunk] itself.  The
    origin is valid exactly when it is [NULL] or has length 1 and a time
    class; [every] is valid exactly when it is present and at least 1. *)
Theorem X13_entry_checks_of_warp_chunk :
  forall (host : Collaborators) (utils : Chunk.Utils) (x : SEXP)
         (type : Chunk.timeslide_chunk_type) (every : Z) (origin : SEXP),
    (forall fn msg,
       Chunk.validate_origin origin = Error fn msg ->
       Chunk.warp_chunk x type every origin = Error fn msg)
    /\ (forall fn msg,
          Chunk.validate_origin origin = Ok tt ->
          Chunk.validate_every every = Error fn msg ->
          Chunk.warp_chunk x type every origin = Error fn msg)
    /\ (Chunk.validate_origin origin = Ok tt ->
        Chunk.validate_every every = Ok tt ->
        Chunk.time_class_type x = Chunk.timeslide_class_unknown ->
        Chunk.warp_chunk x type every origin
        = Error "warp_chunk"
            "`x` must inherit from 'Date', 'POSIXct', or 'POSIXlt'.")
    /\ (Chunk.validate_origin origin = Ok tt
        <-> origin = R_NilValue
            \/ (Rf_length origin = 1
                /\ Chunk.time_class_type origin
                   <> Chunk.timeslide_class_unknown))
    /\ (Chunk.validate_every every = Ok tt
        <-> every <> NA_INTEGER /\ 1 <= every).
Proof.
  intros host utils x type every origin.
  split; [| split; [| split; [| split]]].
  - intros fn msg Ho. unfold Chunk.warp_chunk. rewrite Ho. reflexivity.
  - intros fn msg Ho He. unfold Chunk.warp_chunk.
    rewrite Ho, He. reflexivity.
  - intros Ho He Hx. unfold Chunk.warp_chunk.
    rewrite Ho, He. cbn [bind]. rewrite Hx. reflexivity.
  - apply chunk_validate_origin_ok.
  - rewrite result_unit_ok, chunk_validate_every_raises. lia.
Qed.

(* ================================================================== *)
(** ** chunk.c: the loops *)

Section ChunkLoops.

(** The tails of chunk.c are the ones of distance.c. *)
Lemma chunk_every_int (ne : bool) (every elt : Z) :
  Chunk.every_int ne every elt = Distance.every_int ne every elt.
Proof. reflexivity. Qed.

Lemma chunk_every_int64 (ne : bool) (every elt : Z) :
  Chunk.every_int64 ne every elt = Distance.every_int64 ne every elt.
Proof. reflexivity. Qed.

Lemma chunk_every_int_floor_div (every elt : Z) :
  1 <= every <= INT_MAX -> in_int elt -> INT_MIN <= elt - (every - 1) ->
  Chunk.every_int (negb (every =? 1)) every elt = floor_div elt every.
Proof. intros. rewrite chunk_every_int. now apply every_int_floor_div. Qed.

Lemma chunk_every_int64_floor_div (every elt : Z) :
  1 <= every <= INT_MAX -> in_int64 elt -> INT64_MIN <= elt - (every - 1) ->
  Chunk.every_int64 (negb (every =? 1)) every elt = floor_div elt every.
Proof. intros. rewrite chunk_every_int64. now apply every_int64_floor_div. Qed.

(** The division of an [int] second count by the seconds of a unit. *)
Lemma int_seconds_to_unit (secs elt : Z) :
  1 <= secs <= INT_MAX -> in_int elt -> INT_MIN <= elt - (secs - 1) ->
  (if elt <? 0 then idiv (isub elt (isub secs 1)) secs else idiv elt secs)
  = floor_div elt secs.
Proof.
  intros Hsecs Helt Hlow. unfold floor_div, idiv, isub.
  rewrite (int_small (secs - 1)) by (unfold_bounds; lia).
  destruct (Z.ltb_spec elt 0) as [Hneg | Hpos];
    [ destruct (Z.leb_spec 0 elt); [lia |]
    | destruct (Z.leb_spec 0 elt); [| lia] ].
  - rewrite (int_small (elt - (secs - 1))) by (unfold_bounds; lia).
    apply int_small.
    apply (quot_between INT_MIN INT_MAX); unfold_bounds; lia.
  - apply int_small.
    apply (quot_between INT_MIN INT_MAX); unfold_bounds; lia.
Qed.

End ChunkLoops.

(** X14.  Year and month chunks are floored quotients.  The loop of
    [warp_chunk_year] turns a present calendar year into the floored
    quotient of [year - origin_year] by [every], and the loop of
    [warp_chunk_month] a present year and month (from 1) into the floored
    quotient of [(year - origin_year) * 12 + (month - 1 - origin_month)];
    a missing year stays missing; without an origin the origin is the
    year 1970 and its month 0. *)
Theorem X14_year_and_month_chunks :
  forall (utils : Chunk.Utils) (origin_year origin_month every : Z),
    1 <= every <= INT_MAX ->
    (forall elt,
       in_int elt -> elt <> NA_INTEGER ->
       in_int (elt - origin_year) ->
       INT_MIN <= elt - origin_year - (every - 1) ->
       Chunk.warp_chunk_year_elt origin_year (negb (every =? 1)) every elt
       = floor_div (elt - origin_year) every)
    /\ (forall elt_year p_month_i,
          - 10000000 <= elt_year <= 10000000 ->
          - 10000000 <= origin_year <= 10000000 ->
          1 <= p_month_i <= 12 -> 0 <= origin_month <= 11 ->
          INT_MIN <= (elt_year - origin_year) * 12
                     + (p_month_i - 1 - origin_month) - (every - 1) ->
          Chunk.warp_chunk_month_elt origin_year origin_month
            (negb (every =? 1)) every elt_year p_month_i
          = floor_div ((elt_year - origin_year) * 12
                       + (p_month_i - 1 - origin_month)) every)
    /\ Chunk.warp_chunk_year_elt origin_year (negb (every =? 1)) every
         NA_INTEGER = NA_INTEGER
    /\ (forall p_month_i,
          Chunk.warp_chunk_month_elt origin_year origin_month
            (negb (every =? 1)) every NA_INTEGER p_month_i = NA_INTEGER)
    /\ Chunk.warp_chunk_year_origin R_NilValue = Ok 1970
    /\ Chunk.warp_chunk_month_origin R_NilValue = Ok (1970, 0).
Proof.
  intros utils oy om every Hevery.
  split; [| split; [| split; [| split; [| split]]]];
    try reflexivity.
  - intros elt Helt Hna Hs Hlow. unfold Chunk.warp_chunk_year_elt.
    destruct (Z.eqb_spec elt NA_INTEGER); [contradiction |].
    unfold isub. rewrite int_small by assumption.
    now apply chunk_every_int_floor_div.
  - intros ey m Hey Hoy Hm Hom Hlow. unfold Chunk.warp_chunk_month_elt.
    destruct (Z.eqb_spec ey NA_INTEGER) as [E |];
      [unfold NA_INTEGER in E; unfold_bounds; lia |].
    unfold iadd, imul, isub, Chunk.MONTHS_IN_YEAR.
    rewrite (int_small (m - 1)) by (unfold_bounds; lia).
    rewrite (int_small (ey - oy)) by (unfold_bounds; lia).
    rewrite (int_small ((ey - oy) * 12)) by (unfold_bounds; lia).
    rewrite (int_small (m - 1 - om)) by (unfold_bounds; lia).
    rewrite int_small by (unfold_bounds; lia).
    apply chunk_every_int_floor_div; try assumption; unfold_bounds; lia.
Qed.

Lemma X14_year_and_month_chunks_witness :
  Chunk.warp_chunk_year_elt 1970 (negb (3 =? 1)) 3 1965
  = floor_div (1965 - 1970) 3.
Proof.
  destruct (X14_year_and_month_chunks UtcUtils.utils 1970 0 3) as [Ha _];
    [unfold_bounds; lia |].
  apply Ha; unfold NA_INTEGER; unfold_bounds; lia.
Defined.

Section ChunkContract.

Context {host : Collaborators}.






End ChunkContract.




(** X16.  Integer instants without an origin, in chunk.c.  With no
    origin, the day, hour and minute loops of an integer POSIXct divide
    the second count by the seconds of the unit and then by [every], both
    on [int]: the chunk is the floored quotient of the second count by
    [seconds_in_unit * every], provided the two sign tests stay above
    [INT_MIN] (the first fails for the last [seconds_in_unit - 2] second
    counts above the missing value).  The second loop works on
    [int64_t] and returns the double of the floored quotient by [every]
    for every present [int] second count. *)
Theorem X16_integer_instants_without_origin :
  forall (secs every x_elt : Z) (unread : double),
    secs = Chunk.SECONDS_IN_DAY \/ secs = Chunk.SECONDS_IN_HOUR
    \/ secs = Chunk.SECONDS_IN_MINUTE ->
    1 <= every <= INT_MAX ->
    in_int x_elt -> x_elt <> NA_INTEGER ->
    (INT_MIN <= x_elt - (secs - 1) ->
     INT_MIN <= floor_div x_elt secs - (every - 1) ->
     Chunk.int_posixct_unit_elt secs false unread (negb (every =? 1)) every
       x_elt
     = floor_div x_elt (secs * every))
    /\ Chunk.int_posixct_warp_chunk_second_elt false unread
         (negb (every =? 1)) every x_elt
       = of_Z (floor_div x_elt every).
Proof.
  intros secs every x_elt unread Hsecs Hevery Hx Hna.
  assert (Hs : 1 <= secs <= INT_MAX)
    by (unfold Chunk.SECONDS_IN_DAY, Chunk.SECONDS_IN_HOUR,
          Chunk.SECONDS_IN_MINUTE in *;
        destruct Hsecs as [-> | [-> | ->]]; unfold_bounds; lia).
  split.
  - intros Hlow Hlow2. unfold Chunk.int_posixct_unit_elt.
    destruct (Z.eqb_spec x_elt NA_INTEGER); [contradiction |].
    rewrite int_seconds_to_unit by assumption.
    rewrite chunk_every_int_floor_div; try assumption.
    + apply floor_div_floor_div; lia.
    + apply floor_div_bounds; unfold_bounds; lia.
  - unfold Chunk.int_posixct_warp_chunk_second_elt.
    destruct (Z.eqb_spec x_elt NA_INTEGER); [contradiction |].
    rewrite (int64_small x_elt) by now apply in_int_in_int64.
    f_equal. apply chunk_every_int64_floor_div; try assumption;
      unfold_bounds; lia.
Qed.

Lemma X16_integer_instants_without_origin_witness :
  Chunk.int_posixct_unit_elt Chunk.SECONDS_IN_DAY false (of_Z 0)
    (negb (7 =? 1)) 7 (-1) = floor_div (-1) (86400 * 7)
  /\ Chunk.int_posixct_warp_chunk_second_elt false (of_Z 0)
       (negb (7 =? 1)) 7 (-1) = of_Z (floor_div (-1) 7).
Proof.
  destruct (X16_integer_instants_without_origin Chunk.SECONDS_IN_DAY 7 (-1)
              (of_Z 0)) as [Ha Hb];
    [now left | unfold_bounds; lia | unfold_bounds; lia
    | unfold NA_INTEGER; unfold_bounds; lia |].
  split; [| exact Hb].
  apply Ha; vm_compute; discriminate.
Defined.

(** X17.  chunk.c and distance.c agree without an origin.  For an
    integer Date by hour or minute and an integer POSIXct by second the
    two files hold the same statements: the distance is the double of the
    chunk for every present element, overflow included, and the second
    loops of an integer POSIXct return the same vector.  For an integer
    Date by second they agree while [elt * 86400] is an [int] (chunk.c
    multiplies before it widens), and for an integer POSIXct by hour or
    minute while the sign tests of chunk.c, taken on [int], stay above
    [INT_MIN]. *)
Theorem X17_chunk_and_distance_agree_without_origin :
  forall (host : Collaborators) (every elt : Z) (unread : double)
         (unread' : Z),
    1 <= every <= INT_MAX ->
    in_int elt -> elt <> NA_INTEGER ->
    let ne := negb (every =? 1) in
    (forall units,
       Distance.int_date_int_elt units false unread' ne every elt
       = of_Z (Chunk.int_date_int_elt units false unread ne every elt))
    /\ (forall p_x,
          Chunk.int_posixct_warp_chunk_second p_x every R_NilValue
          = Distance.int_posixct_warp_distance_second p_x every R_NilValue)
    /\ (in_int (elt * 86400) ->
        Distance.int_date_int64_elt Distance.SECONDS_IN_DAY false unread'
          ne every elt
        = Chunk.int_date_warp_chunk_second_elt false unread ne every elt)
    /\ (forall secs,
          secs = 3600 \/ secs = 60 ->
          INT_MIN <= elt - (secs - 1) ->
          INT_MIN <= floor_div elt secs - (every - 1) ->
          Distance.int_posixct_unit_elt secs false unread' ne every elt
          = of_Z (Chunk.int_posixct_unit_elt secs false unread ne every elt)).
Proof.
  intros host every elt unread unread' Hevery Helt Hna ne. subst ne.
  split; [| split; [| split]].
  - intros units.
    unfold Distance.int_date_int_elt, Distance.int_date_int_bucket,
      Chunk.int_date_int_elt.
    destruct (Z.eqb_spec elt NA_INTEGER); [contradiction | reflexivity].
  - intros p_x.
    unfold Chunk.int_posixct_warp_chunk_second,
      Distance.int_posixct_warp_distance_second. cbn [is_nil negb].
    unfold Chunk.seconds_origin_offset, Distance.posixct_origin_offset.
    cbn [is_nil negb bind]. f_equal. apply map_ext. intros x.
    unfold Chunk.int_posixct_warp_chunk_second_elt,
      Distance.int_posixct_warp_distance_second_elt,
      Distance.int_posixct_warp_distance_second_bucket.
    destruct (x =? NA_INTEGER); reflexivity.
  - intros Hprod.
    unfold Distance.int_date_int64_elt, Distance.int_date_int64_bucket,
      Chunk.int_date_warp_chunk_second_elt,
      Distance.SECONDS_IN_DAY, Chunk.SECONDS_IN_DAY.
    destruct (Z.eqb_spec elt NA_INTEGER); [contradiction |].
    cbn [Distance.store]. f_equal.
    change Chunk.every_int64 with Distance.every_int64. f_equal.
    unfold lmul, imul.
    rewrite (int64_small elt) by now apply in_int_in_int64.
    rewrite (int_small (elt * 86400)) by assumption.
    reflexivity.
  - intros secs Hsecs Hlow Hlow2.
    assert (Hs : 1 <= secs <= INT_MAX)
      by (destruct Hsecs as [-> | ->]; unfold_bounds; lia).
    unfold Distance.int_posixct_unit_elt, Distance.int_posixct_unit_bucket,
      Chunk.int_posixct_unit_elt.
    destruct (Z.eqb_spec elt NA_INTEGER); [contradiction |].
    cbn [Distance.store]. f_equal.
    rewrite (int64_small elt) by now apply in_int_in_int64.
    rewrite int_seconds_to_unit by assumption.
    rewrite unit_then_every by (try assumption; unfold_bounds; lia).
    rewrite chunk_every_int_floor_div; try assumption.
    + symmetry. apply floor_div_floor_div; lia.
    + apply floor_div_bounds; unfold_bounds; lia.
Qed.

Lemma X17_chunk_and_distance_agree_without_origin_witness :
  Distance.int_date_int_elt 24 false 0 (negb (5 =? 1)) 5 (-3)
  = of_Z (Chunk.int_date_int_elt 24 false (of_Z 0) (negb (5 =? 1)) 5 (-3)).
Proof.
  destruct (X17_chunk_and_distance_agree_without_origin UtcHost.host 5 (-3)
              (of_Z 0) 0) as [Ha _];
    [unfold_bounds; lia | unfold_bounds; lia
    | unfold NA_INTEGER; unfold_bounds; lia |].
  exact (Ha 24).
Defined.

(** X18.  The origin helpers of chunk.c return what they read.  On every
    host, [origin_to_days_from_epoch] and [origin_to_seconds_from_epoch]
    return the first double of the converted origin, whatever it is: the
    test [out == NA_REAL] is false for every double, a NaN included, so
    that their own error is never raised, and they fail only when the
    converted origin is not a double vector. *)
Theorem X18_chunk_origin_helpers_return_what_they_read :
  forall (host : Collaborators) (utils : Chunk.Utils) (origin : SEXP),
    Chunk.origin_to_days_from_epoch origin
    = (v <- REAL (as_date origin) ;; Ok (first_real v))
    /\ Chunk.origin_to_seconds_from_epoch origin
       = (v <- REAL (as_datetime origin) ;; Ok (first_real v))
    /\ (forall fn msg,
          Chunk.origin_to_days_from_epoch origin = Error fn msg ->
          REAL (as_date origin) = Error fn msg)
    /\ (forall fn msg,
          Chunk.origin_to_seconds_from_epoch origin = Error fn msg ->
          REAL (as_datetime origin) = Error fn msg)
    /\ (forall x : double, eqb x NA_REAL = false).
Proof.
  intros host utils origin.
  assert (Hnan : forall x : double, eqb x NA_REAL = false)
    by (intros x; unfold eqb, SFeqb, NA_REAL; destruct x; reflexivity).
  assert (Hd : Chunk.origin_to_days_from_epoch origin
               = (v <- REAL (as_date origin) ;; Ok (first_real v))).
  { unfold Chunk.origin_to_days_from_epoch.
    destruct (REAL (as_date origin)) as [v |]; simpl; [| reflexivity].
    now rewrite Hnan. }
  assert (Hs : Chunk.origin_to_seconds_from_epoch origin
               = (v <- REAL (as_datetime origin) ;; Ok (first_real v))).
  { unfold Chunk.origin_to_seconds_from_epoch.
    destruct (REAL (as_datetime origin)) as [v |]; simpl; [| reflexivity].
    now rewrite Hnan. }
  split; [exact Hd |]. split; [exact Hs |].
  split; [| split; [| exact Hnan]].
  - intros fn msg. rewrite Hd.
    destruct (REAL (as_date origin)); cbn [bind];
      [discriminate | intros H; injection H as -> ->; reflexivity].
  - intros fn msg. rewrite Hs.
    destruct (REAL (as_datetime origin)); cbn [bind];
      [discriminate | intros H; injection H as -> ->; reflexivity].
Qed.

(* ================================================================== *)
(** ** Rounding to 53 bits *)

Section Rounding.

Lemma iter_pos_nat {A : Type} (f : A -> A) (p : positive) (x : A) :
  iter_pos f p x = Nat.iter (Pos.to_nat p) f x.
Proof.
  revert x. induction p as [p IH | p IH |]; intros x; cbn [iter_pos].
  - rewrite !IH, Pos2Nat.inj_xI.
    rewrite <- Nat.iter_add, <- Nat.iter_succ_r. f_equal. lia.
  - rewrite !IH, Pos2Nat.inj_xO.
    rewrite <- Nat.iter_add. f_equal. lia.
  - reflexivity.
Qed.

Lemma shr_1_spec (r : shr_record) :
  0 <= shr_m r ->
  shr_m (shr_1 r) = shr_m r / 2
  /\ shr_r (shr_1 r) = Z.odd (shr_m r)
  /\ shr_s (shr_1 r) = shr_r r || shr_s r.
Proof.
  destruct r as [m r s]. cbn [shr_m shr_r shr_s]. intros Hm.
  destruct m as [| [p | p |] |]; try lia; cbn [shr_1 shr_m shr_r shr_s].
  - repeat split.
  - repeat split. rewrite Pos2Z.inj_xI.
    apply (Z.div_unique _ _ _ 1); lia.
  - repeat split. rewrite Pos2Z.inj_xO.
    apply (Z.div_unique _ _ _ 0); lia.
  - repeat split.
Qed.

(** Shifting [P] right by [k] bits leaves its quotient by [2^k] and the
    location of its remainder. *)
Lemma shr_nat_spec (P : Z) (k : nat) :
  0 <= P ->
  let r := Nat.iter k shr_1 (Build_shr_record P false false) in
  shr_m r = P / 2 ^ Z.of_nat k
  /\ loc_of_shr_record r = loc_of (P mod 2 ^ Z.of_nat k) (2 ^ Z.of_nat k).
Proof.
  intros HP. induction k as [| k IH].
  - cbn [Nat.iter shr_m]. change (2 ^ Z.of_nat 0) with 1.
    rewrite Z.div_1_r, Z.mod_1_r. split; reflexivity.
  - cbv zeta in IH |- *.
    change (Nat.iter (S k) shr_1 (Build_shr_record P false false))
      with (shr_1 (Nat.iter k shr_1 (Build_shr_record P false false))).
    set (r := Nat.iter k shr_1 (Build_shr_record P false false)) in *.
    destruct IH as [Hm Hl].
    assert (Hpos : 0 < 2 ^ Z.of_nat k) by (apply Z.pow_pos_nonneg; lia).
    assert (Hq : 0 <= shr_m r) by (rewrite Hm; apply Z.div_pos; lia).
    destruct (shr_1_spec r Hq) as [Hm1 [Hr1 Hs1]].
    rewrite Nat2Z.inj_succ, Z.pow_succ_r by lia.
    set (U := 2 ^ Z.of_nat k) in *.
    set (q := P / U) in *. set (rem := P mod U) in *.
    assert (Hdm : P = U * q + rem) by (apply Z.div_mod; lia).
    assert (Hrem : 0 <= rem < U) by (apply Z.mod_pos_bound; lia).
    assert (Hdiv : P / (2 * U) = q / 2).
    { rewrite (Z.mul_comm 2 U). rewrite <- Z.div_div by lia. reflexivity. }
    assert (Hmod : P mod (2 * U) = rem + U * (q mod 2)).
    { rewrite (Z.mul_comm 2 U). rewrite Z.rem_mul_r by lia. reflexivity. }
    split; [rewrite Hm1, Hm; symmetry; exact Hdiv |].
    rewrite Hmod.
    assert (Hsticky : shr_r r || shr_s r = negb (rem =? 0)).
    { unfold loc_of in Hl. destruct r as [m0 r0 s0].
      cbn [loc_of_shr_record shr_r shr_s] in *.
      destruct r0, s0, (rem =? 0); cbn [orb negb]; congruence. }
    destruct (shr_1 r) as [m1 r1 s1]. cbn [shr_m shr_r shr_s] in *.
    subst r1 s1. rewrite Hsticky, Hm. fold q.
    rewrite Zmod_odd. unfold loc_of. cbn [loc_of_shr_record].
    destruct (Z.odd q); destruct (Z.eqb_spec rem 0) as [E | E]; cbn [negb].
    + destruct (Z.eqb_spec (rem + U * 1) 0); [lia |].
      destruct (Z.compare_spec (2 * (rem + U * 1)) (2 * U));
        try lia; reflexivity.
    + destruct (Z.eqb_spec (rem + U * 1) 0); [lia |].
      destruct (Z.compare_spec (2 * (rem + U * 1)) (2 * U));
        try lia; reflexivity.
    + destruct (Z.eqb_spec (rem + U * 0) 0); [reflexivity | lia].
    + destruct (Z.eqb_spec (rem + U * 0) 0); [lia |].
      destruct (Z.compare_spec (2 * (rem + U * 0)) (2 * U));
        try lia; reflexivity.
Qed.

(** Rounding to nearest even, from the quotient and the location. *)
Lemma round_nearest_even_loc (q rem U : Z) :
  0 <= rem < U ->
  let R := round_nearest_even q (loc_of rem U) in
  (R = q \/ R = q + 1)
  /\ (2 * rem < U -> R = q)
  /\ (U < 2 * rem -> R = q + 1)
  /\ (rem = 0 -> R = q).
Proof.
  intros Hrem. unfold loc_of. cbv zeta.
  destruct (Z.eqb_spec rem 0) as [E | E]; cbn [round_nearest_even].
  - repeat split; intros; lia.
  - destruct (Z.compare_spec (2 * rem) U); cbn [round_nearest_even].
    + destruct (Z.even q); repeat split; intros; lia.
    + repeat split; intros; lia.
    + repeat split; intros; lia.
Qed.

Lemma digits_of_range (P d : Z) :
  0 <= d -> 2 ^ d <= P < 2 ^ (d + 1) -> Zdigits2 P = d + 1.
Proof.
  intros Hd HP.
  assert (0 < 2 ^ d) by (apply Z.pow_pos_nonneg; lia).
  rewrite Zdigits2_log2 by lia.
  f_equal. apply Z.log2_unique; [lia |].
  now rewrite <- Z.add_1_r.
Qed.

(** What [binary_round_aux] returns for a mantissa [P] of [53 + k] bits:
    the quotient of [P] by [2^k], or the next integer, whichever is
    nearest (the even one for a tie); a result of [2^53] moves up one
    exponent. *)
Lemma binary_round_aux_spec (s : bool) (P : positive) (E k : Z) :
  1 <= k ->
  2 ^ (52 + k) <= Z.pos P < 2 ^ (53 + k) ->
  -1074 <= E + k -> E + k + 1 <= 971 ->
  let q := Z.pos P / 2 ^ k in
  let rem := Z.pos P mod 2 ^ k in
  let R := round_nearest_even q (loc_of rem (2 ^ k)) in
  2 ^ 52 <= q < 2 ^ 53
  /\ binary_round_aux prec emax s (Z.pos P) E loc_Exact
     = if R =? 2 ^ 53 then S754_finite s (Z.to_pos (2 ^ 52)) (E + k + 1)
       else S754_finite s (Z.to_pos R) (E + k).
Proof.
  intros Hk HP Hlo Hhi q rem R.
  assert (HU : 0 < 2 ^ k) by (apply Z.pow_pos_nonneg; lia).
  assert (Hrem : 0 <= rem < 2 ^ k) by (apply Z.mod_pos_bound; lia).
  assert (Hq : 2 ^ 52 <= q < 2 ^ 53).
  { subst q. rewrite !Z.pow_add_r in HP by lia. split.
    - apply Z.div_le_lower_bound; lia.
    - apply Z.div_lt_upper_bound; lia. }
  split; [exact Hq |].
  destruct (round_nearest_even_loc q rem (2 ^ k) Hrem) as [HR _].
  fold R in HR.
  unfold binary_round_aux, shr_fexp.
  rewrite (digits_of_range (Z.pos P) (52 + k)) by
    (try lia; replace (52 + k + 1) with (53 + k) by lia; exact HP).
  replace (52 + k + 1 + E) with (53 + (E + k)) by lia.
  rewrite fexp_normal by lia.
  replace (E + k - E) with k by lia.
  destruct k as [| kp |]; try lia.
  cbn [shr shr_record_of_loc]. rewrite iter_pos_nat.
  destruct (shr_nat_spec (Z.pos P) (Pos.to_nat kp) ltac:(lia)) as [Hm Hl].
  rewrite positive_nat_Z in Hm, Hl.
  fold q in Hm. fold rem in Hl.
  set (r1 := Nat.iter (Pos.to_nat kp) shr_1
               {| shr_m := Z.pos P; shr_r := false; shr_s := false |}) in *.
  rewrite Hm, Hl. fold R.
  destruct (Z.eqb_spec R (2 ^ 53)) as [HR53 | HR53].
  - rewrite HR53.
    rewrite (digits_of_range (2 ^ 53) 53) by lia.
    replace (53 + 1 + (E + Z.pos kp)) with (53 + (E + Z.pos kp + 1)) by lia.
    rewrite fexp_normal by lia.
    replace (E + Z.pos kp + 1 - (E + Z.pos kp)) with 1 by lia.
    cbn. destruct (Z.leb_spec (E + Z.pos kp + 1) 971); [reflexivity | lia].
  - assert (HR' : 2 ^ 52 <= R < 2 ^ 53) by lia.
    rewrite (digits_of_range R 52) by lia.
    replace (52 + 1 + (E + Z.pos kp)) with (53 + (E + Z.pos kp)) by lia.
    rewrite fexp_normal by lia. rewrite Z.sub_diag.
    cbn [shr shr_record_of_loc shr_m].
    destruct R as [| Rp |]; try lia.
    cbn [Z.to_pos].
    destruct (Z.leb_spec (E + Z.pos kp) (emax - prec));
      [reflexivity | unfold emax, prec in *; lia].
Qed.

End Rounding.

Section Canonical.

Lemma pow2_pos (k : Z) : 0 <= k -> 0 < 2 ^ k.
Proof. intros. apply Z.pow_pos_nonneg; lia. Qed.

Lemma digits_pos_range (m : positive) :
  Z.pos (digits2_pos m) = 53 <-> 2 ^ 52 <= Z.pos m < 2 ^ 53.
Proof.
  change (Z.pos (digits2_pos m)) with (Zdigits2 (Z.pos m)).
  rewrite Zdigits2_log2 by lia.
  pose proof (Z.log2_spec (Z.pos m) ltac:(lia)) as Hs.
  split.
  - intros H. replace (Z.log2 (Z.pos m)) with 52 in Hs by lia.
    exact Hs.
  - intros H. rewrite (Z.log2_unique (Z.pos m) 52); lia.
Qed.

(** The double of a nonzero integer below [2^53], of either sign: its
    magnitude moved up to 53 bits. *)
Lemma binary_round_normal (p : positive) :
  Z.pos p < 2 ^ 53 ->
  exists m e,
    (forall s, binary_round prec emax s p 0 = S754_finite s m e)
    /\ 2 ^ 52 <= Z.pos m < 2 ^ 53
    /\ -52 <= e <= 0
    /\ Z.pos m = Z.pos p * 2 ^ (- e).
Proof.
  intros Hp. pose proof (digits_small p Hp) as Hd.
  unfold binary_round.
  rewrite Z.add_0_r, fexp_digits by lia.
  unfold shl_align. rewrite Z.sub_0_r.
  assert (Hone : 1 <= Z.pos (digits2_pos p)) by lia.
  destruct (Z.pos (digits2_pos p) - prec) as [| k | k] eqn:Hk;
    unfold prec in Hk, Hd; try lia.
  - exists p, 0. split; [| split; [| split; [lia |]]].
    + intros s. apply binary_round_aux_exact; [| unfold emax, prec; lia].
      rewrite Z.add_0_r, fexp_digits by lia. unfold prec. lia.
    + apply digits_pos_range. lia.
    + cbn. lia.
  - exists (Pos.iter xO p k), (Z.neg k).
    assert (Hdig : Z.pos (digits2_pos (Pos.iter xO p k)) = 53)
      by (rewrite digits2_pos_iter_xO, Pos2Z.inj_add; lia).
    split; [| split; [| split; [lia |]]].
    + intros s. apply binary_round_aux_exact; [| unfold emax, prec; lia].
      rewrite Hdig. apply fexp_normal. lia.
    + now apply digits_pos_range.
    + rewrite pos_iter_xO, Z.shiftl_mul_pow2 by lia. reflexivity.
Qed.

(** A mantissa below 53 bits is moved up. *)
Lemma binary_round_up (s : bool) (P m : positive) (E j : Z) :
  0 < j -> Z.pos m = Z.pos P * 2 ^ j ->
  2 ^ 52 <= Z.pos m < 2 ^ 53 ->
  -1074 <= E - j <= 971 ->
  binary_round prec emax s P E = S754_finite s m (E - j).
Proof.
  intros Hj Hm Hr HE.
  destruct j as [| jp |]; try lia.
  assert (Hmp : m = Pos.iter xO P jp).
  { apply Pos2Z.inj. rewrite pos_iter_xO, Z.shiftl_mul_pow2 by lia.
    exact Hm. }
  assert (Hdm : Z.pos (digits2_pos m) = 53) by now apply digits_pos_range.
  assert (HdP : Z.pos (digits2_pos P) = 53 - Z.pos jp).
  { rewrite Hmp, digits2_pos_iter_xO, Pos2Z.inj_add in Hdm. lia. }
  unfold binary_round. rewrite HdP.
  replace (53 - Z.pos jp + E) with (53 + (E - Z.pos jp)) by lia.
  rewrite fexp_normal by lia.
  unfold shl_align.
  replace (E - Z.pos jp - E) with (Z.neg jp) by lia.
  rewrite <- Hmp.
  apply binary_round_aux_exact; [| unfold emax, prec; lia].
  rewrite Hdm. apply fexp_normal. lia.
Qed.

(** Every way to write an integer [v] below [2^53] as a mantissa [P] and
    an exponent [E <= 0] rounds to the same double. *)
Lemma binary_round_canonical (s : bool) (v P : positive) (E : Z) :
  Z.pos v < 2 ^ 53 ->
  -1000 <= E <= 0 -> Z.pos P = Z.pos v * 2 ^ (- E) ->
  binary_round prec emax s P E = binary_round prec emax s v 0.
Proof.
  intros Hv HE HP.
  destruct (binary_round_normal v Hv) as [m [e [Hn [Hm [He Hmv]]]]].
  rewrite Hn.
  destruct (Z_le_gt_dec e E) as [Hle | Hgt].
  - (* P has at most 53 bits *)
    destruct (Z.eq_dec e E) as [-> | Hne].
    + assert (P = m) by (apply Pos2Z.inj; lia). subst P.
      rewrite <- (Z.add_0_r E) at 2.
      apply binary_round_of_normal; try lia.
      * now apply digits_pos_range.
      * now rewrite Z.shiftl_0_r.
    + replace e with (E - (E - e)) by lia.
      apply binary_round_up; try lia.
      rewrite HP, Hmv, <- Z.mul_assoc, <- Z.pow_add_r by lia.
      do 2 f_equal. lia.
  - (* P is m followed by zeros *)
    replace e with (E + (e - E)) by lia.
    apply binary_round_of_normal; try lia.
    + now apply digits_pos_range.
    + rewrite Z.shiftl_mul_pow2 by lia.
      rewrite HP, Hmv, <- Z.mul_assoc, <- Z.pow_add_r by lia.
      do 2 f_equal. lia.
Qed.

(** The sign and the magnitude of the double of a nonzero integer. *)
Lemma of_Z_finite (z : Z) :
  z <> 0 -> Z.abs z < 2 ^ 53 ->
  exists m e,
    of_Z z = S754_finite (z <? 0) m e
    /\ 2 ^ 52 <= Z.pos m < 2 ^ 53
    /\ -52 <= e <= 0
    /\ Z.pos m = Z.abs z * 2 ^ (- e).
Proof.
  intros Hz Hb. unfold of_Z, binary_normalize.
  destruct z as [| p | p]; [contradiction | |].
  - destruct (binary_round_normal p) as [m [e [Hn H]]]; [lia |].
    exists m, e. rewrite Hn. split; [reflexivity | exact H].
  - destruct (binary_round_normal p) as [m [e [Hn H]]]; [lia |].
    exists m, e. rewrite Hn. split; [reflexivity | exact H].
Qed.

(** An integer [z] below [2^53] written with an exponent [E <= 0]. *)
Lemma binary_normalize_canonical (z E : Z) :
  Z.abs z < 2 ^ 53 -> -1000 <= E <= 0 ->
  binary_normalize prec emax (z * 2 ^ (- E)) E false = of_Z z.
Proof.
  intros Hz HE. pose proof (pow2_pos (- E) ltac:(lia)) as Hp.
  unfold of_Z, binary_normalize.
  destruct z as [| p | p].
  - reflexivity.
  - destruct (Z.pos p * 2 ^ (- E)) as [| P | P] eqn:HP; try lia.
    apply binary_round_canonical; lia.
  - destruct (Z.neg p * 2 ^ (- E)) as [| P | P] eqn:HP; try lia.
    apply binary_round_canonical; lia.
Qed.

Lemma cond_Zopp_sign (z : Z) : cond_Zopp (z <? 0) (Z.abs z) = z.
Proof. unfold cond_Zopp. destruct (Z.ltb_spec z 0); lia. Qed.

(** The difference of two integers is exact while it stays below
    [2^53]. *)
Lemma sub_exact (a b : Z) :
  Z.abs a < 2 ^ 53 -> Z.abs b < 2 ^ 53 -> Z.abs (a - b) < 2 ^ 53 ->
  sub (of_Z a) (of_Z b) = of_Z (a - b).
Proof.
  intros Ha Hb Hab.
  destruct (Z.eq_dec a 0) as [-> | Ha0]; destruct (Z.eq_dec b 0) as [-> | Hb0].
  - reflexivity.
  - destruct (of_Z_finite b Hb0 Hb) as [mb [eb [Eb [Hmb [Heb Hvb]]]]].
    destruct (of_Z_finite (0 - b) ltac:(lia) ltac:(lia))
      as [m' [e' [E' [Hm' [He' Hv']]]]].
    rewrite Eb, E'. change (of_Z 0) with (S754_zero false).
    unfold sub, SFsub.
    assert (He : e' = eb).
    { destruct (Z.lt_trichotomy e' eb) as [Hlt | [Heq | Hgt]];
        [exfalso | exact Heq | exfalso].
      - assert (Hpow : 2 ^ (- e') = 2 ^ (- eb) * 2 ^ (eb - e'))
          by (rewrite <- Z.pow_add_r by lia; f_equal; lia).
        assert (2 <= 2 ^ (eb - e'))
          by (change 2 with (2 ^ 1) at 1; apply Z.pow_le_mono_r; lia).
        replace (Z.abs (0 - b)) with (Z.abs b) in Hv' by lia. nia.
      - assert (Hpow : 2 ^ (- eb) = 2 ^ (- e') * 2 ^ (e' - eb))
          by (rewrite <- Z.pow_add_r by lia; f_equal; lia).
        assert (2 <= 2 ^ (e' - eb))
          by (change 2 with (2 ^ 1) at 1; apply Z.pow_le_mono_r; lia).
        replace (Z.abs (0 - b)) with (Z.abs b) in Hv' by lia. nia. }
    subst e'. f_equal.
    + destruct (Z.ltb_spec b 0), (Z.ltb_spec (0 - b) 0); try lia; reflexivity.
    + apply Pos2Z.inj. rewrite Hvb, Hv'. f_equal. lia.
  - rewrite Z.sub_0_r.
    destruct (of_Z_finite a Ha0 Ha) as [ma [ea [Ea _]]].
    rewrite Ea. reflexivity.
  - destruct (of_Z_finite a Ha0 Ha) as [ma [ea [Ea [Hma [Hea Hva]]]]].
    destruct (of_Z_finite b Hb0 Hb) as [mb [eb [Eb [Hmb [Heb Hvb]]]]].
    rewrite Ea, Eb. unfold sub, SFsub.
    set (ez := Z.min ea eb).
    rewrite !shl_align_value by (unfold ez; lia).
    rewrite !Z.shiftl_mul_pow2 by (unfold ez; lia).
    rewrite Hva, Hvb, <- !Z.mul_assoc, <- !Z.pow_add_r by (unfold ez; lia).
    replace (- ea + (ea - ez)) with (- ez) by lia.
    replace (- eb + (eb - ez)) with (- ez) by lia.
    assert (Hsa : cond_Zopp (a <? 0) (Z.abs a * 2 ^ (- ez)) = a * 2 ^ (- ez)).
    { rewrite <- (cond_Zopp_sign a) at 3. unfold cond_Zopp.
      destruct (a <? 0); lia. }
    assert (Hsb : cond_Zopp (b <? 0) (Z.abs b * 2 ^ (- ez)) = b * 2 ^ (- ez)).
    { rewrite <- (cond_Zopp_sign b) at 3. unfold cond_Zopp.
      destruct (b <? 0); lia. }
    rewrite Hsa, Hsb, <- Z.mul_sub_distr_r.
    apply binary_normalize_canonical; unfold ez; lia.
Qed.

End Canonical.

Section ExactOperations.

(** The product of an integer and a positive integer is exact while it
    stays below [2^53]. *)
Lemma mul_exact (a b : Z) :
  0 < b -> Z.abs a < 2 ^ 53 -> b < 2 ^ 53 -> Z.abs (a * b) < 2 ^ 53 ->
  mul (of_Z a) (of_Z b) = of_Z (a * b).
Proof.
  intros Hb0 Ha Hb Hab.
  destruct (of_Z_finite b ltac:(lia) ltac:(lia))
    as [mb [eb [Eb [Hmb [Heb Hvb]]]]].
  destruct (Z.ltb_spec b 0) as [| _]; [lia |].
  destruct (Z.eq_dec a 0) as [-> | Ha0].
  - rewrite Eb. reflexivity.
  - destruct (of_Z_finite a Ha0 Ha) as [ma [ea [Ea [Hma [Hea Hva]]]]].
    destruct (of_Z_finite (a * b) ltac:(nia) Hab)
      as [mv [ev [Ev [Hmv [Hev Hvv]]]]].
    rewrite Ea, Eb, Ev. unfold mul, SFmul.
    assert (Hs : xorb (a <? 0) false = (a * b <? 0)).
    { rewrite xorb_false_r.
      destruct (Z.ltb_spec a 0), (Z.ltb_spec (a * b) 0); try nia; reflexivity. }
    rewrite Hs.
    set (k := ev - (ea + eb)).
    assert (Hprod : Z.pos (ma * mb) = Z.abs (a * b) * 2 ^ (- ea - eb)).
    { rewrite Pos2Z.inj_mul, Hva, Hvb, Z.abs_mul.
      replace (- ea - eb) with (- ea + - eb) by lia.
      rewrite Z.pow_add_r by lia. ring. }
    assert (Hk : 0 <= k).
    { destruct (Z_lt_le_dec k 0) as [Hneg | Hnn]; [exfalso | exact Hnn].
      assert (Hpow : 2 ^ (- ev) = 2 ^ (- ea - eb) * 2 ^ (- k))
        by (rewrite <- Z.pow_add_r by (unfold k in *; lia);
            f_equal; unfold k; lia).
      assert (1 <= 2 ^ (- k)) by (pose proof (pow2_pos (- k)); lia).
      assert (2 ^ 104 <= Z.pos (ma * mb))
        by (rewrite Pos2Z.inj_mul; change (2 ^ 104) with (2 ^ 52 * 2 ^ 52);
            apply Z.mul_le_mono_nonneg; lia).
      assert (Z.pos mv = Z.pos (ma * mb) * 2 ^ (- k))
        by (rewrite Hvv, Hprod, Hpow; ring).
      nia. }
    assert (HP : Z.pos (ma * mb) = Z.pos mv * 2 ^ k).
    { rewrite Hprod, Hvv, <- Z.mul_assoc, <- Z.pow_add_r by lia.
      do 2 f_equal. unfold k. lia. }
    assert (Hk52 : 52 <= k).
    { destruct (Z_lt_le_dec k 52) as [Hlt | Hge]; [exfalso | exact Hge].
      assert (2 ^ k <= 2 ^ 51) by (apply Z.pow_le_mono_r; lia).
      assert (2 ^ 104 <= Z.pos (ma * mb))
        by (rewrite Pos2Z.inj_mul; change (2 ^ 104) with (2 ^ 52 * 2 ^ 52);
            apply Z.mul_le_mono_nonneg; lia).
      pose proof (pow2_pos k Hk). nia. }
    pose proof (pow2_pos k Hk) as Hpk.
    destruct (binary_round_aux_spec (a * b <? 0) (ma * mb) (ea + eb) k)
      as [_ Hr]; try (unfold k; lia).
    { rewrite HP, !Z.pow_add_r by lia. nia. }
    rewrite Hr. clear Hr.
    assert (Hq : Z.pos (ma * mb) / 2 ^ k = Z.pos mv)
      by (rewrite HP; apply Z.div_mul; lia).
    assert (Hrem : Z.pos (ma * mb) mod 2 ^ k = 0)
      by (rewrite HP; apply Z.mod_mul; lia).
    rewrite Hq, Hrem.
    destruct (round_nearest_even_loc (Z.pos mv) 0 (2 ^ k) ltac:(lia))
      as [_ [_ [_ HR]]].
    rewrite (HR eq_refl).
    destruct (Z.eqb_spec (Z.pos mv) (2 ^ 53)); [lia |].
    cbn [Z.to_pos]. f_equal. unfold k. lia.
Qed.

(** The sign test of a whole double. *)
Lemma ltb_zero (a : Z) :
  Z.abs a < 2 ^ 53 -> ltb (of_Z a) (of_Z 0) = (a <? 0).
Proof.
  intros Ha. destruct (Z.eq_dec a 0) as [-> | Ha0]; [reflexivity |].
  destruct (of_Z_finite a Ha0 Ha) as [m [e [Ea _]]].
  rewrite Ea. change (of_Z 0) with (S754_zero false).
  unfold ltb, SFltb, SFcompare. destruct (a <? 0); reflexivity.
Qed.

Lemma of_sign_Z_abs (a : Z) :
  a <> 0 -> of_sign_Z (a <? 0) (Z.abs a) = of_Z a.
Proof.
  intros Ha. unfold of_sign_Z, of_Z.
  destruct (Z.ltb_spec a 0).
  - replace (- Z.abs a) with a by lia.
    destruct a; try lia; reflexivity.
  - replace (Z.abs a) with a by lia.
    destruct a; try lia; reflexivity.
Qed.

(** [floor] and [trunc] leave a whole double as it is. *)
Lemma floor_trunc_whole (a : Z) :
  Z.abs a < 2 ^ 53 ->
  floor (of_Z a) = of_Z a /\ trunc (of_Z a) = of_Z a.
Proof.
  intros Ha. destruct (Z.eq_dec a 0) as [-> | Ha0]; [split; reflexivity |].
  destruct (of_Z_finite a Ha0 Ha) as [m [e [Ea [Hm [He Hv]]]]].
  rewrite Ea. unfold floor, trunc.
  destruct (Z.leb_spec 0 e) as [H0 | Hneg]; [split; reflexivity |].
  destruct (Z.abs a) as [| p |] eqn:Hp; try lia.
  destruct (shiftl_integer p m e ltac:(lia)) as [Hf Hmag].
  { rewrite Z.shiftl_mul_pow2 by lia. exact Hv. }
  rewrite Hf, Hmag, andb_false_r, <- Hp, of_sign_Z_abs by assumption.
  split; exact Ea.
Qed.

End ExactOperations.

Section RoundedBounds.

(** The rounded mantissa [R'] at its exponent [e'] is, in units of
    [2^E], the multiple of [2^k] just below the mantissa [P] or the one
    just above; it is [P] when [P] is such a multiple. *)
Lemma binary_round_aux_between (s : bool) (P : positive) (E k : Z) :
  1 <= k ->
  2 ^ (52 + k) <= Z.pos P < 2 ^ (53 + k) ->
  -1074 <= E + k -> E + k + 1 <= 971 ->
  let q := Z.pos P / 2 ^ k in
  exists R' e',
    binary_round_aux prec emax s (Z.pos P) E loc_Exact = S754_finite s R' e'
    /\ 2 ^ 52 <= Z.pos R' < 2 ^ 53
    /\ E + k <= e'
    /\ (Z.pos R' * 2 ^ (e' - E) = q * 2 ^ k
        \/ (Z.pos P mod 2 ^ k <> 0
            /\ Z.pos R' * 2 ^ (e' - E) = (q + 1) * 2 ^ k)).
Proof.
  intros Hk HP Hlo Hhi q.
  destruct (binary_round_aux_spec s P E k Hk HP Hlo Hhi) as [Hq Hr].
  fold q in Hq, Hr.
  set (rem := Z.pos P mod 2 ^ k) in *.
  pose proof (pow2_pos k ltac:(lia)) as Hpk.
  assert (Hrem : 0 <= rem < 2 ^ k) by (apply Z.mod_pos_bound; lia).
  destruct (round_nearest_even_loc q rem (2 ^ k) Hrem) as [HR [_ [_ H0]]].
  set (R := round_nearest_even q (loc_of rem (2 ^ k))) in *.
  destruct (Z.eqb_spec R (2 ^ 53)) as [HR53 | HR53].
  - exists (Z.to_pos (2 ^ 52)), (E + k + 1).
    split; [exact Hr |]. split; [cbn; lia |]. split; [lia |].
    right. split.
    + intros E0. specialize (H0 E0). lia.
    + replace (E + k + 1 - E) with (k + 1) by lia.
      rewrite Z.pow_add_r by lia.
      destruct HR as [HR | HR]; [lia |].
      rewrite <- HR, HR53. cbn [Z.to_pos]. 
      change (Z.pos (Z.to_pos (2 ^ 52))) with (2 ^ 52).
      change (2 ^ 53) with (2 ^ 52 * 2 ^ 1). ring.
  - assert (HRr : 2 ^ 52 <= R < 2 ^ 53) by lia.
    exists (Z.to_pos R), (E + k).
    split; [exact Hr |].
    rewrite Z2Pos.id by lia.
    split; [exact HRr |]. split; [lia |].
    replace (E + k - E) with k by lia.
    destruct (Z.eq_dec rem 0) as [E0 | E0].
    + left. now rewrite (H0 E0).
    + destruct HR as [HR | HR]; rewrite HR; [now left | right; now split].
Qed.

(** The floor of a double from bounds on its magnitude in units of
    [2^E]. *)
Lemma floor_between (s : bool) (R' : positive) (e' E c : Z) :
  E <= e' -> E < 0 ->
  2 ^ 52 <= Z.pos R' ->
  0 <= c -> c + 1 <= 2 ^ 52 ->
  let V := Z.pos R' * 2 ^ (e' - E) in
  (s = false ->
   c * 2 ^ (- E) <= V < (c + 1) * 2 ^ (- E) ->
   floor (S754_finite s R' e') = of_Z c)
  /\ (s = true -> 1 <= c ->
      (c - 1) * 2 ^ (- E) < V <= c * 2 ^ (- E) ->
      floor (S754_finite s R' e') = of_Z (- c)).
Proof.
  intros HE HEneg HR Hc0 Hc V.
  pose proof (pow2_pos (e' - E) ltac:(lia)) as Hp1.
  pose proof (pow2_pos (- E) ltac:(lia)) as Hp2.
  assert (Hneg : V < (c + 1) * 2 ^ (- E) -> e' < 0).
  { intros HV.
    destruct (Z_lt_le_dec e' 0) as [Hlt | Hge]; [exact Hlt | exfalso].
    assert (2 ^ (- E) <= 2 ^ (e' - E)) by (apply Z.pow_le_mono_r; lia).
    subst V. nia. }
  assert (Hsplit : e' < 0 -> 2 ^ (- E) = 2 ^ (- e') * 2 ^ (e' - E)).
  { intros H. rewrite <- Z.pow_add_r by lia. f_equal. lia. }
  split.
  - intros -> HV.
    assert (He : e' < 0) by (apply Hneg; lia).
    pose proof (pow2_pos (- e') ltac:(lia)) as Hp3.
    rewrite (Hsplit He) in HV. subst V.
    assert (Hq : Z.pos R' / 2 ^ (- e') = c).
    { symmetry. apply (Z.div_unique _ _ _ (Z.pos R' - c * 2 ^ (- e'))); nia. }
    unfold floor. destruct (Z.leb_spec 0 e'); [lia |].
    cbn [andb]. unfold magnitude_floor.
    destruct (Z.leb_spec 0 e'); [lia |].
    rewrite Z.shiftr_div_pow2, Hq by lia. reflexivity.
  - intros -> Hc1 HV.
    assert (He : e' < 0) by (apply Hneg; nia).
    pose proof (pow2_pos (- e') ltac:(lia)) as Hp3.
    rewrite (Hsplit He) in HV. subst V.
    unfold floor. destruct (Z.leb_spec 0 e'); [lia |].
    cbn [andb]. unfold has_fraction, magnitude_floor.
    destruct (Z.leb_spec 0 e'); [lia |].
    rewrite Z.shiftr_div_pow2, Z.shiftl_mul_pow2 by lia.
    assert (Hopp : forall z, 0 < z -> of_sign_Z true z = of_Z (- z)).
    { intros z Hz. unfold of_sign_Z, of_Z.
      destruct z; try lia. reflexivity. }
    destruct (Z.eq_dec (Z.pos R') (c * 2 ^ (- e'))) as [Heq | Hne].
    + assert (Hq : Z.pos R' / 2 ^ (- e') = c)
        by (rewrite Heq; apply Z.div_mul; lia).
      rewrite Hq, <- Heq, Z.eqb_refl. cbn [negb].
      apply Hopp. lia.
    + assert (Hq : Z.pos R' / 2 ^ (- e') = c - 1).
      { symmetry.
        apply (Z.div_unique _ _ _ (Z.pos R' - (c - 1) * 2 ^ (- e'))); nia. }
      rewrite Hq.
      destruct (Z.eqb_spec ((c - 1) * 2 ^ (- e')) (Z.pos R')); [nia |].
      cbn [negb]. replace (c - 1 + 1) with c by lia.
      apply Hopp. lia.
Qed.

End RoundedBounds.

Section WholeSeconds.

Import Distance.

Lemma lit_1em6_bits : lit_1em6 = S754_finite false 4722366482869645 (-72).
Proof. vm_compute. reflexivity. Qed.

Lemma lit_1em7_bits : lit_1em7 = S754_finite false 7555786372591432 (-76).
Proof. vm_compute. reflexivity. Qed.

Lemma pow2_lt_exponent (a b : Z) : 0 <= a -> 2 ^ a < 2 ^ b -> a < b.
Proof.
  intros Ha H. destruct (Z_lt_le_dec a b) as [Hlt | Hge]; [exact Hlt |].
  exfalso. destruct (Z_lt_le_dec b 0) as [Hb | Hb].
  - rewrite (Z.pow_neg_r 2 b) in H by lia. pose proof (pow2_pos a Ha). lia.
  - assert (2 ^ b <= 2 ^ a) by (apply Z.pow_le_mono_r; lia). lia.
Qed.

(** Scaling a whole number of microseconds back to seconds is exact: the
    double nearest to [1e-6] is [1e-6 * (1 - 213696 / 2^72)], and the
    error it brings stays below half a unit in the last place. *)
Lemma mul_1em6_whole (n : Z) :
  n <> 0 -> Z.abs n <= 2 ^ 32 ->
  mul (of_Z (n * 1000000)) lit_1em6 = of_Z n.
Proof.
  intros Hn0 Hn.
  destruct (of_Z_finite (n * 1000000) ltac:(lia) ltac:(lia))
    as [M [EN [EqN [HM [HEN HvN]]]]].
  destruct (of_Z_finite n Hn0 ltac:(lia)) as [mv [ev [Eqn [Hmv [Hev Hvn]]]]].
  rewrite EqN, Eqn, lit_1em6_bits. unfold mul, SFmul.
  assert (Hs : xorb (n * 1000000 <? 0) false = (n <? 0)).
  { rewrite xorb_false_r.
    destruct (Z.ltb_spec (n * 1000000) 0), (Z.ltb_spec n 0);
      try lia; reflexivity. }
  rewrite Hs. clear Hs EqN Eqn.
  set (mc := 4722366482869645%positive).
  set (A := 2 ^ (- EN)) in *. set (B := 2 ^ (- ev)) in *.
  set (k0 := ev - EN + 72).
  set (K := 2 ^ k0).
  assert (HA : 0 < A) by (apply pow2_pos; lia).
  assert (HB : 0 < B) by (apply pow2_pos; lia).
  assert (HK : 0 < K) by (apply pow2_pos; unfold k0; lia).
  assert (HKB : K * B = A * 2 ^ 72).
  { unfold K, B, A. rewrite <- !Z.pow_add_r by (unfold k0; lia).
    f_equal. unfold k0. lia. }
  set (a := Z.abs n) in *.
  assert (Ha : 0 < a) by (unfold a; lia).
  replace (Z.abs (n * 1000000)) with (a * 1000000) in HvN
    by (unfold a; lia).
  set (P := Z.pos (M * mc)).
  set (diff := a * A * 213696).
  assert (HP : Z.pos mv * K = P + diff).
  { unfold P, diff. rewrite Pos2Z.inj_mul, HvN, Hvn.
    replace (a * B * K) with (a * (K * B)) by ring.
    rewrite HKB. unfold mc.
    change (2 ^ 72) with (1000000 * 4722366482869645 + 213696). ring. }
  assert (Hdiff : 0 < diff) by (unfold diff; nia).
  assert (Hhalf : 2 * diff < K).
  { apply (Z.mul_lt_mono_pos_r B); [exact HB |].
    rewrite HKB. unfold diff.
    replace (2 * (a * A * 213696) * B) with (A * (2 * 213696 * (a * B)))
      by ring.
    rewrite <- Hvn. apply Z.mul_lt_mono_pos_l; [exact HA |].
    change (2 ^ 72) with (2 * 262144 * 2 ^ 53). nia. }
  assert (HP104 : 2 ^ 104 <= P).
  { unfold P. rewrite Pos2Z.inj_mul.
    change (2 ^ 104) with (2 ^ 52 * 2 ^ 52).
    apply Z.mul_le_mono_nonneg; unfold mc; lia. }
  assert (Hk0 : 52 <= k0).
  { assert (2 ^ 51 < K) by nia.
    apply pow2_lt_exponent in H; lia. }
  destruct (Z_le_gt_dec (2 ^ 52 * K) P) as [Hbig | Hsmall].
  - (* the product has 53 + k0 bits *)
    destruct (binary_round_aux_spec (n <? 0) (M * mc) (EN + -72) k0)
      as [_ Hr]; try (unfold k0; lia).
    { fold P. fold K. rewrite !Z.pow_add_r by lia. fold K. nia. }
    fold P in Hr. fold K in Hr. rewrite Hr. clear Hr.
    assert (Hq : P / K = Z.pos mv - 1)
      by (symmetry; apply (Z.div_unique _ _ _ (K - diff)); lia).
    assert (Hrem : P mod K = K - diff)
      by (symmetry; apply (Z.mod_unique _ _ (Z.pos mv - 1)); lia).
    rewrite Hq, Hrem.
    destruct (round_nearest_even_loc (Z.pos mv - 1) (K - diff) K
                ltac:(lia)) as [_ [_ [HR _]]].
    rewrite HR by lia.
    replace (Z.pos mv - 1 + 1) with (Z.pos mv) by lia.
    destruct (Z.eqb_spec (Z.pos mv) (2 ^ 53)); [lia |].
    cbn [Z.to_pos]. f_equal. unfold k0. lia.
  - (* the magnitude is a power of two and the product falls short *)
    assert (Hpow : Z.pos mv = 2 ^ 52) by nia.
    assert (Hquarter : 4 * diff < K).
    { apply (Z.mul_lt_mono_pos_r B); [exact HB |].
      rewrite HKB. unfold diff.
      replace (4 * (a * A * 213696) * B) with (A * (4 * 213696 * (a * B)))
        by ring.
      rewrite <- Hvn, Hpow. apply Z.mul_lt_mono_pos_l; [exact HA |].
      reflexivity. }
    set (k := k0 - 1).
    set (K' := 2 ^ k).
    assert (HK' : K = 2 * K').
    { unfold K, K'. replace k0 with (k + 1) by (unfold k; lia).
      rewrite Z.pow_add_r by (unfold k; lia). lia. }
    destruct (binary_round_aux_spec (n <? 0) (M * mc) (EN + -72) k)
      as [_ Hr]; try (unfold k, k0; lia).
    { fold P. rewrite !Z.pow_add_r by (unfold k; lia). fold K'.
      change (2 ^ 53) with (2 * 2 ^ 52). nia. }
    fold P in Hr. fold K' in Hr. rewrite Hr. clear Hr.
    assert (Hq : P / K' = 2 ^ 53 - 1)
      by (symmetry; apply (Z.div_unique _ _ _ (K' - diff)); 
          change (2 ^ 53) with (2 * 2 ^ 52); nia).
    assert (Hrem : P mod K' = K' - diff)
      by (symmetry; apply (Z.mod_unique _ _ (2 ^ 53 - 1));
          change (2 ^ 53) with (2 * 2 ^ 52); nia).
    rewrite Hq, Hrem.
    destruct (round_nearest_even_loc (2 ^ 53 - 1) (K' - diff) K'
                ltac:(lia)) as [_ [_ [HR _]]].
    rewrite HR by lia.
    replace (2 ^ 53 - 1 + 1) with (2 ^ 53) by lia.
    rewrite Z.eqb_refl. f_equal.
    + apply Pos2Z.inj. rewrite Hpow. reflexivity.
    + unfold k, k0. lia.
Qed.

Lemma pow2_le_exponent (a b : Z) : 0 <= b -> 2 ^ a <= 2 ^ b -> a <= b.
Proof.
  intros Hb H. destruct (Z_le_gt_dec a b) as [Hle | Hgt]; [exact Hle |].
  exfalso. assert (2 ^ b < 2 ^ a) by (apply Z.pow_lt_mono_r; lia). lia.
Qed.

Lemma div_sandwich (P U : Z) :
  0 < U -> (P / U) * U <= P < (P / U + 1) * U.
Proof.
  intros HU. pose proof (Z.div_mod P U ltac:(lia)).
  pose proof (Z.mod_pos_bound P U HU). nia.
Qed.

(** The guard [1e-7] added to a whole number of seconds [n]: the sum is
    a double of the sign of [n] whose magnitude, in units of [2^-76],
    lies within [2^57] of [|n| * 2^76], on the side of the guard. *)
Lemma add_guard_between (n : Z) :
  n <> 0 -> Z.abs n <= 2 ^ 32 ->
  exists R' e',
    add (of_Z n) lit_1em7 = S754_finite (n <? 0) R' e'
    /\ 2 ^ 52 <= Z.pos R' < 2 ^ 53
    /\ -76 <= e'
    /\ (0 < n ->
        n * 2 ^ 76 <= Z.pos R' * 2 ^ (e' + 76) < n * 2 ^ 76 + 2 ^ 57)
    /\ (n < 0 ->
        - n * 2 ^ 76 - 2 ^ 57 < Z.pos R' * 2 ^ (e' + 76) <= - n * 2 ^ 76).
Proof.
  intros Hn0 Hn.
  destruct (of_Z_finite n Hn0 ltac:(lia)) as [mv [ev [Eqn [Hmv [Hev Hvn]]]]].
  rewrite Eqn, lit_1em7_bits. unfold add, SFadd.
  set (m7 := 7555786372591432%positive).
  replace (Z.min ev (-76)) with (-76) by lia.
  rewrite !shl_align_value by lia.
  rewrite Z.sub_diag, Z.shiftl_0_r, Z.shiftl_mul_pow2 by lia.
  set (k := ev - -76).
  set (B := 2 ^ (- ev)) in *.
  assert (HB : 0 < B) by (apply pow2_pos; lia).
  assert (Hk24 : 24 <= k) by (unfold k; lia).
  assert (Hev20 : ev <= -20).
  { assert (2 ^ 20 <= B) by nia.
    apply pow2_le_exponent in H; lia. }
  assert (Hk56 : k <= 56) by (unfold k; lia).
  pose proof (pow2_pos k ltac:(lia)) as HK.
  assert (HBK : B * 2 ^ k = 2 ^ 76).
  { unfold B. rewrite <- Z.pow_add_r by lia. f_equal. unfold k. lia. }
  assert (Hval : Z.pos mv * 2 ^ k = Z.abs n * 2 ^ 76)
    by (rewrite Hvn, <- HBK; ring).
  assert (HK56 : 2 ^ k <= 2 ^ 56) by (apply Z.pow_le_mono_r; lia).
  assert (HK24 : 2 ^ 24 <= 2 ^ k) by (apply Z.pow_le_mono_r; lia).
  assert (Hround : forall (s : bool) (S : positive) (k1 : Z),
            23 <= k1 <= 56 ->
            2 ^ (52 + k1) <= Z.pos S < 2 ^ (53 + k1) ->
            binary_normalize prec emax
              (cond_Zopp s (Z.pos S)) (-76) false
            = binary_round_aux prec emax s (Z.pos S) (-76) loc_Exact).
  { intros s S k1 Hk1 HS.
    assert (Hd : Z.pos (digits2_pos S) = 53 + k1).
    { change (Z.pos (digits2_pos S)) with (Zdigits2 (Z.pos S)).
      rewrite (digits_of_range (Z.pos S) (52 + k1)); try lia.
      replace (52 + k1 + 1) with (53 + k1) by lia. exact HS. }
    unfold binary_normalize, cond_Zopp, binary_round.
    destruct s; cbn [Z.opp]; rewrite Hd;
      replace (53 + k1 + -76) with (53 + (k1 - 76)) by lia;
      rewrite fexp_normal by lia; unfold shl_align;
      destruct (k1 - 76 - -76) eqn:Hz; try lia; reflexivity. }
  destruct (Z.ltb_spec n 0) as [Hneg | Hpos].
  - (* a negative number of seconds *)
    cbn [cond_Zopp].
    assert (Hm7 : Z.pos m7 < 2 ^ 53) by (unfold m7; lia).
    assert (HS0 : 0 < Z.pos mv * 2 ^ k - Z.pos m7) by nia.
    destruct (Z.pos mv * 2 ^ k - Z.pos m7) as [| S |] eqn:HS; try lia.
    replace (- (Z.pos mv * 2 ^ k) + Z.pos m7) with (cond_Zopp true (Z.pos S))
      by (cbn [cond_Zopp]; lia).
    replace (Z.abs n) with (- n) in Hval by lia.
    destruct (Z.eq_dec (Z.pos mv) (2 ^ 52)) as [Hp2 | Hp2].
    + (* the magnitude is a power of two *)
      set (k1 := k - 1).
      pose proof (pow2_pos k1 ltac:(unfold k1; lia)) as HK1.
      assert (HKK : 2 ^ k = 2 * 2 ^ k1).
      { replace k with (k1 + 1) by (unfold k1; lia).
        rewrite Z.pow_add_r by (unfold k1; lia). lia. }
      assert (HK123 : 2 ^ 23 <= 2 ^ k1)
        by (apply Z.pow_le_mono_r; unfold k1; lia).
      assert (HSr : 2 ^ (52 + k1) <= Z.pos S < 2 ^ (53 + k1)).
      { rewrite !Z.pow_add_r by (unfold k1; lia).
        change (2 ^ 53) with (2 * 2 ^ 52). nia. }
      rewrite (Hround true S k1) by (unfold k1; lia || exact HSr).
      destruct (binary_round_aux_between true S (-76) k1
                  ltac:(unfold k1; lia) HSr
                  ltac:(unfold k1; lia) ltac:(unfold k1; lia))
        as [R' [e' [Hr [HR [He' HV]]]]].
      exists R', e'. split; [exact Hr |]. split; [exact HR |].
      split; [unfold k1 in *; lia |].
      split; [lia |]. intros _.
      replace (e' + 76) with (e' - -76) by lia.
      pose proof (div_sandwich (Z.pos S) (2 ^ k1) HK1) as Hsw.
      set (q := Z.pos S / 2 ^ k1) in *.
      assert (Hqlt : q + 1 <= 2 * Z.pos mv) by nia.
      destruct HV as [HV | [_ HV]]; rewrite HV; nia.
    + set (k1 := k).
      assert (HBm : 2 ^ 52 + B <= Z.pos mv).
      { assert (Hb52 : 2 ^ 52 = 2 ^ (52 + ev) * B).
        { unfold B. rewrite <- Z.pow_add_r by lia. f_equal. lia. }
        assert (Hlt : 2 ^ (52 + ev) * B < Z.abs n * B) by lia.
        apply Z.mul_lt_mono_pos_r in Hlt; [| exact HB].
        rewrite Hvn, Hb52.
        replace (2 ^ (52 + ev) * B + B) with ((2 ^ (52 + ev) + 1) * B)
          by ring.
        apply Z.mul_le_mono_nonneg_r; lia. }
      assert (HSr : 2 ^ (52 + k) <= Z.pos S < 2 ^ (53 + k)).
      { rewrite !Z.pow_add_r by lia. nia. }
      rewrite (Hround true S k) by (lia || exact HSr).
      destruct (binary_round_aux_between true S (-76) k
                  ltac:(lia) HSr ltac:(lia) ltac:(lia))
        as [R' [e' [Hr [HR [He' HV]]]]].
      exists R', e'. split; [exact Hr |]. split; [exact HR |].
      split; [lia |].
      split; [lia |]. intros _.
      replace (e' + 76) with (e' - -76) by lia.
      pose proof (div_sandwich (Z.pos S) (2 ^ k) HK) as Hsw.
      set (q := Z.pos S / 2 ^ k) in *.
      assert (Hqlt : q + 1 <= Z.pos mv) by nia.
      destruct HV as [HV | [_ HV]]; rewrite HV; nia.
  - (* a positive number of seconds *)
    cbn [cond_Zopp].
    assert (Hm7 : Z.pos m7 < 2 ^ 53) by (unfold m7; lia).
    replace (Z.abs n) with n in * by lia.
    replace (Z.pos mv * 2 ^ k + Z.pos m7)
      with (cond_Zopp false (Z.pos (mv * Z.to_pos (2 ^ k) + m7)))
      by (cbn [cond_Zopp]; rewrite Pos2Z.inj_add, Pos2Z.inj_mul, Z2Pos.id;
          lia).
    set (S := (mv * Z.to_pos (2 ^ k) + m7)%positive).
    assert (HS : Z.pos S = Z.pos mv * 2 ^ k + Z.pos m7)
      by (unfold S; rewrite Pos2Z.inj_add, Pos2Z.inj_mul, Z2Pos.id; lia).
    assert (Hroom : (n + 1) * B <= 2 ^ 53).
    { assert (Hb53 : 2 ^ 53 = 2 ^ (53 + ev) * B).
      { unfold B. rewrite <- Z.pow_add_r by lia. f_equal. lia. }
      assert (Hlt : n * B < 2 ^ (53 + ev) * B) by lia.
      apply Z.mul_lt_mono_pos_r in Hlt; [| exact HB].
      rewrite Hb53. apply Z.mul_le_mono_nonneg_r; lia. }
    assert (HSr : 2 ^ (52 + k) <= Z.pos S < 2 ^ (53 + k)).
    { rewrite !Z.pow_add_r by lia. split; [nia |].
      rewrite HS, Hval.
      assert (n * 2 ^ 76 + 2 ^ 76 <= 2 ^ 53 * 2 ^ k).
      { rewrite <- HBK. nia. }
      change (2 ^ 76) with (2 ^ 53 * 2 ^ 23) in *. nia. }
    rewrite (Hround false S k) by (lia || exact HSr).
    destruct (binary_round_aux_between false S (-76) k
                ltac:(lia) HSr ltac:(lia) ltac:(lia))
      as [R' [e' [Hr [HR [He' HV]]]]].
    exists R', e'. split; [exact Hr |]. split; [exact HR |].
    split; [lia |].
    split; [| lia]. intros _.
    replace (e' + 76) with (e' - -76) by lia.
    pose proof (div_sandwich (Z.pos S) (2 ^ k) HK) as Hsw.
    set (q := Z.pos S / 2 ^ k) in *.
    assert (Hqge : Z.pos mv <= q).
    { unfold q. apply Z.div_le_lower_bound; lia. }
    change (2 ^ 57) with (2 ^ 56 + 2 ^ 56).
    destruct HV as [HV | [_ HV]]; rewrite HV; nia.
Qed.

End WholeSeconds.


Section GuardedWhole.

Import Distance.

Lemma to_int64_whole (z : Z) :
  Z.abs z < 2 ^ 53 -> to_int64 (of_Z z) = z.
Proof.
  intros Hz. destruct (of_Z_exact z) as [Ht _]; [lia |].
  unfold to_int64. rewrite Ht.
  destruct (Z.leb_spec INT64_MIN z), (Z.leb_spec z INT64_MAX);
    cbn [andb]; unfold_bounds; lia.
Qed.

(** The first three steps of the guard leave a whole number of seconds
    as it is. *)
Lemma trimmed_whole (n : Z) :
  Z.abs n <= 2 ^ 32 ->
  mul (trunc (mul (of_Z n) lit_1e6)) lit_1em6 = of_Z n.
Proof.
  intros Hn. destruct (Z.eq_dec n 0) as [-> | Hn0]; [reflexivity |].
  unfold lit_1e6. rewrite mul_exact by lia.
  destruct (floor_trunc_whole (n * 1000000)) as [_ Ht]; [lia |].
  rewrite Ht. now apply mul_1em6_whole.
Qed.

Lemma guarded_floor_whole (n : Z) :
  Z.abs n <= 2 ^ 32 -> guarded_floor (of_Z n) = n.
Proof.
  intros Hn. unfold guarded_floor. rewrite trimmed_whole by assumption.
  destruct (Z.eq_dec n 0) as [-> | Hn0]; [vm_compute; reflexivity |].
  destruct (add_guard_between n Hn0 Hn)
    as [R' [e' [Hy [HR [He' [Hpos Hneg]]]]]].
  rewrite Hy.
  destruct (floor_between (n <? 0) R' e' (-76) (Z.abs n))
    as [Hfp Hfn]; try lia.
  replace (e' - -76) with (e' + 76) in Hfp, Hfn by lia.
  change (- -76) with 76 in Hfp, Hfn.
  destruct (Z.ltb_spec n 0) as [Hlt | Hge].
  - specialize (Hneg Hlt). rewrite Hfn by lia.
    replace (- Z.abs n) with n by lia. apply to_int64_whole. lia.
  - specialize (Hpos ltac:(lia)). rewrite Hfp by lia.
    replace (Z.abs n) with n by lia. apply to_int64_whole. lia.
Qed.

End GuardedWhole.


Section GuardedMilliseconds.

Import Distance.

Lemma lit_1e3_bits : lit_1e3 = S754_finite false 8796093022208000 (-43).
Proof. vm_compute. reflexivity. Qed.

(** A value [P] rounded to a multiple of [U] stays in the window of
    width [X] (a multiple of [U]) that holds [P], when [P] keeps a
    distance of [U] from the far end of the window. *)
Lemma rounded_stays_in_window (P U Y C V : Z) :
  0 < U -> 0 < Y ->
  let X := Y * U in
  let q := P / U in
  (V = q * U \/ (P mod U <> 0 /\ V = (q + 1) * U)) ->
  (C * X <= P -> P + U < (C + 1) * X -> C * X <= V < (C + 1) * X)
  /\ ((C - 1) * X + U < P -> P <= C * X -> (C - 1) * X < V <= C * X).
Proof.
  intros HU HY X q HV.
  destruct (div_sandwich P U HU) as [Hlo Hhi]. fold q in Hlo, Hhi.
  assert (HX : C * X = C * Y * U) by (unfold X; ring).
  split.
  - intros HCX HPU.
    assert (Hq : C * Y <= q).
    { apply Z.div_le_lower_bound; [exact HU |].
      replace (U * (C * Y)) with (C * X) by (unfold X; ring). exact HCX. }
    assert (Hm : C * Y * U <= q * U)
      by (apply Z.mul_le_mono_nonneg_r; lia).
    destruct HV as [-> | [_ ->]]; lia.
  - intros HPl HP.
    destruct HV as [-> | [Hrem ->]]; [lia |].
    assert (Hne : P <> C * X).
    { intros E. apply Hrem. rewrite E, HX. apply Z.mod_mul. lia. }
    assert (Hq : q < C * Y).
    { apply Z.div_lt_upper_bound; [exact HU |].
      replace (U * (C * Y)) with (C * X) by (unfold X; ring). lia. }
    assert (Hm : (q + 1) * U <= C * Y * U)
      by (apply Z.mul_le_mono_nonneg_r; lia).
    lia.
Qed.

(** The window of a whole number of seconds after the guard, carried
    over to the product with [1000 * 2^43]. *)
Lemma guard_window_scaled (R W X U c : Z) :
  0 < W -> W <= 2 ^ 56 -> X * W = 2 ^ 119 -> 0 < U -> U <= 2 ^ 53 ->
  let P := R * 8796093022208000 in
  (c * 2 ^ 76 <= R * W < c * 2 ^ 76 + 2 ^ 57 ->
   1000 * c * X <= P /\ P + U < (1000 * c + 1) * X)
  /\ (c * 2 ^ 76 - 2 ^ 57 < R * W <= c * 2 ^ 76 ->
      (1000 * c - 1) * X + U < P /\ P <= 1000 * c * X).
Proof.
  intros HW HW56 HXW HU HU53 P.
  assert (E1 : forall a, a * X * W = a * 2 ^ 119)
    by (intros a; rewrite <- HXW; ring).
  assert (E2 : P * W = 8796093022208000 * (R * W)) by (unfold P; ring).
  assert (HUW : U * W <= 2 ^ 53 * 2 ^ 56)
    by (apply Z.mul_le_mono_nonneg; lia).
  set (RW := R * W) in *.
  split; intros [Ha Hb]; split.
  - apply (Z.mul_le_mono_pos_r _ _ W HW).
    rewrite (E1 (1000 * c)), E2. lia.
  - apply (Z.mul_lt_mono_pos_r W _ _ HW).
    rewrite (E1 (1000 * c + 1)), Z.mul_add_distr_r, E2. lia.
  - apply (Z.mul_lt_mono_pos_r W _ _ HW).
    rewrite Z.mul_add_distr_r, (E1 (1000 * c - 1)), E2. lia.
  - apply (Z.mul_le_mono_pos_r _ _ W HW).
    rewrite (E1 (1000 * c)), E2. lia.
Qed.

Lemma scaled_guard_floor (s : bool) (R' : positive) (e' c : Z) :
  2 ^ 52 <= Z.pos R' < 2 ^ 53 -> -76 <= e' ->
  1 <= c <= 2 ^ 32 ->
  let V := Z.pos R' * 2 ^ (e' + 76) in
  (s = false -> c * 2 ^ 76 <= V < c * 2 ^ 76 + 2 ^ 57 ->
   floor (mul (S754_finite s R' e') lit_1e3) = of_Z (1000 * c))
  /\ (s = true -> c * 2 ^ 76 - 2 ^ 57 < V <= c * 2 ^ 76 ->
      floor (mul (S754_finite s R' e') lit_1e3) = of_Z (- (1000 * c))).
Proof.
  intros HR He Hc V.
  pose proof (pow2_pos (e' + 76) ltac:(lia)) as HW.
  set (W := 2 ^ (e' + 76)) in *.
  assert (Hfar : V < 2 ^ 109 -> e' + 76 <= 56).
  { intros HV.
    assert (2 ^ 52 * W <= V)
      by (unfold V; apply Z.mul_le_mono_nonneg_r; lia).
    assert (HW57 : W < 2 ^ 57) by lia.
    apply pow2_lt_exponent in HW57; lia. }
  assert (Hgo : e' + 76 <= 56 ->
    exists R'' e'' k,
      mul (S754_finite s R' e') lit_1e3 = S754_finite s R'' e''
      /\ 2 ^ 52 <= Z.pos R'' /\ e' + -43 <= e'' /\ 52 <= k <= 53
      /\ let P := Z.pos R' * 8796093022208000 in
         let q := P / 2 ^ k in
         (Z.pos R'' * 2 ^ (e'' - (e' + -43)) = q * 2 ^ k
          \/ (P mod 2 ^ k <> 0
              /\ Z.pos R'' * 2 ^ (e'' - (e' + -43)) = (q + 1) * 2 ^ k))).
  { intros He56.
    rewrite lit_1e3_bits. unfold mul. cbn [SFmul].
    rewrite xorb_false_r.
    set (P2 := (R' * 8796093022208000)%positive).
    assert (HP2 : Z.pos P2 = Z.pos R' * 8796093022208000) by reflexivity.
    assert (Hk : exists k, 52 <= k <= 53
                 /\ 2 ^ (52 + k) <= Z.pos P2 < 2 ^ (53 + k)).
    { destruct (Z_lt_le_dec (Z.pos P2) (2 ^ 105)) as [Hlt | Hge].
      - exists 52. split; [lia |]. change (52 + 52) with 104.
        change (53 + 52) with 105. lia.
      - exists 53. split; [lia |]. change (52 + 53) with 105.
        change (53 + 53) with 106. lia. }
    destruct Hk as [k [Hk HPk]].
    destruct (binary_round_aux_between s P2 (e' + -43) k
                ltac:(lia) HPk ltac:(lia) ltac:(lia))
      as [R'' [e'' [Hr [HR'' [He'' Hv]]]]].
    exists R'', e'', k. rewrite Hr.
    split; [reflexivity |]. split; [lia |]. split; [lia |].
    split; [lia |]. rewrite <- HP2. exact Hv. }
  assert (Hwin : e' + 76 <= 56 -> forall k, 52 <= k <= 53 ->
    0 < 2 ^ k /\ 0 < 2 ^ (43 - e' - k)
    /\ 2 ^ (- (e' + -43)) = 2 ^ (43 - e' - k) * 2 ^ k
    /\ W <= 2 ^ 56 /\ 2 ^ (- (e' + -43)) * W = 2 ^ 119
    /\ 2 ^ k <= 2 ^ 53).
  { intros He56 k Hk.
    split; [apply pow2_pos; lia |]. split; [apply pow2_pos; lia |].
    split; [rewrite <- Z.pow_add_r by lia; f_equal; lia |].
    split; [unfold W; apply Z.pow_le_mono_r; lia |].
    split; [unfold W; rewrite <- Z.pow_add_r by lia; f_equal; lia |].
    apply Z.pow_le_mono_r; lia. }
  split; intros Hs HV.
  - assert (He56 : e' + 76 <= 56) by (apply Hfar; lia).
    destruct (Hgo He56) as [R'' [e'' [k [Hm [HR'' [He'' [Hk Hv]]]]]]].
    destruct (Hwin He56 k Hk) as [HU [HY [HX [HW56 [HXW HU53]]]]].
    rewrite Hm.
    destruct (floor_between s R'' e'' (e' + -43) (1000 * c))
      as [Hfp _]; try lia.
    apply Hfp; [exact Hs |].
    destruct (guard_window_scaled (Z.pos R') W (2 ^ (- (e' + -43)))
                (2 ^ k) c HW HW56 HXW HU HU53) as [Hg _].
    destruct (Hg HV) as [Hg1 Hg2].
    destruct (rounded_stays_in_window (Z.pos R' * 8796093022208000)
                (2 ^ k) (2 ^ (43 - e' - k)) (1000 * c) _ HU HY Hv)
      as [Hw _].
    rewrite <- HX in Hw. apply Hw; assumption.
  - assert (He56 : e' + 76 <= 56) by (apply Hfar; lia).
    destruct (Hgo He56) as [R'' [e'' [k [Hm [HR'' [He'' [Hk Hv]]]]]]].
    destruct (Hwin He56 k Hk) as [HU [HY [HX [HW56 [HXW HU53]]]]].
    rewrite Hm.
    destruct (floor_between s R'' e'' (e' + -43) (1000 * c))
      as [_ Hfn]; try lia.
    apply Hfn; [exact Hs | lia |].
    destruct (guard_window_scaled (Z.pos R') W (2 ^ (- (e' + -43)))
                (2 ^ k) c HW HW56 HXW HU HU53) as [_ Hg].
    destruct (Hg HV) as [Hg1 Hg2].
    destruct (rounded_stays_in_window (Z.pos R' * 8796093022208000)
                (2 ^ k) (2 ^ (43 - e' - k)) (1000 * c) _ HU HY Hv)
      as [_ Hw].
    rewrite <- HX in Hw. apply Hw; assumption.
Qed.

Lemma guarded_floor_to_millisecond_whole (n : Z) :
  Z.abs n <= 2 ^ 32 -> guarded_floor_to_millisecond (of_Z n) = 1000 * n.
Proof.
  intros Hn. unfold guarded_floor_to_millisecond.
  rewrite trimmed_whole by assumption.
  destruct (Z.eq_dec n 0) as [-> | Hn0]; [vm_compute; reflexivity |].
  destruct (add_guard_between n Hn0 Hn)
    as [R' [e' [Hy [HR [He' [Hpos Hneg]]]]]].
  rewrite Hy.
  destruct (scaled_guard_floor (n <? 0) R' e' (Z.abs n) HR He'
              ltac:(lia)) as [Hfp Hfn].
  destruct (Z.ltb_spec n 0) as [Hlt | Hge].
  - specialize (Hneg Hlt). rewrite Hfn; [| reflexivity |].
    + replace (- (1000 * Z.abs n)) with (1000 * n) by lia.
      apply to_int64_whole. lia.
    + replace (Z.abs n) with (- n) by lia. exact Hneg.
  - specialize (Hpos ltac:(lia)). rewrite Hfp; [| reflexivity |].
    + replace (Z.abs n) with n by lia. apply to_int64_whole. lia.
    + replace (Z.abs n) with n by lia. exact Hpos.
Qed.

End GuardedMilliseconds.


(** ** Whole seconds and whole days in the double loops *)

Section WholeInstants.

Lemma int_is_whole (z : Z) : in_int z -> Z.abs z <= 2 ^ 32.
Proof. unfold_bounds. lia. Qed.

Lemma present_is_int (n : Z) : present_day n -> in_int n.
Proof. now intros [H _]. Qed.

Lemma eqb_never_missing (x : double) : eqb x NA_REAL = false.
Proof. destruct x as [[] | [] | | [] ? ?]; reflexivity. Qed.

Lemma to_int_whole (z : Z) : in_int z -> to_int (of_Z z) = z.
Proof. intros Hz. now destruct (whole_double z Hz) as [_ [H _]]. Qed.

(** The sign test and the floor of the double loops of chunk.c, on a
    whole number. *)
Lemma floored_cast_whole (z : Z) :
  in_int z ->
  (if ltb (of_Z z) (of_Z 0) then to_int (floor (of_Z z))
   else to_int (of_Z z)) = z.
Proof.
  intros Hz. assert (Ha : Z.abs z < 2 ^ 53) by (unfold_bounds; lia).
  destruct (floor_trunc_whole z Ha) as [-> _].
  rewrite to_int_whole by assumption. now destruct (ltb _ _).
Qed.

Lemma dbl_posixct_unit_elt_whole (secs : Z) (no : bool) (o : Z) (ne : bool)
    (every n : Z) :
  present_day n ->
  Distance.dbl_posixct_unit_elt secs no o ne every (of_Z n)
  = Distance.int_posixct_unit_elt secs no o ne every n.
Proof.
  intros [Hn Hna].
  unfold Distance.dbl_posixct_unit_elt, Distance.int_posixct_unit_elt,
    Distance.dbl_posixct_unit_bucket, Distance.int_posixct_unit_bucket.
  destruct (whole_double n Hn) as [-> _]. cbn [negb].
  destruct (Z.eqb_spec n NA_INTEGER); [contradiction |].
  rewrite guarded_floor_whole by now apply int_is_whole.
  rewrite (int64_small n) by now apply in_int_in_int64.
  reflexivity.
Qed.

Lemma dbl_posixct_second_elt_whole (no : bool) (o : Z) (ne : bool)
    (every n : Z) :
  present_day n ->
  Distance.dbl_posixct_warp_distance_second_elt no o ne every (of_Z n)
  = Distance.int_posixct_warp_distance_second_elt no o ne every n.
Proof.
  intros [Hn Hna].
  unfold Distance.dbl_posixct_warp_distance_second_elt,
    Distance.int_posixct_warp_distance_second_elt,
    Distance.dbl_posixct_warp_distance_second_bucket,
    Distance.int_posixct_warp_distance_second_bucket.
  destruct (whole_double n Hn) as [-> _]. cbn [negb].
  destruct (Z.eqb_spec n NA_INTEGER); [contradiction |].
  rewrite guarded_floor_whole by now apply int_is_whole.
  rewrite (int64_small n) by now apply in_int_in_int64.
  reflexivity.
Qed.

Lemma dbl_posixct_millisecond_elt_whole (no : bool) (o : Z) (ne : bool)
    (every n : Z) :
  present_day n -> in_int (n * 1000) ->
  Distance.dbl_posixct_warp_distance_millisecond_elt no o ne every (of_Z n)
  = Distance.int_posixct_warp_distance_millisecond_elt no o ne every n.
Proof.
  intros [Hn Hna] Hms.
  unfold Distance.dbl_posixct_warp_distance_millisecond_elt,
    Distance.int_posixct_warp_distance_millisecond_elt,
    Distance.dbl_posixct_warp_distance_millisecond_bucket,
    Distance.int_posixct_warp_distance_millisecond_bucket.
  destruct (whole_double n Hn) as [-> _]. cbn [negb].
  destruct (Z.eqb_spec n NA_INTEGER); [contradiction |].
  rewrite guarded_floor_to_millisecond_whole by now apply int_is_whole.
  unfold imul, Distance.MILLISECONDS_IN_SECOND.
  rewrite (int_small (n * 1000)) by assumption.
  rewrite (int64_small (n * 1000)) by now apply in_int_in_int64.
  now rewrite (Z.mul_comm 1000 n).
Qed.

End WholeInstants.

(** X19.  The guard keeps whole seconds.  For every whole number of
    seconds [n] up to [2^32] in magnitude (the range of an [int] and
    beyond), [guarded_floor] returns [n] from the double of [n] and
    [guarded_floor_to_millisecond] returns [1000 * n]: scaling by
    [1e6], truncating, scaling by the double nearest to [1e-6], adding
    the guard [1e-7] and flooring moves no whole second, although the
    scaling back and the sum round.  So on every host an origin whose
    date-time is the double of [o] gives the offsets [o] and
    [1000 * o]. *)
Theorem X19_guard_keeps_whole_seconds :
  forall n : Z, Z.abs n <= 2 ^ 32 ->
    Distance.guarded_floor (of_Z n) = n
    /\ Distance.guarded_floor_to_millisecond (of_Z n) = 1000 * n
    /\ forall (host : Collaborators) (origin : SEXP) (class : list string)
              (rest : list double),
         as_datetime origin = REALSXP class (of_Z n :: rest) ->
         Distance.origin_to_seconds_from_epoch origin = Ok n
         /\ Distance.origin_to_milliseconds_from_epoch origin
            = Ok (1000 * n).
Proof.
  intros n Hn.
  split; [now apply guarded_floor_whole |].
  split; [now apply guarded_floor_to_millisecond_whole |].
  intros host origin class rest Ho.
  unfold Distance.origin_to_seconds_from_epoch,
    Distance.origin_to_milliseconds_from_epoch.
  rewrite Ho. cbn [REAL bind first_real hd].
  rewrite eqb_never_missing.
  rewrite guarded_floor_whole, guarded_floor_to_millisecond_whole
    by assumption.
  split; reflexivity.
Qed.

Lemma X19_guard_keeps_whole_seconds_witness :
  Distance.guarded_floor (of_Z (-1577836800)) = -1577836800
  /\ Distance.guarded_floor_to_millisecond (of_Z (-1577836800))
     = 1000 * -1577836800.
Proof.
  destruct (X19_guard_keeps_whole_seconds (-1577836800)) as [Ha [Hb _]];
    [vm_compute; discriminate |].
  split; [exact Ha | exact Hb].
Defined.

(** X20.  The storage of a POSIXct does not matter for whole seconds.
    On every host and for every origin, a POSIXct stored as doubles that
    hold the present [int] second counts [ns] gets the distances of the
    POSIXct stored as the integers [ns], by hour, minute and second; and
    by millisecond while [1000 * n] fits an [int], which the integer
    loop needs for its product. *)
Theorem X20_whole_double_instants_are_integer_instants :
  forall (host : Collaborators) (class1 class2 : list string) (ns : list Z)
         (every : Z) (origin : SEXP),
    Forall present_day ns ->
    let as_dbl := REALSXP class1 (map of_Z ns) in
    let as_int := INTSXP class2 ns in
    Distance.posixct_warp_distance_hour as_dbl every origin
    = Distance.posixct_warp_distance_hour as_int every origin
    /\ Distance.posixct_warp_distance_minute as_dbl every origin
       = Distance.posixct_warp_distance_minute as_int every origin
    /\ Distance.posixct_warp_distance_second as_dbl every origin
       = Distance.posixct_warp_distance_second as_int every origin
    /\ (Forall (fun n => in_int (n * 1000)) ns ->
        Distance.posixct_warp_distance_millisecond as_dbl every origin
        = Distance.posixct_warp_distance_millisecond as_int every origin).
Proof.
  intros host c1 c2 ns every origin Hns as_dbl as_int. subst as_dbl as_int.
  unfold Distance.posixct_warp_distance_hour,
    Distance.posixct_warp_distance_minute,
    Distance.posixct_warp_distance_second,
    Distance.posixct_warp_distance_millisecond, Distance.by_storage,
    Distance.dbl_posixct_warp_distance_hour,
    Distance.int_posixct_warp_distance_hour,
    Distance.dbl_posixct_warp_distance_minute,
    Distance.int_posixct_warp_distance_minute,
    Distance.dbl_posixct_warp_distance_second,
    Distance.int_posixct_warp_distance_second,
    Distance.dbl_posixct_warp_distance_millisecond,
    Distance.int_posixct_warp_distance_millisecond.
  split; [| split; [| split]].
  - destruct (Distance.posixct_origin_offset origin) as [o |];
      [| reflexivity].
    cbn [bind]. f_equal. apply map_whole_days; [assumption |].
    intros n Hn. now apply dbl_posixct_unit_elt_whole.
  - destruct (Distance.posixct_origin_offset origin) as [o |];
      [| reflexivity].
    cbn [bind]. f_equal. apply map_whole_days; [assumption |].
    intros n Hn. now apply dbl_posixct_unit_elt_whole.
  - destruct (Distance.posixct_origin_offset origin) as [o |];
      [| reflexivity].
    cbn [bind]. f_equal. apply map_whole_days; [assumption |].
    intros n Hn. now apply dbl_posixct_second_elt_whole.
  - intros Hms.
    destruct (Distance.posixct_origin_offset_ms origin) as [o |];
      [| reflexivity].
    cbn [bind]. f_equal. rewrite map_map. apply map_ext_in.
    intros n Hin. rewrite Forall_forall in Hns, Hms.
    apply dbl_posixct_millisecond_elt_whole; auto.
Qed.

Lemma X20_whole_double_instants_are_integer_instants_witness :
  Distance.posixct_warp_distance_hour (host := UtcHost.host)
    (REALSXP [] (map of_Z [-7201; 0; 1577836800])) 2 Examples.epoch
  = Distance.posixct_warp_distance_hour (host := UtcHost.host)
      (INTSXP [] [-7201; 0; 1577836800]) 2 Examples.epoch.
Proof.
  apply (X20_whole_double_instants_are_integer_instants UtcHost.host [] []
           [-7201; 0; 1577836800] 2 Examples.epoch).
  repeat constructor; unfold NA_INTEGER; unfold_bounds; lia.
Defined.


(** ** chunk.c with a whole origin *)

Section WholeOrigin.

Context {host : Collaborators}.

(** [elt -= origin_offset] through [double], on whole numbers. *)
Lemma shift_by_whole_origin (x o : Z) :
  Z.abs x < 2 ^ 52 -> Z.abs o < 2 ^ 52 ->
  sub (of_Z x) (of_Z o) = of_Z (x - o)
  /\ to_int64 (sub (of_Z x) (of_Z o)) = x - o
  /\ floor (sub (of_Z x) (of_Z o)) = of_Z (x - o).
Proof.
  intros Hx Ho.
  assert (Hs : sub (of_Z x) (of_Z o) = of_Z (x - o))
    by (apply sub_exact; lia).
  rewrite Hs. split; [reflexivity |].
  split; [apply to_int64_whole; lia |].
  now destruct (floor_trunc_whole (x - o) ltac:(lia)) as [-> _].
Qed.

Lemma chunk_seconds_offset (origin : SEXP) (class : list string) (o : Z)
    (rest : list double) :
  is_nil origin = false ->
  as_datetime origin = REALSXP class (of_Z o :: rest) ->
  Chunk.seconds_origin_offset origin = Ok (of_Z o).
Proof.
  intros Hnil Ho.
  unfold Chunk.seconds_origin_offset, Chunk.origin_to_seconds_from_epoch.
  rewrite Hnil, Ho. cbn [negb REAL bind first_real hd].
  now rewrite eqb_never_missing.
Qed.

Lemma distance_seconds_offset (origin : SEXP) (class : list string) (o : Z)
    (rest : list double) :
  is_nil origin = false -> Z.abs o <= 2 ^ 32 ->
  as_datetime origin = REALSXP class (of_Z o :: rest) ->
  Distance.posixct_origin_offset origin = Ok o.
Proof.
  intros Hnil Hb Ho.
  unfold Distance.posixct_origin_offset,
    Distance.origin_to_seconds_from_epoch.
  rewrite Hnil, Ho. cbn [negb REAL bind first_real hd].
  rewrite eqb_never_missing. now rewrite guarded_floor_whole.
Qed.

Lemma int_second_chunk_is_distance (no : bool) (o : Z) (ne : bool)
    (every x : Z) :
  in_int x -> Z.abs o <= 2 ^ 32 ->
  Chunk.int_posixct_warp_chunk_second_elt no (of_Z o) ne every x
  = Distance.int_posixct_warp_distance_second_elt no o ne every x.
Proof.
  intros Hx Ho.
  unfold Chunk.int_posixct_warp_chunk_second_elt,
    Distance.int_posixct_warp_distance_second_elt,
    Distance.int_posixct_warp_distance_second_bucket.
  destruct (x =? NA_INTEGER); [reflexivity |].
  rewrite (int64_small x) by now apply in_int_in_int64.
  destruct no; [| reflexivity].
  destruct (shift_by_whole_origin x o) as [_ [-> _]];
    [unfold_bounds; lia | lia |].
  unfold lsub. rewrite (int64_small (x - o)) by (unfold_bounds; lia).
  reflexivity.
Qed.

Lemma dbl_second_chunk_is_distance (no : bool) (o : Z) (ne : bool)
    (every x : Z) :
  in_int x -> Z.abs o <= 2 ^ 32 ->
  Chunk.dbl_posixct_warp_chunk_second_elt no (of_Z o) ne every (of_Z x)
  = Distance.dbl_posixct_warp_distance_second_elt no o ne every (of_Z x).
Proof.
  intros Hx Ho.
  unfold Chunk.dbl_posixct_warp_chunk_second_elt,
    Distance.dbl_posixct_warp_distance_second_elt,
    Distance.dbl_posixct_warp_distance_second_bucket.
  destruct (whole_double x Hx) as [-> [_ H64]]. cbn [negb].
  rewrite guarded_floor_whole by now apply int_is_whole.
  destruct no.
  - destruct (shift_by_whole_origin x o) as [Hs _];
      [unfold_bounds; lia | lia |].
    rewrite Hs.
    destruct (floor_trunc_whole (x - o)) as [-> _]; [unfold_bounds; lia |].
    rewrite to_int64_whole by (unfold_bounds; lia).
    unfold lsub. rewrite (int64_small (x - o)) by (unfold_bounds; lia).
    reflexivity.
  - destruct (floor_trunc_whole x) as [-> _]; [unfold_bounds; lia |].
    rewrite H64. reflexivity.
Qed.

Lemma int_second_chunk_floor_div (o every x : Z) :
  present_day x -> Z.abs o <= 2 ^ 32 -> 1 <= every <= INT_MAX ->
  Chunk.int_posixct_warp_chunk_second_elt true (of_Z o)
    (negb (every =? 1)) every x
  = of_Z (floor_div (x - o) every).
Proof.
  intros [Hx Hna] Ho Hevery.
  unfold Chunk.int_posixct_warp_chunk_second_elt.
  destruct (Z.eqb_spec x NA_INTEGER); [contradiction |].
  rewrite (int64_small x) by now apply in_int_in_int64.
  destruct (shift_by_whole_origin x o) as [_ [-> _]];
    [unfold_bounds; lia | lia |].
  rewrite chunk_every_int64_floor_div; [reflexivity | assumption | |];
    unfold_bounds; lia.
Qed.

Lemma scaled_day_small (d units : Z) :
  in_int d -> 0 < units <= 86400 -> Z.abs (d * units) < 2 ^ 52.
Proof.
  intros Hd Hu. rewrite Z.abs_mul, (Z.abs_eq units) by lia.
  assert (Z.abs d * units <= 2 ^ 31 * 86400)
    by (apply Z.mul_le_mono_nonneg; unfold_bounds; lia).
  lia.
Qed.

(** The origin of the Date loops, scaled to the unit of the loop. *)
Lemma chunk_scaled_offset (units : Z) (origin : SEXP) (class : list string)
    (o : Z) (rest : list double) :
  is_nil origin = false -> in_int o -> 0 < units <= 86400 ->
  as_date origin = REALSXP class (of_Z o :: rest) ->
  Chunk.scaled_origin_offset units origin = Ok (of_Z (o * units))
  /\ Chunk.day_origin_offset origin = Ok (of_Z o).
Proof.
  intros Hnil Ho Hu Hd.
  unfold Chunk.scaled_origin_offset, Chunk.day_origin_offset,
    Chunk.origin_to_days_from_epoch.
  rewrite Hnil, Hd. cbn [negb REAL bind first_real hd].
  rewrite eqb_never_missing. cbn [bind].
  pose proof (scaled_day_small o units Ho Hu).
  rewrite mul_exact; [split; reflexivity | lia | | lia |];
    unfold_bounds; lia.
Qed.

(** A whole day count scaled to the unit and moved by the scaled origin,
    as the double loops of a Date do it. *)
Lemma scaled_and_shifted (units d o : Z) :
  in_int d -> in_int o -> 0 < units <= 86400 ->
  sub (mul (of_Z d) (of_Z units)) (of_Z (o * units))
  = of_Z ((d - o) * units).
Proof.
  intros Hd Ho Hu.
  pose proof (scaled_day_small d units Hd Hu).
  pose proof (scaled_day_small o units Ho Hu).
  rewrite mul_exact; [| lia | | lia |]; try (unfold_bounds; lia).
  rewrite sub_exact; try lia.
  f_equal. ring.
Qed.

Lemma dbl_date_int_elt_floor_div (units o every d : Z) :
  in_int d -> in_int o -> 0 < units <= 86400 -> 1 <= every <= INT_MAX ->
  in_int ((d - o) * units) ->
  INT_MIN <= (d - o) * units - (every - 1) ->
  Chunk.dbl_date_int_elt units true (of_Z (o * units))
    (negb (every =? 1)) every (of_Z d)
  = floor_div ((d - o) * units) every.
Proof.
  intros Hd Ho Hu Hevery Hfit Hlow.
  unfold Chunk.dbl_date_int_elt.
  destruct (whole_double d Hd) as [-> _]. cbn [negb].
  rewrite scaled_and_shifted by assumption.
  rewrite floored_cast_whole by assumption.
  now apply chunk_every_int_floor_div.
Qed.

Lemma int_date_int_elt_floor_div (units o every d : Z) :
  present_day d -> in_int o -> 0 < units <= 86400 -> 1 <= every <= INT_MAX ->
  in_int (d * units) -> in_int ((d - o) * units) ->
  INT_MIN <= (d - o) * units - (every - 1) ->
  Chunk.int_date_int_elt units true (of_Z (o * units))
    (negb (every =? 1)) every d
  = floor_div ((d - o) * units) every.
Proof.
  intros [Hd Hna] Ho Hu Hevery Hprod Hfit Hlow.
  unfold Chunk.int_date_int_elt.
  destruct (Z.eqb_spec d NA_INTEGER); [contradiction |].
  pose proof (scaled_day_small d units Hd Hu).
  pose proof (scaled_day_small o units Ho Hu).
  unfold imul. rewrite (int_small (d * units)) by assumption.
  rewrite sub_exact; try lia.
  replace (d * units - o * units) with ((d - o) * units) by ring.
  rewrite to_int_whole by assumption.
  now apply chunk_every_int_floor_div.
Qed.

Lemma dbl_date_second_elt_floor_div (o every d : Z) :
  in_int d -> in_int o -> 1 <= every <= INT_MAX ->
  Chunk.dbl_date_warp_chunk_second_elt true (of_Z (o * 86400))
    (negb (every =? 1)) every (of_Z d)
  = of_Z (floor_div ((d - o) * 86400) every).
Proof.
  intros Hd Ho Hevery.
  unfold Chunk.dbl_date_warp_chunk_second_elt, Chunk.SECONDS_IN_DAY.
  destruct (whole_double d Hd) as [-> _]. cbn [negb].
  rewrite scaled_and_shifted by (assumption || lia).
  destruct (floor_trunc_whole ((d - o) * 86400)) as [-> _];
    [unfold_bounds; lia |].
  rewrite to_int64_whole by (unfold_bounds; lia).
  rewrite chunk_every_int64_floor_div; [reflexivity | assumption | |];
    unfold_bounds; lia.
Qed.

Lemma int_date_second_elt_floor_div (o every d : Z) :
  present_day d -> in_int o -> 1 <= every <= INT_MAX ->
  in_int (d * 86400) ->
  Chunk.int_date_warp_chunk_second_elt true (of_Z (o * 86400))
    (negb (every =? 1)) every d
  = of_Z (floor_div ((d - o) * 86400) every).
Proof.
  intros [Hd Hna] Ho Hevery Hprod.
  unfold Chunk.int_date_warp_chunk_second_elt, Chunk.SECONDS_IN_DAY.
  destruct (Z.eqb_spec d NA_INTEGER); [contradiction |].
  unfold imul. rewrite (int_small (d * 86400)) by assumption.
  rewrite (int64_small (d * 86400)) by now apply in_int_in_int64.
  rewrite sub_exact; try (unfold_bounds; lia).
  replace (d * 86400 - o * 86400) with ((d - o) * 86400) by ring.
  rewrite to_int64_whole by (unfold_bounds; lia).
  rewrite chunk_every_int64_floor_div; [reflexivity | assumption | |];
    unfold_bounds; lia.
Qed.

End WholeOrigin.

(** X21.  The second loops of a POSIXct in chunk.c and in distance.c,
    with a whole origin.  On every host, for an origin whose date-time is
    the double of a whole number of seconds [o] (up to [2^32] in
    magnitude), the second loop of chunk.c, which subtracts the origin as
    a double and floors, returns the vector of the second loop of
    distance.c, which guards, floors and subtracts on [int64_t]: for an
    integer POSIXct, missing elements included, and for a double POSIXct
    that holds whole [int] second counts, for every [every].  For
    present elements and [1 <= every] the value is the double of
    [floor ((n - o) / every)]. *)
Theorem X21_second_chunks_with_a_whole_origin :
  forall (host : Collaborators) (origin : SEXP) (class : list string)
         (o : Z) (rest : list double) (ns : list Z) (every : Z),
    is_nil origin = false ->
    as_datetime origin = REALSXP class (of_Z o :: rest) ->
    Z.abs o <= 2 ^ 32 ->
    Forall in_int ns ->
    Chunk.int_posixct_warp_chunk_second ns every origin
    = Distance.int_posixct_warp_distance_second ns every origin
    /\ Chunk.dbl_posixct_warp_chunk_second (map of_Z ns) every origin
       = Distance.dbl_posixct_warp_distance_second (map of_Z ns) every origin
    /\ (Forall present_day ns -> 1 <= every <= INT_MAX ->
        Chunk.int_posixct_warp_chunk_second ns every origin
        = Ok (map (fun n => of_Z (floor_div (n - o) every)) ns)).
Proof.
  intros host origin class o rest ns every Hnil Ho Hb Hns.
  unfold Chunk.int_posixct_warp_chunk_second,
    Chunk.dbl_posixct_warp_chunk_second,
    Distance.int_posixct_warp_distance_second,
    Distance.dbl_posixct_warp_distance_second.
  rewrite (chunk_seconds_offset origin class o rest Hnil Ho).
  rewrite (distance_seconds_offset origin class o rest Hnil Hb Ho).
  rewrite Hnil. cbn [bind negb].
  rewrite Forall_forall in Hns.
  split; [| split].
  - f_equal. apply map_ext_in. intros n Hin.
    apply int_second_chunk_is_distance; auto.
  - f_equal. rewrite !map_map. apply map_ext_in. intros n Hin.
    apply dbl_second_chunk_is_distance; auto.
  - intros Hp Hevery. f_equal. apply map_ext_in. intros n Hin.
    rewrite Forall_forall in Hp.
    apply int_second_chunk_floor_div; auto.
Qed.

Lemma X21_second_chunks_with_a_whole_origin_witness :
  Chunk.int_posixct_warp_chunk_second (host := UtcHost.host)
    [-7201; NA_INTEGER; 1577836800] 7 (Examples.POSIXct [of_Z 3600])
  = Distance.int_posixct_warp_distance_second (host := UtcHost.host)
      [-7201; NA_INTEGER; 1577836800] 7 (Examples.POSIXct [of_Z 3600]).
Proof.
  destruct (X21_second_chunks_with_a_whole_origin UtcHost.host
              (Examples.POSIXct [of_Z 3600]) ["POSIXct"; "POSIXt"]%string
              3600 [] [-7201; NA_INTEGER; 1577836800] 7) as [Ha _].
  - reflexivity.
  - reflexivity.
  - vm_compute. discriminate.
  - repeat constructor; unfold NA_INTEGER; unfold_bounds; lia.
  - exact Ha.
Defined.

(** X22.  The Date loops of chunk.c with a whole origin.  On every host,
    for an origin whose date is the double of the [int] day count [o],
    a Date of present day counts [ds] and [1 <= every]: the second loop
    of a double Date returns the doubles of
    [floor ((d - o) * 86400 / every)] for every [ds], and the one of an
    integer Date does while [d * 86400] fits an [int]; the day, hour and
    minute loops return [floor ((d - o) * units / every)] while
    [(d - o) * units] and the sign test of the division fit an [int],
    the integer loops of hour and minute also needing [d * units] to fit
    one. *)
Theorem X22_date_chunks_with_a_whole_origin :
  forall (host : Collaborators) (origin : SEXP) (class : list string)
         (o : Z) (rest : list double) (ds : list Z) (every : Z),
    is_nil origin = false ->
    as_date origin = REALSXP class (of_Z o :: rest) ->
    in_int o ->
    Forall present_day ds ->
    1 <= every <= INT_MAX ->
    let chunks units := map (fun d => floor_div ((d - o) * units) every) ds in
    let fits units :=
      Forall (fun d => in_int ((d - o) * units)
                       /\ INT_MIN <= (d - o) * units - (every - 1)) ds in
    let product_fits units := Forall (fun d => in_int (d * units)) ds in
    Chunk.dbl_date_warp_chunk_second (map of_Z ds) every origin
    = Ok (map of_Z (chunks 86400))
    /\ (product_fits 86400 ->
        Chunk.int_date_warp_chunk_second ds every origin
        = Ok (map of_Z (chunks 86400)))
    /\ (fits 1440 ->
        Chunk.dbl_date_warp_chunk_minute (map of_Z ds) every origin
        = Ok (chunks 1440)
        /\ (product_fits 1440 ->
            Chunk.int_date_warp_chunk_minute ds every origin
            = Ok (chunks 1440)))
    /\ (fits 24 ->
        Chunk.dbl_date_warp_chunk_hour (map of_Z ds) every origin
        = Ok (chunks 24)
        /\ (product_fits 24 ->
            Chunk.int_date_warp_chunk_hour ds every origin
            = Ok (chunks 24)))
    /\ (fits 1 ->
        Chunk.dbl_date_warp_chunk_day (map of_Z ds) every origin
        = Ok (chunks 1)
        /\ Chunk.int_date_warp_chunk_day_values ds every origin
           = Ok (chunks 1)).
Proof.
  intros host origin class o rest ds every Hnil Ho Hoi Hds Hevery
    chunks fits product_fits.
  subst chunks fits product_fits. cbv beta.
  rewrite Forall_forall in Hds.
  assert (Hin : forall d, In d ds -> in_int d)
    by (intros d Hd; now apply present_is_int, Hds).
  unfold Chunk.dbl_date_warp_chunk_second, Chunk.int_date_warp_chunk_second,
    Chunk.dbl_date_warp_chunk_minute, Chunk.int_date_warp_chunk_minute,
    Chunk.dbl_date_warp_chunk_hour, Chunk.int_date_warp_chunk_hour,
    Chunk.dbl_date_warp_chunk_day, Chunk.int_date_warp_chunk_day_values.
  destruct (chunk_scaled_offset Chunk.SECONDS_IN_DAY origin class o rest
              Hnil Hoi ltac:(unfold Chunk.SECONDS_IN_DAY; lia) Ho)
    as [-> ->].
  destruct (chunk_scaled_offset Chunk.MINUTES_IN_DAY origin class o rest
              Hnil Hoi ltac:(unfold Chunk.MINUTES_IN_DAY; lia) Ho)
    as [-> _].
  destruct (chunk_scaled_offset Chunk.HOURS_IN_DAY origin class o rest
              Hnil Hoi ltac:(unfold Chunk.HOURS_IN_DAY; lia) Ho)
    as [-> _].
  rewrite Hnil. cbn [bind negb andb].
  unfold Chunk.SECONDS_IN_DAY, Chunk.MINUTES_IN_DAY, Chunk.HOURS_IN_DAY.
  rewrite Bool.andb_false_r.
  split; [| split; [| split; [| split]]].
  - f_equal. rewrite !map_map. apply map_ext_in. intros d Hd.
    apply dbl_date_second_elt_floor_div; auto.
  - intros Hp. rewrite Forall_forall in Hp.
    f_equal. rewrite map_map. apply map_ext_in. intros d Hd.
    apply int_date_second_elt_floor_div; auto.
  - intros Hf. rewrite Forall_forall in Hf. split.
    + f_equal. rewrite map_map. apply map_ext_in. intros d Hd.
      destruct (Hf d Hd).
      apply dbl_date_int_elt_floor_div; auto; lia.
    + intros Hp. rewrite Forall_forall in Hp.
      f_equal. apply map_ext_in. intros d Hd. destruct (Hf d Hd).
      apply int_date_int_elt_floor_div; auto; lia.
  - intros Hf. rewrite Forall_forall in Hf. split.
    + f_equal. rewrite map_map. apply map_ext_in. intros d Hd.
      destruct (Hf d Hd).
      apply dbl_date_int_elt_floor_div; auto; lia.
    + intros Hp. rewrite Forall_forall in Hp.
      f_equal. apply map_ext_in. intros d Hd. destruct (Hf d Hd).
      apply int_date_int_elt_floor_div; auto; lia.
  - intros Hf. rewrite Forall_forall in Hf. split.
    + f_equal. rewrite map_map. apply map_ext_in. intros d Hd.
      destruct (Hf d Hd) as [Hfit Hlow].
      rewrite Z.mul_1_r in *.
      unfold Chunk.dbl_date_warp_chunk_day_elt.
      destruct (whole_double d (Hin d Hd)) as [-> _]. cbn [negb].
      destruct (shift_by_whole_origin d o) as [-> _];
        [specialize (Hin d Hd); unfold_bounds; lia | unfold_bounds; lia |].
      rewrite floored_cast_whole by assumption.
      now apply chunk_every_int_floor_div.
    + f_equal. apply map_ext_in. intros d Hd.
      destruct (Hf d Hd) as [Hfit Hlow].
      rewrite Z.mul_1_r in *.
      unfold Chunk.int_date_warp_chunk_day_elt.
      destruct (Hds d Hd) as [_ Hna].
      destruct (Z.eqb_spec d NA_INTEGER); [contradiction |].
      destruct (shift_by_whole_origin d o) as [-> _];
        [specialize (Hin d Hd); unfold_bounds; lia | unfold_bounds; lia |].
      rewrite to_int_whole by assumption.
      now apply chunk_every_int_floor_div.
Qed.

Lemma X22_date_chunks_with_a_whole_origin_witness :
  Chunk.dbl_date_warp_chunk_second (host := UtcHost.host)
    (map of_Z [-40000; 3; 2000000000]) 7 (Examples.DateReal [of_Z 10])
  = Ok (map of_Z
          (map (fun d => floor_div ((d - 10) * 86400) 7)
               [-40000; 3; 2000000000])).
Proof.
  destruct (X22_date_chunks_with_a_whole_origin UtcHost.host
              (Examples.DateReal [of_Z 10]) ["Date"]%string
              10 [] [-40000; 3; 2000000000] 7) as [Ha _].
  - reflexivity.
  - reflexivity.
  - unfold_bounds. lia.
  - repeat constructor; unfold NA_INTEGER; unfold_bounds; lia.
  - unfold_bounds. lia.
  - exact Ha.
Defined.


(** ** C5, amended: the fractional part of a double Date *)

Section FractionOfADate.

Lemma magnitude_floor_nonneg (m : positive) (e : Z) :
  0 <= magnitude_floor m e.
Proof.
  unfold magnitude_floor. destruct (0 <=? e).
  - apply Z.shiftl_nonneg. lia.
  - apply Z.shiftr_nonneg. lia.
Qed.

(** The conversion to [int] against [floor]: the conversion gives the
    integer next above the floor for a negative value with a fractional
    part, and the floor otherwise. *)
Lemma to_int_of_floor (x : double) (z : Z) :
  trunc_Z x = Some z -> INT_MIN < z <= INT_MAX ->
  to_int x = z
  /\ to_int (floor x)
     = if ltb x (of_Z 0) && negb (integer_valued x) then z - 1 else z.
Proof.
  intros Ht Hz.
  assert (Hx : to_int x = z).
  { unfold to_int. rewrite Ht.
    destruct (Z.leb_spec INT_MIN z), (Z.leb_spec z INT_MAX);
      cbn [andb]; lia. }
  split; [exact Hx |].
  destruct x as [s | s | | s m e]; try discriminate.
  - cbn [floor]. rewrite Hx. now destruct s.
  - cbn [trunc_Z] in Ht. injection Ht as Hzm.
    pose proof (magnitude_floor_nonneg m e) as HM.
    assert (Hltb : ltb (S754_finite s m e) (of_Z 0) = s)
      by (destruct s; reflexivity).
    rewrite Hltb. cbn [integer_valued floor]. rewrite negb_involutive.
    destruct (Z.leb_spec 0 e) as [He | He].
    + assert (Hf : has_fraction m e = false).
      { unfold has_fraction. destruct (Z.leb_spec 0 e); [reflexivity | lia]. }
      rewrite Hf, andb_false_r. exact Hx.
    + destruct (s && has_fraction m e) eqn:Hsf.
      * apply andb_true_iff in Hsf. destruct Hsf as [-> Hf].
        replace (of_sign_Z true (magnitude_floor m e + 1))
          with (of_Z (z - 1)).
        { apply to_int_whole. unfold_bounds. unfold INT_MIN in Hz. lia. }
        rewrite <- (of_sign_Z_abs (z - 1)) by lia.
        replace (z - 1 <? 0) with true by (symmetry; apply Z.ltb_lt; lia).
        f_equal. lia.
      * destruct (Z.eq_dec z 0) as [Hz0 | Hz0].
        { assert (HM0 : magnitude_floor m e = 0) by (destruct s; lia).
          rewrite HM0, Hz0. now destruct s. }
        replace (of_sign_Z s (magnitude_floor m e)) with (of_Z z).
        { apply to_int_whole. unfold_bounds. unfold INT_MIN in Hz. lia. }
        rewrite <- (of_sign_Z_abs z) by assumption.
        destruct s; subst z.
        -- replace (- magnitude_floor m e <? 0) with true
             by (symmetry; apply Z.ltb_lt; lia).
           f_equal. lia.
        -- replace (magnitude_floor m e <? 0) with false
             by (symmetry; apply Z.ltb_ge; lia).
           f_equal. lia.
Qed.

Lemma trunc_Z_finite (x : double) (z : Z) :
  trunc_Z x = Some z -> R_FINITE x = true.
Proof. destruct x; cbn; congruence. Qed.

End FractionOfADate.

(** C5, amended.  Every loop of distance.c that reads a double Date
    (year-day and year-week, hour, minute, second, millisecond) converts
    the double to an integer with a C cast: on every host it gives for a
    finite double [x] what the integer loop gives for the integer [z]
    that [x] converts to.  The cast drops the fractional part toward
    zero: against [floor] it gives the integer next above for a negative
    [x] with a fractional part, and the floor otherwise.  The day loop of
    chunk.c floors a negative [x] first and reads the floor in both
    cases.  [z] is any [int] but the missing one. *)
Theorem C5_fraction_is_dropped_toward_zero :
  forall (x : double) (z : Z),
    trunc_Z x = Some z -> INT_MIN < z <= INT_MAX ->
    let below := ltb x (of_Z 0) && negb (integer_valued x) in
    to_int x = z
    /\ to_int (floor x) = (if below then z - 1 else z)
    /\ (forall (host : Collaborators) s every,
          Distance.dbl_date_warp_distance_yday_elt s every x
          = Distance.int_date_warp_distance_yday_elt s every z)
    /\ (forall units no o ne every,
          Distance.dbl_date_int_elt units no o ne every x
          = Distance.int_date_int_elt units no o ne every z)
    /\ (forall units no o ne every,
          Distance.dbl_date_int64_elt units no o ne every x
          = Distance.int_date_int64_elt units no o ne every z)
    /\ (forall ne every o,
          Chunk.dbl_date_warp_chunk_day_elt false o ne every x
          = Chunk.every_int ne every (if below then z - 1 else z)).
Proof.
  intros x z Ht Hz below.
  destruct (to_int_of_floor x z Ht Hz) as [Hx Hfl].
  pose proof (trunc_Z_finite x z Ht) as Hfin.
  assert (Hna : (z =? NA_INTEGER) = false)
    by (apply Z.eqb_neq; unfold NA_INTEGER; lia).
  split; [exact Hx |]. split; [exact Hfl |].
  split.
  { intros host s every.
    unfold Distance.dbl_date_warp_distance_yday_elt,
      Distance.int_date_warp_distance_yday_elt,
      Distance.dbl_date_warp_distance_yday_bucket,
      Distance.int_date_warp_distance_yday_bucket.
    now rewrite Hfin, Hx, Hna. }
  split.
  { intros units no o ne every.
    unfold Distance.dbl_date_int_elt, Distance.int_date_int_elt,
      Distance.dbl_date_int_bucket, Distance.int_date_int_bucket.
    now rewrite Hfin, Hx, Hna. }
  split.
  { intros units no o ne every.
    assert (Hx64 : to_int64 x = z).
    { unfold to_int64. rewrite Ht.
      destruct (Z.leb_spec INT64_MIN z), (Z.leb_spec z INT64_MAX);
        cbn [andb]; unfold_bounds; unfold INT_MIN, INT_MAX in Hz; lia. }
    unfold Distance.dbl_date_int64_elt, Distance.int_date_int64_elt,
      Distance.dbl_date_int64_bucket, Distance.int_date_int64_bucket.
    rewrite Hfin, Hx64, Hna. cbn [negb].
    rewrite (int64_small z)
      by (unfold_bounds; unfold INT_MIN, INT_MAX in Hz; lia).
    reflexivity. }
  intros ne every o.
  unfold Chunk.dbl_date_warp_chunk_day_elt.
  rewrite Hfin. cbn [negb]. subst below.
  destruct (ltb x (of_Z 0)) eqn:Hneg; cbn [andb] in *.
  - now rewrite Hfl.
  - now rewrite Hx.
Qed.

(** The Date -1.5 converts to -1 and floors to -2. *)
Lemma C5_fraction_is_dropped_toward_zero_witness :
  to_int minus_one_and_a_half = -1
  /\ to_int (floor minus_one_and_a_half) = -1 - 1
  /\ Chunk.dbl_date_warp_chunk_day_elt false (of_Z 0) false 1
       minus_one_and_a_half
     = Chunk.every_int false 1 (-1 - 1).
Proof.
  destruct (C5_fraction_is_dropped_toward_zero minus_one_and_a_half (-1))
    as [Ha [Hb [_ [_ [_ Hc]]]]].
  - vm_compute. reflexivity.
  - vm_compute. split; [reflexivity | discriminate].
  - split; [exact Ha |]. split; [exact Hb |].
    exact (Hc false 1 (of_Z 0)).
Defined.
